(** * electron-json-settings-store: the main-process settings store

    A shallow embedding of the class [ElectronJSONSettingsStoreMain] (the
    owner of the settings cache and of the JSON file) together with the part
    of the Node/Electron runtime it talks to: the object heap, the file,
    the [fs.watch] handles, [setTimeout] timers, pending
    [fs.promises.writeFile] promises and the IPC channel towards renderer
    windows.

    Conventions of the model.
    - Settings values are scalars (the store does not support nested
      values); numbers are integers.
    - JavaScript objects are finite maps from property names to values and
      live in a heap: fields such as [cachedSettings] and [_defaults] hold
      references, so that two fields may name the same object.
    - The text of the settings file is represented by the document it
      denotes.
    - The checker compiled by fastest-validator is an external library;
      the store keeps it in its [_check] field. Its verdict appears here as
      a function from objects to validation outcomes. The checker also
      writes into the object it checks: a field that is missing,
      [undefined] or [null] receives the default the schema gives it
      ([fill_defaults]). Rules with converting options are not covered.
    - Method bodies run in a state-and-exception monad; an [async] method is
      split at its [await] into the part run by the call and the part run
      when the awaited promise settles. The store is initialized with
      [initSync].
    - The class [ElectronJSONSettingsStoreRenderer] of a renderer process
      works on a state of its own, the replica; what it asks of the main
      process appears as the request its method returns. *)

From stdpp Require Import gmap strings list fin_maps.

Open Scope Z_scope.

(** ** Values and objects *)

Inductive value :=
| VUndefined
| VNull
| VBool (b : bool)
| VNum (n : Z)
| VStr (s : string).

#[global] Instance value_eq_dec : EqDecision value.
Proof. solve_decision. Defined.

(** [x === y] on scalars. *)
Definition strict_eq (x y : value) : bool := bool_decide (x = y).

Abbreviation obj := (gmap string value).

(** [Object.prototype.hasOwnProperty.call(o, key)] *)
Definition hasOwnProperty {A} (o : gmap string A) (key : string) : bool :=
  match o !! key with Some _ => true | None => false end.

(** [o[key]]: a missing property reads as [undefined]. *)
Definition prop (o : obj) (key : string) : value :=
  default VUndefined (o !! key).

(** [Object.keys(o)] *)
Definition keys (o : obj) : list string := (map_to_list o).*1.

(** [deepEqual(x, y)] of the source, on two objects with scalar properties.
    For two scalars the conditional of the source always takes its [x === y]
    branch (a scalar is either falsy or not of type 'object'), which is
    what the inner calls on [x[key]] and [y[key]] compute. *)
Definition deepEqual (x y : obj) : bool :=
  bool_decide (length (keys x) = length (keys y))
  && forallb (fun key => strict_eq (prop x key) (prop y key)) (keys x).

(** ** Schema, validator outcomes, results *)

(** A field of the schema. Only [default] is read by the store; the
    constraints are consumed by the validator. [rule_default = None] is a
    descriptor without a [default] property. *)
Record FieldRule := {
  rule_type : string;
  rule_default : option value
}.

(** An entry of the error array returned by the compiled checker. *)
Record CheckError := {
  field : string;
  message : option string
}.

Inductive check_result :=
| CheckTrue
| CheckErrors (errs : list CheckError).

(** What the compiled checker writes into the object it checks. For each
    field of the schema it runs
    [if (value === undefined || value === null) parent[field] = <default>]
    when the descriptor has a default other than [null] and [undefined];
    every other property is left as it is. *)
Definition fills (rule : FieldRule) : option value :=
  match rule_default rule with
  | None | Some VUndefined | Some VNull => None
  | Some d => Some d
  end.

Definition fill_defaults (schema : gmap string FieldRule) (object : obj) : obj :=
  merge (fun rule v =>
           match rule ≫= fills, v with
           | Some d, None | Some d, Some VUndefined | Some d, Some VNull => Some d
           | _, _ => v
           end) schema object.

(** The [errors] member of a result: [false], a string or a list of strings. *)
Inductive errors_t :=
| ENone
| EStr (s : string)
| EList (l : list string).

#[global] Instance errors_t_eq_dec : EqDecision errors_t.
Proof. solve_decision. Defined.

(** [ElectronJSONSettingsStoreResult] *)
Record Result := {
  status : bool;
  default_value : value;
  errors : errors_t
}.

#[global] Instance Result_eq_dec : EqDecision Result.
Proof. solve_decision. Defined.

(** Thrown values. [OutOfFuel] is not a JavaScript exception: it marks a
    run of the model that was cut short, and no [catch] sees it. *)
Inductive exn :=
| Error (msg : string)
| TypeError (msg : string)
| OutOfFuel.

#[global] Instance exn_eq_dec : EqDecision exn.
Proof. solve_decision. Defined.

Definition exn_toString (e : exn) : string :=
  match e with
  | Error msg => "Error: " +:+ msg
  | TypeError msg => "TypeError: " +:+ msg
  | OutOfFuel => ""
  end.

(** ** Options *)

Record Options := {
  prettyPrint : bool;
  validateFile : bool;
  validate_opt : bool;
  mkdirOnStartup : bool;
  defaultOnFailValidation : bool;
  watchFile : bool;
  writeBeforeQuit : bool
}.

Definition defaultOptions : Options := {|
  prettyPrint := true;
  validateFile := true;
  validate_opt := true;
  mkdirOnStartup := true;
  defaultOnFailValidation := true;
  watchFile := false;
  writeBeforeQuit := false
|}.

Definition set_watchFile (b : bool) (o : Options) : Options := {|
  prettyPrint := prettyPrint o;
  validateFile := validateFile o;
  validate_opt := validate_opt o;
  mkdirOnStartup := mkdirOnStartup o;
  defaultOnFailValidation := defaultOnFailValidation o;
  watchFile := b;
  writeBeforeQuit := writeBeforeQuit o
|}.

(** ** The store object and the runtime around it *)

(** References into the object heap. *)
Abbreviation loc := nat.

(** Text of the settings file: a JSON document (with or without
    indentation) or something [JSON.parse] rejects. *)
Inductive text :=
| Json (indent : bool) (doc : obj)
| Garbage.

#[global] Instance text_eq_dec : EqDecision text.
Proof. solve_decision. Defined.

(** [JSON.stringify(data, undefined, indent ? 4 : undefined)]: properties
    whose value is [undefined] are left out. *)
Definition JSON_stringify (data : obj) (indent : bool) : text :=
  Json indent (filter (fun kv => kv.2 ≠ VUndefined) data).

(** [JSON.parse]: [None] stands for the syntax error. *)
Definition JSON_parse (t : text) : option obj :=
  match t with
  | Json _ doc => Some doc
  | Garbage => None
  end.

(** The fields of [ElectronJSONSettingsStoreMain]. *)
Record Store := {
  options : Options;
  cachedSettings : loc;
  _isWritingFlag : bool;
  _schema : gmap string FieldRule;
  _watcher : option nat;
  _lastWriteHrtime : Z;
  _writeAgainFlag : bool;
  _hasInitialized : bool;
  _check : obj → check_result;
  _defaults : loc;
  _windowListeners : list (option nat)
}.

(** What the process does to the outside, most recent first. *)
Inductive effect :=
| IpcSend (listener : nat) (settings : obj)
| FsRead
| FsWriteSync (data : text) (ok : bool)
| FsWriteBegin (data : text)
| FsWriteEnd (ok : bool)
| WriteResolved (r : bool + string).

#[global] Instance effect_eq_dec : EqDecision effect.
Proof. solve_decision. Defined.

(** A [fs.promises.writeFile] promise that has not settled yet, with what
    the suspended [_writeJSONFile] frame still holds: its [data] argument,
    and whether the frame is awaited by the public [write]. *)
Record PendingWrite := {
  pw_data : loc;
  pw_text : text;
  pw_awaited : bool
}.

Record Node := {
  heap : list obj;
  hrtime : Z;                  (* process.hrtime.bigint(), nanoseconds *)
  fs_dir_ok : bool;            (* whether mkdir succeeds *)
  fs_healthy : bool;           (* whether writeFileSync succeeds *)
  fs_file : option text;       (* None: no such file *)
  fs_watchers : list nat;      (* open FSWatcher handles *)
  fsWait : list bool;          (* the [fsWait] variable of each watch closure *)
  timers : list (Z * nat);     (* setTimeout: fire time, closure *)
  pending : list PendingWrite;
  trace : list effect
}.

Record World := {
  this : Store;
  node : Node
}.

(** Field updates ([this.f = x]). *)

Definition set_options (x : Options) (s : Store) : Store := {|
  options := x;
  cachedSettings := cachedSettings s;
  _isWritingFlag := _isWritingFlag s;
  _schema := _schema s;
  _watcher := _watcher s;
  _lastWriteHrtime := _lastWriteHrtime s;
  _writeAgainFlag := _writeAgainFlag s;
  _hasInitialized := _hasInitialized s;
  _check := _check s;
  _defaults := _defaults s;
  _windowListeners := _windowListeners s
|}.

Definition set_cachedSettings (x : loc) (s : Store) : Store := {|
  options := options s;
  cachedSettings := x;
  _isWritingFlag := _isWritingFlag s;
  _schema := _schema s;
  _watcher := _watcher s;
  _lastWriteHrtime := _lastWriteHrtime s;
  _writeAgainFlag := _writeAgainFlag s;
  _hasInitialized := _hasInitialized s;
  _check := _check s;
  _defaults := _defaults s;
  _windowListeners := _windowListeners s
|}.

Definition set_isWritingFlag (x : bool) (s : Store) : Store := {|
  options := options s;
  cachedSettings := cachedSettings s;
  _isWritingFlag := x;
  _schema := _schema s;
  _watcher := _watcher s;
  _lastWriteHrtime := _lastWriteHrtime s;
  _writeAgainFlag := _writeAgainFlag s;
  _hasInitialized := _hasInitialized s;
  _check := _check s;
  _defaults := _defaults s;
  _windowListeners := _windowListeners s
|}.

Definition set_watcher (x : option nat) (s : Store) : Store := {|
  options := options s;
  cachedSettings := cachedSettings s;
  _isWritingFlag := _isWritingFlag s;
  _schema := _schema s;
  _watcher := x;
  _lastWriteHrtime := _lastWriteHrtime s;
  _writeAgainFlag := _writeAgainFlag s;
  _hasInitialized := _hasInitialized s;
  _check := _check s;
  _defaults := _defaults s;
  _windowListeners := _windowListeners s
|}.

Definition set_lastWriteHrtime (x : Z) (s : Store) : Store := {|
  options := options s;
  cachedSettings := cachedSettings s;
  _isWritingFlag := _isWritingFlag s;
  _schema := _schema s;
  _watcher := _watcher s;
  _lastWriteHrtime := x;
  _writeAgainFlag := _writeAgainFlag s;
  _hasInitialized := _hasInitialized s;
  _check := _check s;
  _defaults := _defaults s;
  _windowListeners := _windowListeners s
|}.

Definition set_writeAgainFlag (x : bool) (s : Store) : Store := {|
  options := options s;
  cachedSettings := cachedSettings s;
  _isWritingFlag := _isWritingFlag s;
  _schema := _schema s;
  _watcher := _watcher s;
  _lastWriteHrtime := _lastWriteHrtime s;
  _writeAgainFlag := x;
  _hasInitialized := _hasInitialized s;
  _check := _check s;
  _defaults := _defaults s;
  _windowListeners := _windowListeners s
|}.

Definition set_hasInitialized (x : bool) (s : Store) : Store := {|
  options := options s;
  cachedSettings := cachedSettings s;
  _isWritingFlag := _isWritingFlag s;
  _schema := _schema s;
  _watcher := _watcher s;
  _lastWriteHrtime := _lastWriteHrtime s;
  _writeAgainFlag := _writeAgainFlag s;
  _hasInitialized := x;
  _check := _check s;
  _defaults := _defaults s;
  _windowListeners := _windowListeners s
|}.

Definition set_windowListeners (x : list (option nat)) (s : Store) : Store := {|
  options := options s;
  cachedSettings := cachedSettings s;
  _isWritingFlag := _isWritingFlag s;
  _schema := _schema s;
  _watcher := _watcher s;
  _lastWriteHrtime := _lastWriteHrtime s;
  _writeAgainFlag := _writeAgainFlag s;
  _hasInitialized := _hasInitialized s;
  _check := _check s;
  _defaults := _defaults s;
  _windowListeners := x
|}.

Definition set_heap (x : list obj) (n : Node) : Node := {|
  heap := x;
  hrtime := hrtime n;
  fs_dir_ok := fs_dir_ok n;
  fs_healthy := fs_healthy n;
  fs_file := fs_file n;
  fs_watchers := fs_watchers n;
  fsWait := fsWait n;
  timers := timers n;
  pending := pending n;
  trace := trace n
|}.

Definition set_hrtime (x : Z) (n : Node) : Node := {|
  heap := heap n;
  hrtime := x;
  fs_dir_ok := fs_dir_ok n;
  fs_healthy := fs_healthy n;
  fs_file := fs_file n;
  fs_watchers := fs_watchers n;
  fsWait := fsWait n;
  timers := timers n;
  pending := pending n;
  trace := trace n
|}.

Definition set_fs_dir_ok (x : bool) (n : Node) : Node := {|
  heap := heap n;
  hrtime := hrtime n;
  fs_dir_ok := x;
  fs_healthy := fs_healthy n;
  fs_file := fs_file n;
  fs_watchers := fs_watchers n;
  fsWait := fsWait n;
  timers := timers n;
  pending := pending n;
  trace := trace n
|}.

Definition set_fs_healthy (x : bool) (n : Node) : Node := {|
  heap := heap n;
  hrtime := hrtime n;
  fs_dir_ok := fs_dir_ok n;
  fs_healthy := x;
  fs_file := fs_file n;
  fs_watchers := fs_watchers n;
  fsWait := fsWait n;
  timers := timers n;
  pending := pending n;
  trace := trace n
|}.

Definition set_fs_file (x : option text) (n : Node) : Node := {|
  heap := heap n;
  hrtime := hrtime n;
  fs_dir_ok := fs_dir_ok n;
  fs_healthy := fs_healthy n;
  fs_file := x;
  fs_watchers := fs_watchers n;
  fsWait := fsWait n;
  timers := timers n;
  pending := pending n;
  trace := trace n
|}.

Definition set_fs_watchers (x : list nat) (n : Node) : Node := {|
  heap := heap n;
  hrtime := hrtime n;
  fs_dir_ok := fs_dir_ok n;
  fs_healthy := fs_healthy n;
  fs_file := fs_file n;
  fs_watchers := x;
  fsWait := fsWait n;
  timers := timers n;
  pending := pending n;
  trace := trace n
|}.

Definition set_fsWait (x : list bool) (n : Node) : Node := {|
  heap := heap n;
  hrtime := hrtime n;
  fs_dir_ok := fs_dir_ok n;
  fs_healthy := fs_healthy n;
  fs_file := fs_file n;
  fs_watchers := fs_watchers n;
  fsWait := x;
  timers := timers n;
  pending := pending n;
  trace := trace n
|}.

Definition set_timers (x : list (Z * nat)) (n : Node) : Node := {|
  heap := heap n;
  hrtime := hrtime n;
  fs_dir_ok := fs_dir_ok n;
  fs_healthy := fs_healthy n;
  fs_file := fs_file n;
  fs_watchers := fs_watchers n;
  fsWait := fsWait n;
  timers := x;
  pending := pending n;
  trace := trace n
|}.

Definition set_pending (x : list PendingWrite) (n : Node) : Node := {|
  heap := heap n;
  hrtime := hrtime n;
  fs_dir_ok := fs_dir_ok n;
  fs_healthy := fs_healthy n;
  fs_file := fs_file n;
  fs_watchers := fs_watchers n;
  fsWait := fsWait n;
  timers := timers n;
  pending := x;
  trace := trace n
|}.

Definition set_trace (x : list effect) (n : Node) : Node := {|
  heap := heap n;
  hrtime := hrtime n;
  fs_dir_ok := fs_dir_ok n;
  fs_healthy := fs_healthy n;
  fs_file := fs_file n;
  fs_watchers := fs_watchers n;
  fsWait := fsWait n;
  timers := timers n;
  pending := pending n;
  trace := x
|}.

(** ** A state-and-exception monad for method bodies

    A method runs on the world and either returns or throws; in both cases
    the changes it made so far stay (JavaScript has no roll-back). *)

Inductive res (A : Type) :=
| Ret (a : A)
| Throw (e : exn).
Arguments Ret {A} a.
Arguments Throw {A} e.

Definition M (A : Type) : Type := World → res A * World.

Definition ret {A} (a : A) : M A := fun w => (Ret a, w).

Definition throw {A} (e : exn) : M A := fun w => (Throw e, w).

Definition bind {A B} (m : M A) (k : A → M B) : M B := fun w =>
  match m w with
  | (Ret a, w') => k a w'
  | (Throw e, w') => (Throw e, w')
  end.

(** [try { m } catch (error) { h error }] *)
Definition try_catch {A} (m : M A) (h : exn → M A) : M A := fun w =>
  match m w with
  | (Ret a, w') => (Ret a, w')
  | (Throw OutOfFuel, w') => (Throw OutOfFuel, w')
  | (Throw e, w') => h e w'
  end.

Notation "'let*' x ':=' m 'in' k" := (bind m (fun x => k))
  (at level 10, x name, m at level 200, k at level 200).
Notation "m ';;' k" := (bind m (fun _ => k))
  (at level 100, k at level 200, right associativity).

Definition get_this : M Store := fun w => (Ret (this w), w).
Definition get_node : M Node := fun w => (Ret (node w), w).
Definition modify_this (f : Store → Store) : M unit := fun w =>
  (Ret tt, {| this := f (this w); node := node w |}).
Definition modify_node (f : Node → Node) : M unit := fun w =>
  (Ret tt, {| this := this w; node := f (node w) |}).

Definition emit (e : effect) : M unit :=
  modify_node (fun n => set_trace (e :: trace n) n).

(** Heap access. A dangling reference reads as the empty object; none is
    ever created. *)
Definition deref (l : loc) : M obj :=
  let* n := get_node in ret (default ∅ (heap n !! l)).

Definition alloc (o : obj) : M loc :=
  let* n := get_node in
  modify_node (set_heap (heap n ++ [o]));;
  ret (length (heap n)).

Definition update (l : loc) (f : obj → obj) : M unit :=
  modify_node (fun n => set_heap (alter f l (heap n)) n).

(** [list.forEach(f)] *)
Definition for_each {A} (l : list A) (f : A → M unit) : M unit :=
  foldr (fun x k => f x;; k) (ret tt) l.

(** ** The class [ElectronJSONSettingsStoreMain] *)

Module Main.

Definition INIT_ERROR : exn :=
  Error "Init the module first (method init). If you are using a async operation please wait until the init promise is resolved".

Definition KEY_ERROR : exn := TypeError "Enter a valid key name".

(** [this._schema[key].default]; reading [default] of a missing descriptor
    is a TypeError. *)
Definition schema_default (key : string) : M value :=
  let* s := get_this in
  match _schema s !! key with
  | Some rule => ret (default VUndefined (rule_default rule))
  | None => throw (TypeError "Cannot read property 'default' of undefined")
  end.

Definition getDefault (key : string) : M value :=
  let* s := get_this in
  if negb (_hasInitialized s) then throw INIT_ERROR
  else if bool_decide (key = "") then throw KEY_ERROR
  else
    let* defaults := deref (_defaults s) in
    if hasOwnProperty defaults key then schema_default key
    else ret VUndefined.

Definition get (key : string) : M value :=
  let* s := get_this in
  if negb (_hasInitialized s) then throw INIT_ERROR
  else if bool_decide (key = "") then throw KEY_ERROR
  else
    let* cached := deref (cachedSettings s) in
    if negb (hasOwnProperty cached key) then
      if hasOwnProperty (_schema s) key then schema_default key
      else ret VUndefined
    else ret (prop cached key).

(** [this._check(object)] on an object of the heap: the verdict on the
    object as it is found, and the defaults the checker writes into it. *)
Definition _fastValidateSettings (object : loc) : M check_result :=
  let* s := get_this in
  let* o := deref object in
  update object (fill_defaults (_schema s));;
  ret (_check s o).

(** The same on an object literal that only the caller holds and never
    reads again: the literal does not enter the heap, and what the checker
    writes into it is lost with it. *)
Definition _fastValidateSettings_literal (object : obj) : M check_result :=
  let* s := get_this in ret (_check s object).

(** The messages of the entries that have one. *)
Definition error_messages (errs : list CheckError) : list string :=
  omap message errs.

Definition validate (key : string) (value : value) : M Result :=
  if bool_decide (key = "") then throw KEY_ERROR
  else
    let object : obj := {[ key := value ]} in
    let* validationResults := _fastValidateSettings_literal object in
    match validationResults with
    | CheckTrue =>
        let* d := getDefault key in
        ret {| status := true; default_value := d; errors := ENone |}
    | CheckErrors errs =>
        let errorsList := error_messages errs in
        let* d := getDefault key in
        ret {| status := false; default_value := d; errors := EList errorsList |}
    end.

Definition _sendIPCUpdateSettings : M unit :=
  let* s := get_this in
  for_each (_windowListeners s) (fun listener =>
    match listener with
    | Some l =>
        let* settings := deref (cachedSettings s) in
        emit (IpcSend l settings)
    | None => ret tt
    end).

(** [settings] is a reference: on a change the cache field comes to name
    the very object that was passed in. *)
Definition _setCachedSettings (settings : loc) : M unit :=
  let* s := get_this in
  let* x := deref settings in
  let* y := deref (cachedSettings s) in
  let changedSettings := deepEqual x y in
  if negb changedSettings then
    modify_this (set_cachedSettings settings);;
    _sendIPCUpdateSettings
  else ret tt.

Definition _setCachedSettingsKey (key : string) (value : value) : M unit :=
  let* s := get_this in
  let* cached := deref (cachedSettings s) in
  let changedSettings := strict_eq (prop cached key) value in
  if negb changedSettings then
    update (cachedSettings s) (insert key value);;
    _sendIPCUpdateSettings
  else ret tt.

Definition _set (key : string) (value : value) : M Result :=
  let* s := get_this in
  let* cached := deref (cachedSettings s) in
  if negb (hasOwnProperty cached key) then
    let* defaults := deref (_defaults s) in
    if hasOwnProperty defaults key then
      _setCachedSettingsKey key (prop defaults key);;
      let* d := getDefault key in
      ret {| status := true; default_value := d; errors := ENone |}
    else
      ret {| status := false; default_value := VUndefined;
             errors := EStr "Key not found in cached settings" |}
  else if negb (validate_opt (options s)) then
    _setCachedSettingsKey key value;;
    let* d := getDefault key in
    ret {| status := true; default_value := d; errors := ENone |}
  else
    let* validationResults := validate key value in
    if status validationResults then
      _setCachedSettingsKey key value;;
      ret validationResults
    else if defaultOnFailValidation (options s) then
      let* defaults := deref (_defaults s) in
      _setCachedSettingsKey key (prop defaults key);;
      let* d := getDefault key in
      ret {| status := true; default_value := d;
             errors := EStr "Default setting was applied" |}
    else ret validationResults.

(** The first argument of [set]: a key name, or an object to set several
    keys at once. *)
Inductive key_arg :=
| KeyString (key : string)
| KeyObject (entries : obj).

(** What [set] hands back: a result, the group result of the object form,
    or the error object its [catch] returns. *)
Inductive set_result :=
| SetResult (r : Result)
| SetGroup (status : bool) (errors : list errors_t)
| SetCaught (error : exn).

(** The loop of the object form of [set], threading the group result. *)
Definition set_entries (entries : list (string * value)) : M (bool * list errors_t) :=
  foldl (fun acc kv =>
           let* g := acc in
           let* setResultArray := _set kv.1 kv.2 in
           if negb (status setResultArray)
           then ret (false, g.2 ++ [errors setResultArray])
           else ret g)
        (ret (true, [])) entries.

Definition set (key : key_arg) (value : value) : M set_result :=
  let* s := get_this in
  if negb (_hasInitialized s) then throw INIT_ERROR
  else match key with
  | KeyString k =>
      if bool_decide (value = VUndefined)
      then throw (TypeError "You need to define a object")
      else if bool_decide (k = "") then throw KEY_ERROR
      else try_catch
             (let* setResult := _set k value in ret (SetResult setResult))
             (fun error => ret (SetCaught error))
  | KeyObject o =>
      try_catch
        (let* g := set_entries (map_to_list o) in ret (SetGroup g.1 g.2))
        (fun error => ret (SetCaught error))
  end.

(** [getAll] and [getDefaults] hand out the objects themselves; what a
    caller sees through them is their content at the time it looks. *)
Definition getAll : M obj :=
  let* s := get_this in
  if negb (_hasInitialized s) then throw INIT_ERROR
  else deref (cachedSettings s).

Definition getDefaults : M obj :=
  let* s := get_this in deref (_defaults s).

(** [forEach] over the errors, throwing at the first one with a message. *)
Definition throw_first_message (what : string) (errs : list CheckError) : M unit :=
  for_each errs (fun e =>
    match message e with
    | Some errorMessage => throw (Error (what +:+ errorMessage))
    | None => ret tt
    end).

(** [data] is the caller's object; it enters the heap here. *)
Definition setAll (data : obj) : M unit :=
  let* s := get_this in
  if negb (_hasInitialized s) then throw INIT_ERROR
  else
    let* settings := alloc data in
    if negb (validate_opt (options s)) then _setCachedSettings settings
    else
      let* validationResults := _fastValidateSettings settings in
      match validationResults with
      | CheckTrue => _setCachedSettings settings
      | CheckErrors errs =>
          if defaultOnFailValidation (options s)
          then _setCachedSettings (_defaults s)
          else throw_first_message "Set All validation fail: " errs
      end.

Definition unset (key : string) : M bool :=
  if bool_decide (key = "") then throw KEY_ERROR
  else
    let* s := get_this in
    let* cached := deref (cachedSettings s) in
    if negb (hasOwnProperty cached key) then ret false
    else
      update (cachedSettings s) (delete key);;
      ret true.

Definition has (key : string) : M bool :=
  let* s := get_this in
  if negb (_hasInitialized s) then throw INIT_ERROR
  else if bool_decide (key = "") then throw KEY_ERROR
  else
    let* cached := deref (cachedSettings s) in
    ret (hasOwnProperty cached key).

Definition reset : M unit :=
  let* s := get_this in
  _setCachedSettings (_defaults s).

(** *** File system primitives *)

Definition fs_mkdirSync : M unit :=
  let* n := get_node in
  if fs_dir_ok n then ret tt
  else throw (Error "EACCES: permission denied, mkdir").

Definition fs_readFileSync : M text :=
  emit FsRead;;
  let* n := get_node in
  match fs_file n with
  | Some t => ret t
  | None => throw (Error "ENOENT: no such file or directory, open")
  end.

Definition fs_writeFileSync (dataString : text) : M unit :=
  let* n := get_node in
  if fs_healthy n then
    modify_node (set_fs_file (Some dataString));;
    emit (FsWriteSync dataString true)
  else
    emit (FsWriteSync dataString false);;
    throw (Error "EIO: i/o error, write").

(** [this._watcher.close()] *)
Definition watcher_close (h : nat) : M unit :=
  modify_node (fun n =>
    set_fs_watchers (List.filter (fun c => negb (c =? h)%nat) (fs_watchers n)) n).

(** *** Watching the file *)

(** [_watchFile] makes a fresh closure with its own [fsWait = false] and
    opens a watcher on it; the handle replaces whatever [_watcher] held. *)
Definition _watchFile : M unit :=
  let* n := get_node in
  let c := length (fsWait n) in
  modify_node (fun n => set_fsWait (fsWait n ++ [false]) n);;
  modify_node (fun n => set_fs_watchers (fs_watchers n ++ [c]) n);;
  modify_this (set_watcher (Some c)).

(** The quiescence window after an own write (1e10 ns) and the delay of
    the timer (1000 ms), in nanoseconds. *)
Definition IGNORE_WINDOW : Z := 10000000000.
Definition TIMER_DELAY : Z := 1000000000.

(** The listener passed to [fs.watch], for closure [c]. *)
Definition watch_listener (c : nat) (eventType : string) (filename : option string) : M unit :=
  let* s := get_this in
  let* n := get_node in
  if bool_decide (filename ≠ None ∧ filename ≠ Some "") && bool_decide (eventType = "change") then
    if default false (fsWait n !! c) || _isWritingFlag s then ret tt
    else if bool_decide (hrtime n - _lastWriteHrtime s < IGNORE_WINDOW) then ret tt
    else
      modify_node (fun n => set_fsWait (<[c := true]> (fsWait n)) n);;
      modify_node (fun n => set_timers (timers n ++ [(hrtime n + TIMER_DELAY, c)]) n)
  else ret tt.

(** *** Writing the file *)

(** The body of [_writeJSONFileSync], with [self] for the call to itself. *)
Definition _writeJSONFileSync_body (self : loc → M unit) (data : loc) : M unit :=
  try_catch
    (let* s := get_this in
     if _isWritingFlag s then modify_this (set_writeAgainFlag true)
     else
       match _watcher s with
       | Some h => watcher_close h;; modify_this (set_watcher None)
       | None => ret tt
       end;;
       modify_this (set_isWritingFlag true);;
       let* o := deref data in
       let dataString := JSON_stringify o (prettyPrint (options s)) in
       fs_writeFileSync dataString;;
       modify_this (set_isWritingFlag false);;
       let* n := get_node in
       modify_this (set_lastWriteHrtime (hrtime n));;
       let* s := get_this in
       (if watchFile (options s) && bool_decide (_watcher s = None)
        then _watchFile else ret tt);;
       let* s := get_this in
       if _writeAgainFlag s then
         modify_this (set_writeAgainFlag false);;
         self data
       else ret tt)
    (fun error => throw (Error (exn_toString error))).

Fixpoint _writeJSONFileSync_rec (fuel : nat) (data : loc) : M unit :=
  match fuel with
  | O => throw OutOfFuel
  | S fuel' => _writeJSONFileSync_body (_writeJSONFileSync_rec fuel') data
  end.

(** Two levels are all the recursion can take (lemma
    [_writeJSONFileSync_total] below). *)
Definition _writeJSONFileSync (data : loc) : M unit :=
  _writeJSONFileSync_rec 2 data.

(** The part of the async [_writeJSONFile] up to its [await]. It returns
    [true] when the call returned without awaiting, [false] when it is
    suspended on the write it started. *)
Definition _writeJSONFile (data : loc) (awaited : bool) : M bool :=
  let* s := get_this in
  if _isWritingFlag s then
    modify_this (set_writeAgainFlag true);;
    ret true
  else
    match _watcher s with
    | Some h => watcher_close h;; modify_this (set_watcher None)
    | None => ret tt
    end;;
    modify_this (set_isWritingFlag true);;
    let* o := deref data in
    let dataString := JSON_stringify o (prettyPrint (options s)) in
    emit (FsWriteBegin dataString);;
    modify_node (fun n =>
      set_pending (pending n ++ [{| pw_data := data; pw_text := dataString;
                                    pw_awaited := awaited |}]) n);;
    ret false.

(** The part after the [await], run when the write of frame [p] settles.
    On failure the [await] throws and the frame ends there. *)
Definition _writeJSONFile_resume (p : PendingWrite) (ok : bool) : M unit :=
  if ok then
    modify_this (set_isWritingFlag false);;
    let* n := get_node in
    modify_this (set_lastWriteHrtime (hrtime n));;
    let* s := get_this in
    (if watchFile (options s) && bool_decide (_watcher s = None)
     then _watchFile else ret tt);;
    let* s := get_this in
    (if _writeAgainFlag s then
       modify_this (set_writeAgainFlag false);;
       let* _ := _writeJSONFile (pw_data p) false in ret tt
     else ret tt);;
    if pw_awaited p then emit (WriteResolved (inl true)) else ret tt
  else
    if pw_awaited p
    then emit (WriteResolved (inr (exn_toString (Error "EIO: i/o error, write"))))
    else ret tt.

Definition writeSync : M (bool + string) :=
  let* s := get_this in
  try_catch
    (_writeJSONFileSync (cachedSettings s);; ret (inl true))
    (fun error => ret (inr (exn_toString error))).

(** [write] up to its [await]; its result arrives as [WriteResolved]. *)
Definition write : M unit :=
  let* s := get_this in
  let* returned := _writeJSONFile (cachedSettings s) true in
  if returned then emit (WriteResolved (inl true)) else ret tt.

Definition resetAndWriteSync : M (bool + string) :=
  reset;; writeSync.

Definition disableFileWatcher : M bool :=
  let* s := get_this in
  match _watcher s with
  | Some h =>
      if watchFile (options s) then
        watcher_close h;;
        modify_this (set_watcher None);;
        modify_this (fun s => set_options (set_watchFile false (options s)) s);;
        ret true
      else ret false
  | None => ret false
  end.

(** *** Validating and reloading *)

(** The loop that puts the schema default over each reported field of the
    cached object. *)
Definition apply_defaults_to_errors (errs : list CheckError) : M unit :=
  for_each errs (fun e =>
    let keyField := field e in
    let* d := schema_default keyField in
    let* s := get_this in
    update (cachedSettings s) (insert keyField d)).

Definition _validateSettingsSync (settings : loc) : M unit :=
  let* validationResults := _fastValidateSettings settings in
  match validationResults with
  | CheckTrue => ret tt
  | CheckErrors errs =>
      let* s := get_this in
      if defaultOnFailValidation (options s) then
        apply_defaults_to_errors errs;;
        let* s := get_this in
        _writeJSONFileSync (cachedSettings s)
      else throw_first_message "Initial settings validation fail: " errs
  end.

Definition _fileChanged : M unit :=
  try_catch
    (let* jsonData := fs_readFileSync in
     match JSON_parse jsonData with
     | None => ret tt
     | Some parsed =>
         let* parsedResult := alloc parsed in
         let* s := get_this in
         if negb (validateFile (options s)) then _setCachedSettings parsedResult
         else
           let* validationResults := _fastValidateSettings parsedResult in
           match validationResults with
           | CheckTrue => _setCachedSettings parsedResult
           | CheckErrors errs =>
               if defaultOnFailValidation (options s) then
                 apply_defaults_to_errors errs;;
                 let* s := get_this in
                 _writeJSONFileSync (cachedSettings s)
               else ret tt
           end
     end)
    (fun error => ret tt).

(** The callback given to [setTimeout] by the listener of closure [c]. *)
Definition timer_callback (c : nat) : M unit :=
  modify_node (fun n => set_fsWait (<[c := false]> (fsWait n)) n);;
  _fileChanged.

Definition initSync : M unit :=
  try_catch fs_mkdirSync
    (fun error => throw (Error "Cannot create folder. Make sure that you have the right writing permissions."));;
  try_catch
    (let* jsonData := fs_readFileSync in
     match JSON_parse jsonData with
     | None =>
         let* s := get_this in
         _setCachedSettings (_defaults s);;
         let* s := get_this in
         _writeJSONFileSync (cachedSettings s);;
         (if watchFile (options s) then _watchFile else ret tt);;
         modify_this (set_hasInitialized true)
     | Some parsed =>
         let* parsedResult := alloc parsed in
         _setCachedSettings parsedResult;;
         let* s := get_this in
         (if validateFile (options s)
          then _validateSettingsSync (cachedSettings s) else ret tt);;
         let* s := get_this in
         (if watchFile (options s) then _watchFile else ret tt);;
         modify_this (set_hasInitialized true)
     end)
    (fun error => throw error).

(** The handler of the 'addListener' message. *)
Definition addListener (listener : nat) : M unit :=
  let* s := get_this in
  if bool_decide (Some listener ∈ _windowListeners s) then ret tt
  else modify_this (set_windowListeners (_windowListeners s ++ [Some listener])).

(** *** Construction *)

Definition _checkValidSchemaObject (schema : gmap string FieldRule) : res unit :=
  if bool_decide (map_to_list schema = []) then
    Throw (TypeError "The `schema` option cannot be empty.")
  else if forallb (fun kv => bool_decide (is_Some (rule_default kv.2))) (map_to_list schema)
  then Ret tt
  else Throw (Error "The key does not have a default value").

Definition _retreiveDefaults (schema : gmap string FieldRule) : obj :=
  (fun rule => default VUndefined (rule_default rule)) <$> schema.

(** [new ElectronJSONSettingsStoreMain(schema, options)], with [check] the
    checker the validator library compiles from [schema]. The two objects
    the constructor creates go to the end of the heap. *)
Definition constructor (schema : gmap string FieldRule) (check : obj → check_result)
    (opts : Options) (n : Node) : res World :=
  match _checkValidSchemaObject schema with
  | Throw e => Throw e
  | Ret _ =>
      let defaults := length (heap n) in
      let cached := S (length (heap n)) in
      Ret {| this := {| options := opts;
                        cachedSettings := cached;
                        _isWritingFlag := false;
                        _schema := schema;
                        _watcher := None;
                        _lastWriteHrtime := hrtime n;
                        _writeAgainFlag := false;
                        _hasInitialized := false;
                        _check := check;
                        _defaults := defaults;
                        _windowListeners := [None] |};
             node := set_heap (heap n ++ [_retreiveDefaults schema; ∅]) n |}
  end.

(** *** Setting and saving in one call *)

(** The [status] a caller reads off what [set] returned; the error object
    that the [catch] of [set] returns has none, which reads as falsy. *)
Definition result_status (r : set_result) : bool :=
  match r with
  | SetResult r => status r
  | SetGroup st _ => st
  | SetCaught _ => false
  end.

(** What [setAndWriteSync] returns: the object [set] returned, as it is or
    with [errors] overwritten by a string and [status] by [false]. *)
Inductive set_write_result :=
| Untouched (r : set_result)
| WriteFailed (r : set_result) (errors : string).

Definition setAndWriteSync (key : key_arg) (value : value) : M set_write_result :=
  let* setOperation := set key value in
  if negb (result_status setOperation) then ret (Untouched setOperation)
  else
    let* writeResult := writeSync in
    match writeResult with
    | inl true => ret (Untouched setOperation)
    | inl false => ret (WriteFailed setOperation ("Write operation failed! " +:+ "false"))
    | inr s => ret (WriteFailed setOperation ("Write operation failed! " +:+ s))
    end.

End Main.

(** ** The runtime: what reaches the store, and when

    The process is single-threaded: method calls, watcher events, timer
    callbacks and settled promises run one after the other, each to
    completion (or to its [await]). *)

Definition exec {A} (m : M A) (w : World) : World := (m w).2.

Definition set_node (n : Node) (w : World) : World :=
  {| this := this w; node := n |}.

Inductive call :=
| CGet (key : string)
| CGetDefault (key : string)
| CValidate (key : string) (v : value)
| CSet (key : Main.key_arg) (v : value)
| CGetAll
| CGetDefaults
| CSetAll (data : obj)
| CUnset (key : string)
| CHas (key : string)
| CReset
| CResetAndWriteSync
| CWriteSync
| CWrite
| CDisableFileWatcher
| CInitSync.

Definition run_call (c : call) : World → World :=
  match c with
  | CGet key => exec (Main.get key)
  | CGetDefault key => exec (Main.getDefault key)
  | CValidate key v => exec (Main.validate key v)
  | CSet key v => exec (Main.set key v)
  | CGetAll => exec Main.getAll
  | CGetDefaults => exec Main.getDefaults
  | CSetAll data => exec (Main.setAll data)
  | CUnset key => exec (Main.unset key)
  | CHas key => exec (Main.has key)
  | CReset => exec Main.reset
  | CResetAndWriteSync => exec Main.resetAndWriteSync
  | CWriteSync => exec Main.writeSync
  | CWrite => exec Main.write
  | CDisableFileWatcher => exec Main.disableFileWatcher
  | CInitSync => exec Main.initSync
  end.

Inductive input :=
| Call (c : call)                            (* the application or a renderer request *)
| AddListener (listener : nat)               (* a renderer registers *)
| FileEvent (eventType : string) (filename : option string)
                                             (* the system reports on the watched file *)
| WriteSettled (ok : bool)                   (* the oldest pending writeFile settles *)
| FsHealth (ok : bool)                       (* the disk starts or stops accepting writes *)
| FileEdited (t : option text).              (* another program rewrites or removes the file *)

(** A pending write settles: on success the text is on disk; then the
    suspended frame resumes. *)
Definition settle_write (ok : bool) : M unit :=
  let* n := get_node in
  match pending n with
  | [] => ret tt
  | p :: rest =>
      modify_node (set_pending rest);;
      (if ok then modify_node (set_fs_file (Some (pw_text p))) else ret tt);;
      emit (FsWriteEnd ok);;
      Main._writeJSONFile_resume p ok
  end.

(** A file event reaches the listener of every open watcher. *)
Definition file_event (eventType : string) (filename : option string) : M unit :=
  let* n := get_node in
  for_each (fs_watchers n) (fun c => Main.watch_listener c eventType filename).

Definition deliver (i : input) : World → World :=
  match i with
  | Call c => run_call c
  | AddListener l => exec (Main.addListener l)
  | FileEvent eventType filename => exec (file_event eventType filename)
  | WriteSettled ok => exec (settle_write ok)
  | FsHealth ok => exec (modify_node (set_fs_healthy ok))
  | FileEdited t => exec (modify_node (set_fs_file t))
  end.

(** Time. All timers are set with the same delay, so [timers] is in firing
    order; a timer callback sets no timer, so the timers due by [t] are
    known beforehand. Each fires at its own time. *)
Definition due (t : Z) (tm : Z * nat) : bool := bool_decide (tm.1 ≤ t).

Definition fire (w : World) (tm : Z * nat) : World :=
  exec (Main.timer_callback tm.2)
       (set_node (set_hrtime (hrtime (node w) `max` tm.1) (node w)) w).

Definition advance_to (t : Z) (w : World) : World :=
  let firing := List.filter (due t) (timers (node w)) in
  let later := List.filter (fun tm => negb (due t tm)) (timers (node w)) in
  let w' := foldl fire (set_node (set_timers later (node w)) w) firing in
  set_node (set_hrtime (hrtime (node w') `max` t) (node w')) w'.

(** A schedule: inputs with their arrival times, in order. *)
Definition run (schedule : list (Z * input)) (w : World) : World :=
  foldl (fun w ti => deliver ti.2 (advance_to ti.1 w)) w schedule.

(** Inputs that arrive back to back, with no time passing. *)
Definition run_now (inputs : list input) (w : World) : World :=
  foldl (fun w i => deliver i w) w inputs.

(** ** Observations on a world *)

Definition cache (w : World) : obj :=
  default ∅ (heap (node w) !! cachedSettings (this w)).

Definition defaults_table (w : World) : obj :=
  default ∅ (heap (node w) !! _defaults (this w)).

Definition is_physical_write (e : effect) : bool :=
  match e with
  | FsWriteSync _ _ | FsWriteBegin _ => true
  | _ => false
  end.

Definition is_notification (e : effect) : bool :=
  match e with IpcSend _ _ => true | _ => false end.

Definition is_read (e : effect) : bool :=
  match e with FsRead => true | _ => false end.

Definition physical_writes (w : World) : nat :=
  length (List.filter is_physical_write (trace (node w))).

Definition notifications (w : World) : nat :=
  length (List.filter is_notification (trace (node w))).

Definition file_reads (w : World) : nat :=
  length (List.filter is_read (trace (node w))).

(** Writes in flight: the [writeFile] promises that have not settled. *)
Definition in_flight (w : World) : nat := length (pending (node w)).

(** ** A sample application

    The schema of the README with its [size] field, the checker the
    validator builds from it (a missing field takes its default and passes),
    and a fresh process. *)

Definition sample_schema : gmap string FieldRule :=
  {[ "size" := {| rule_type := "number"; rule_default := Some (VNum 25) |} ]}.

Definition sample_check (o : obj) : check_result :=
  match o !! "size" with
  | None | Some VUndefined | Some VNull => CheckTrue
  | Some (VNum n) =>
      if bool_decide (n < 10) then
        CheckErrors [{| field := "size";
                        message := Some "The 'size' field must be greater than or equal to 10." |}]
      else if bool_decide (40 < n) then
        CheckErrors [{| field := "size";
                        message := Some "The 'size' field must be less than or equal to 40." |}]
      else CheckTrue
  | Some _ =>
      CheckErrors [{| field := "size";
                      message := Some "The 'size' field must be a number." |}]
  end.

Definition fresh_node (file : option text) : Node := {|
  heap := [];
  hrtime := 0;
  fs_dir_ok := true;
  fs_healthy := true;
  fs_file := file;
  fs_watchers := [];
  fsWait := [];
  timers := [];
  pending := [];
  trace := []
|}.

(** The world after [new ElectronJSONSettingsStoreMain(schema, opts)]; an
    invalid schema leaves no store, which is the world [no_store]. *)
Definition no_store (n : Node) : World := {|
  this := {| options := defaultOptions; cachedSettings := 0;
             _isWritingFlag := false; _schema := ∅; _watcher := None;
             _lastWriteHrtime := 0; _writeAgainFlag := false;
             _hasInitialized := false; _check := fun _ => CheckTrue;
             _defaults := 0; _windowListeners := [] |};
  node := n |}.

Definition new_store (schema : gmap string FieldRule) (check : obj → check_result)
    (opts : Options) (n : Node) : World :=
  match Main.constructor schema check opts n with
  | Ret w => w
  | Throw _ => no_store n
  end.

Definition sample_file : text := Json true {[ "size" := VNum 25 ]}.

(** A sample store, constructed and not yet initialized. *)
Definition sample_new (opts : Options) : World :=
  new_store sample_schema sample_check opts (fresh_node (Some sample_file)).

(** The same after [initSync()] and the registration of one renderer. *)
Definition sample_ready (opts : Options) : World :=
  run_now [Call CInitSync; AddListener 7] (sample_new opts).

Definition size_key : Main.key_arg := Main.KeyString "size".

(** The default options with default-on-failure off, and with the watcher
    on. *)
Definition opts_no_default : Options := {|
  prettyPrint := true; validateFile := true; validate_opt := true;
  mkdirOnStartup := true; defaultOnFailValidation := false;
  watchFile := false; writeBeforeQuit := false
|}.

Definition opts_watch : Options := {|
  prettyPrint := true; validateFile := true; validate_opt := true;
  mkdirOnStartup := true; defaultOnFailValidation := true;
  watchFile := true; writeBeforeQuit := false
|}.

(** The sample store with a [write()] in flight, and a burst of three
    [set]+save pairs arriving meanwhile. *)
Definition sample_writing : World :=
  run_now [Call CWrite] (sample_ready defaultOptions).

Definition sample_burst : list call :=
  [CSet size_key (VNum 30); CWrite; CSet size_key (VNum 35); CWriteSync;
   CSet size_key (VNum 40); CWrite].

(** The sample store watching its file. *)
Definition sample_watching : World := sample_ready opts_watch.

(** Twenty seconds after the start of the process, and milliseconds, both
    in nanoseconds. *)
Definition T0 : Z := 20000000000.

Definition ms (n : Z) : Z := n * 1000000.

(** ** Notions used in the statements and proofs *)

(** The world with another trace, and with another store object. *)
Definition with_trace (tr : list effect) (w : World) : World :=
  set_node (set_trace tr (node w)) w.

Definition set_this (s : Store) (w : World) : World :=
  {| this := s; node := node w |}.

(** [preserves R m]: whatever world [m] starts in, the world it ends in
    (returning or throwing) is related to it by [R]. *)
Definition preserves {A} (R : relation World) (m : M A) : Prop :=
  ∀ w, R w (m w).2.

(** Relations of the form "this observation of the world is unchanged". *)
Definition unchanged {T} (obs : World → T) : relation World :=
  fun w w' => obs w' = obs w.

(** What the write protocol and the watcher look at. *)
Definition obs_write (w : World) : list PendingWrite * bool * bool * nat :=
  (pending (node w), _isWritingFlag (this w), _writeAgainFlag (this w),
   physical_writes w).

Definition obs_clock (w : World) : list (Z * nat) * nat :=
  (timers (node w), file_reads w).

(** [quiet]: no write started or settled, no flag of the write protocol
    touched, no timer set, the file not read. *)
Definition quiet : relation World :=
  unchanged (fun w => (obs_write w, obs_clock w)).

(** [io]: no asynchronous write started or settled, no timer set, the file
    not read. *)
Definition io : relation World :=
  unchanged (fun w => (pending (node w), obs_clock w)).

(** [guarded]: the pending writes are the same, and if the writing flag was
    set it is still set and nothing was written. *)
Definition guarded : relation World := fun w w' =>
  pending (node w') = pending (node w)
  ∧ (_isWritingFlag (this w) = true →
     _isWritingFlag (this w') = true ∧ physical_writes w' = physical_writes w).

(** Both flags of the write protocol are clear. *)
Definition idle (w : World) : Prop :=
  _isWritingFlag (this w) = false ∧ _writeAgainFlag (this w) = false.

(** [m] does not run out of fuel on [w]. *)
Definition safe_at {A} (m : M A) (w : World) : Prop :=
  (m w).1 ≠ Throw OutOfFuel.

(** The write protocol's invariant: no write is pending, or exactly one is
    and the writing flag is set. *)
Definition coalesced (w : World) : Prop :=
  match pending (node w) with
  | [] => True
  | [_] => _isWritingFlag (this w) = true
  | _ => False
  end.

(** The frame [_writeJSONFile] suspends when it starts a write. *)
Definition started (data : loc) (awaited : bool) (w : World) : PendingWrite :=
  {| pw_data := data;
     pw_text := JSON_stringify (default ∅ (heap (node w) !! data))
                  (prettyPrint (options (this w)));
     pw_awaited := awaited |}.

(** Save requests, and calls that change the cache. *)
Definition is_save (c : call) : bool :=
  match c with CWrite | CWriteSync => true | _ => false end.

Definition is_mutation (c : call) : bool :=
  match c with CSet _ _ | CSetAll _ | CUnset _ | CReset => true | _ => false end.

(** The number of save requests among the calls [cs]. *)
Definition saves (cs : list call) : nat := length (List.filter is_save cs).

(** The watcher is [armed]: one watcher [c] is open, its [fsWait] is clear,
    no timer is pending and no save is in flight. It is [waiting] once its
    timer is set, due at [T]. *)
Definition armed (c : nat) (w : World) : Prop :=
  fs_watchers (node w) = [c]
  ∧ fsWait (node w) !! c = Some false
  ∧ timers (node w) = []
  ∧ _isWritingFlag (this w) = false.

Definition waiting (c : nat) (T : Z) (w : World) : Prop :=
  fs_watchers (node w) = [c]
  ∧ fsWait (node w) !! c = Some true
  ∧ timers (node w) = [(T, c)].

(** The event the system sends when the file [filename] was modified. *)
Definition change (filename : string) : input :=
  FileEvent "change" (Some filename).

(** ** Worlds that methods lead to

    The worlds below are what the code makes of a world along one path of
    a method; the lemmas of the second part say which path is taken when. *)

(** The renderers registered as listeners (the list starts with the [null]
    the constructor puts there, which receives nothing). *)
Definition listeners (w : World) : list nat := omap id (_windowListeners (this w)).

(** The world after [_sendIPCUpdateSettings()]: each listener was sent the
    cache, in registration order. *)
Definition notify (w : World) : World :=
  with_trace (rev ((fun l => IpcSend l (cache w)) <$> listeners w) ++ trace (node w)) w.

(** The world after [this.cachedSettings[key] = v], and after
    [this.cachedSettings = l]. *)
Definition store_key (key : string) (v : value) (w : World) : World :=
  set_node (set_heap (alter (insert key v) (cachedSettings (this w)) (heap (node w)))
                     (node w)) w.

Definition point_cache (l : loc) (w : World) : World :=
  set_this (set_cachedSettings l (this w)) w.

(** No property of [o] has the value [undefined] (as in every object that
    [JSON.parse] returns). *)
Definition defined (o : obj) : Prop := ∀ k, o !! k ≠ Some VUndefined.

(** The world after [_setCachedSettingsKey(k, v)]. *)
Definition stored (k : string) (v : value) (w : World) : World :=
  if strict_eq (prop (cache w) k) v then w else notify (store_key k v w).

(** What [getDefault(k)] returns on an initialized store whose defaults
    lie within the schema. *)
Definition declared_default (w : World) (k : string) : value :=
  match defaults_table w !! k with
  | Some _ => default VUndefined (_schema (this w) !! k ≫= rule_default)
  | None => VUndefined
  end.

(** The world after [this._watcher.close(); this._watcher = null] (when a
    watcher is open), and after [_watchFile()]. *)
Definition unwatched (w : World) : World :=
  match _watcher (this w) with
  | Some h =>
      {| this := set_watcher None (this w);
         node := set_fs_watchers
                   (List.filter (fun c => negb (c =? h)%nat) (fs_watchers (node w)))
                   (node w) |}
  | None => w
  end.

Definition watched (w : World) : World :=
  let c := length (fsWait (node w)) in
  {| this := set_watcher (Some c) (this w);
     node := set_fs_watchers (fs_watchers (node w) ++ [c])
               (set_fsWait (fsWait (node w) ++ [false]) (node w)) |}.

Definition rewatched (w : World) : World :=
  if watchFile (options (this w)) then watched w else w.

(** The text [_writeJSONFileSync(data)] produces. *)
Definition text_of (data : loc) (w : World) : text :=
  JSON_stringify (default ∅ (heap (node w) !! data)) (prettyPrint (options (this w))).

(** The world after a synchronous write of [data] that went through, and
    after one that the disk refused. *)
Definition written_sync (data : loc) (w : World) : World :=
  let w1 := unwatched w in
  rewatched
    {| this := set_lastWriteHrtime (hrtime (node w)) (set_isWritingFlag false (this w1));
       node := set_trace (FsWriteSync (text_of data w) true :: trace (node w))
                 (set_fs_file (Some (text_of data w)) (node w1)) |}.


(** The world after [fs.readFileSync], after a fresh object entered the
    heap, after [_setCachedSettings(l)], and after [_hasInitialized = true]. *)
Definition reading (w : World) : World :=
  with_trace (FsRead :: trace (node w)) w.

Definition allocated (o : obj) (w : World) : World :=
  set_node (set_heap (heap (node w) ++ [o]) (node w)) w.

Definition installed (l : loc) (w : World) : World :=
  if deepEqual (default ∅ (heap (node w) !! l)) (cache w) then w
  else notify (point_cache l w).

Definition initialized (w : World) : World :=
  set_this (set_hasInitialized true (this w)) w.

(** The world after the checker ran on the object [l]. *)
Definition checked (l : loc) (w : World) : World :=
  set_node (set_heap (alter (fill_defaults (_schema (this w))) l (heap (node w)))
              (node w)) w.



(** The conditions under which the listener of closure [c] drops an event. *)
Definition dropped (c : nat) (eventType : string) (filename : option string)
    (w : World) : Prop :=
  eventType ≠ "change" ∨ filename = None ∨ filename = Some ""
  ∨ fsWait (node w) !! c = Some true
  ∨ _isWritingFlag (this w) = true
  ∨ hrtime (node w) - _lastWriteHrtime (this w) < Main.IGNORE_WINDOW.

(** What lies outside the reach of the in-memory operations: the file, the
    watchers and their timers, pending writes, the clock, and every field of
    the store but the reference to the cached object. *)
Definition obs_outside (w : World) :=
  (fs_file (node w), fs_watchers (node w), fsWait (node w), timers (node w),
   pending (node w), hrtime (node w),
   (options (this w), _schema (this w), _watcher (this w), _defaults (this w)),
   (_isWritingFlag (this w), _writeAgainFlag (this w), _lastWriteHrtime (this w),
    _hasInitialized (this w), _windowListeners (this w))).

Definition memory_only : relation World := unchanged obs_outside.

(** Calls that work on the cache alone. *)
Definition is_in_memory (c : call) : bool :=
  match c with
  | CGet _ | CGetDefault _ | CValidate _ _ | CSet _ _ | CGetAll | CGetDefaults
  | CSetAll _ | CUnset _ | CHas _ | CReset => true
  | _ => false
  end.

(** An entry [set] takes over as it is: its key is in the cache and its
    value passes validation (or validation is off). *)
Definition accepts (w : World) (kv : string * value) : Prop :=
  kv.1 ≠ ""
  ∧ is_Some (cache w !! kv.1)
  ∧ (is_Some (defaults_table w !! kv.1) → is_Some (_schema (this w) !! kv.1))
  ∧ (validate_opt (options (this w)) = false
     ∨ _check (this w) {[ kv.1 := kv.2 ]} = CheckTrue).


Definition size_error : CheckError :=
  {| field := "size";
     message := Some "The 'size' field must be less than or equal to 40." |}.

Definition edited_file : text := Json true {[ "size" := VNum 30 ]}.

(** A schema with a second field, as in the sample application, and its
    checker. *)
Definition wide_schema : gmap string FieldRule :=
  {[ "size" := {| rule_type := "number"; rule_default := Some (VNum 25) |};
     "name" := {| rule_type := "string"; rule_default := Some (VStr "World") |} ]}.

Definition name_check (o : obj) : check_result :=
  match o !! "name" with
  | None | Some VUndefined | Some VNull | Some (VStr _) => CheckTrue
  | Some _ =>
      CheckErrors [{| field := "name";
                      message := Some "The 'name' field must be a string." |}]
  end.

Definition wide_check (o : obj) : check_result :=
  match sample_check o, name_check o with
  | CheckTrue, r => r
  | r, CheckTrue => r
  | CheckErrors a, CheckErrors b => CheckErrors (a ++ b)
  end.

(** A store on the wider schema, constructed over the file [t]; and one
    that started on the sample file and has one renderer registered. *)
Definition wide_new (opts : Options) (t : text) : World :=
  new_store wide_schema wide_check opts (fresh_node (Some t)).

Definition wide_ready (opts : Options) : World :=
  run_now [Call CInitSync; AddListener 7] (wide_new opts sample_file).


(** ** The class [ElectronJSONSettingsStoreRenderer]

    A renderer process keeps its own copy of the settings and of the
    defaults, reads from it, and sends every change to the main process.
    What comes over IPC is a copy: the objects below live in the renderer's
    own heap. *)

Module Renderer.

(** [ipcRenderer.invoke(channel, ...)]: the request handed to the main
    process, whose answer the method's promise resolves with. *)
Inductive request :=
| RValidate (key : string) (v : value)
| RSet (key : Main.key_arg) (v : value)
| RSetAll (data : obj)
| RWriteSync
| RWrite
| RUnset (key : string)
| RDisableFileWatcher
| RReset
| RResetAndWriteSync
| RResetAndWrite.

Record Replica := {
  _cachedSettings : loc;
  _defaults : loc;
  emitEventOnUpdated : bool;       (* this._options.emitEventOnUpdated *)
  _hasInitialized : bool;
  objects : list obj;              (* the renderer's heap *)
  handlers : nat;                  (* listeners on 'updateSettings' *)
  emitted : list obj               (* 'updated' events, most recent first *)
}.

Definition set_cachedSettings (x : loc) (s : Replica) : Replica := {|
  _cachedSettings := x;
  _defaults := _defaults s;
  emitEventOnUpdated := emitEventOnUpdated s;
  _hasInitialized := _hasInitialized s;
  objects := objects s;
  handlers := handlers s;
  emitted := emitted s
|}.

Definition set_defaults (x : loc) (s : Replica) : Replica := {|
  _cachedSettings := _cachedSettings s;
  _defaults := x;
  emitEventOnUpdated := emitEventOnUpdated s;
  _hasInitialized := _hasInitialized s;
  objects := objects s;
  handlers := handlers s;
  emitted := emitted s
|}.

Definition set_hasInitialized (x : bool) (s : Replica) : Replica := {|
  _cachedSettings := _cachedSettings s;
  _defaults := _defaults s;
  emitEventOnUpdated := emitEventOnUpdated s;
  _hasInitialized := x;
  objects := objects s;
  handlers := handlers s;
  emitted := emitted s
|}.

Definition set_objects (x : list obj) (s : Replica) : Replica := {|
  _cachedSettings := _cachedSettings s;
  _defaults := _defaults s;
  emitEventOnUpdated := emitEventOnUpdated s;
  _hasInitialized := _hasInitialized s;
  objects := x;
  handlers := handlers s;
  emitted := emitted s
|}.

Definition set_handlers (x : nat) (s : Replica) : Replica := {|
  _cachedSettings := _cachedSettings s;
  _defaults := _defaults s;
  emitEventOnUpdated := emitEventOnUpdated s;
  _hasInitialized := _hasInitialized s;
  objects := objects s;
  handlers := x;
  emitted := emitted s
|}.

Definition set_emitted (x : list obj) (s : Replica) : Replica := {|
  _cachedSettings := _cachedSettings s;
  _defaults := _defaults s;
  emitEventOnUpdated := emitEventOnUpdated s;
  _hasInitialized := _hasInitialized s;
  objects := objects s;
  handlers := handlers s;
  emitted := x
|}.

(** The object a reference names. *)
Definition object (l : loc) (s : Replica) : obj := default ∅ (objects s !! l).

(** [new ElectronJSONSettingsStoreRenderer(options)] *)
Definition constructor (emitEventOnUpdated : bool) : Replica := {|
  _cachedSettings := 0;
  _defaults := 1;
  emitEventOnUpdated := emitEventOnUpdated;
  _hasInitialized := false;
  objects := [∅; ∅];
  handlers := 0;
  emitted := []
|}.

Definition validate (key : string) (v : value) (s : Replica) : res request * Replica :=
  if negb (_hasInitialized s) then (Throw Main.INIT_ERROR, s)
  else if bool_decide (key = "") then (Throw Main.KEY_ERROR, s)
  else (Ret (RValidate key v), s).

Definition set (key : Main.key_arg) (v : value) (s : Replica) : res request * Replica :=
  if negb (_hasInitialized s) then (Throw Main.INIT_ERROR, s)
  else match key with
  | Main.KeyString k =>
      if bool_decide (v = VUndefined)
      then (Throw (TypeError "You need to define a object"), s)
      else if bool_decide (k = "") then (Throw Main.KEY_ERROR, s)
      else (Ret (RSet key v), s)
  | Main.KeyObject _ => (Ret (RSet key v), s)
  end.

Definition setAll (data : obj) (s : Replica) : res request * Replica :=
  if negb (_hasInitialized s) then (Throw Main.INIT_ERROR, s)
  else (Ret (RSetAll data), s).

Definition writeSync (s : Replica) : res request * Replica := (Ret RWriteSync, s).

Definition write (s : Replica) : res request * Replica := (Ret RWrite, s).

(** [unset] answers [false] by itself when the key is not in its copy;
    otherwise it deletes the key from the copy and asks the main process. *)
Definition unset (key : string) (s : Replica) : res (bool + request) * Replica :=
  if negb (_hasInitialized s) then (Throw Main.INIT_ERROR, s)
  else if bool_decide (key = "") then (Throw Main.KEY_ERROR, s)
  else if negb (hasOwnProperty (object (_cachedSettings s) s) key) then (Ret (inl false), s)
  else (Ret (inr (RUnset key)),
        set_objects (alter (delete key) (_cachedSettings s) (objects s)) s).

Definition disableFileWatcher (s : Replica) : res request * Replica :=
  (Ret RDisableFileWatcher, s).

Definition get (key : string) (s : Replica) : res value * Replica :=
  if negb (_hasInitialized s) then (Throw Main.INIT_ERROR, s)
  else if bool_decide (key = "") then (Throw Main.KEY_ERROR, s)
  else if negb (hasOwnProperty (object (_cachedSettings s) s) key) then
    if hasOwnProperty (object (_defaults s) s) key
    then (Ret (prop (object (_defaults s) s) key), s)
    else (Ret VUndefined, s)
  else (Ret (prop (object (_cachedSettings s) s) key), s).

Definition getDefault (key : string) (s : Replica) : res value * Replica :=
  if negb (_hasInitialized s) then (Throw Main.INIT_ERROR, s)
  else if bool_decide (key = "") then (Throw Main.KEY_ERROR, s)
  else if hasOwnProperty (object (_defaults s) s) key
  then (Ret (prop (object (_defaults s) s) key), s)
  else (Ret VUndefined, s).

Definition has (key : string) (s : Replica) : res bool * Replica :=
  if negb (_hasInitialized s) then (Throw Main.INIT_ERROR, s)
  else if bool_decide (key = "") then (Throw Main.KEY_ERROR, s)
  else (Ret (hasOwnProperty (object (_cachedSettings s) s) key), s).

(** [this._cachedSettings = this._defaults]: the two fields name one
    object from here on. *)
Definition reset (s : Replica) : res request * Replica :=
  (Ret RReset, set_cachedSettings (_defaults s) s).

Definition resetAndWriteSync (s : Replica) : res request * Replica :=
  (Ret RResetAndWriteSync, set_cachedSettings (_defaults s) s).

Definition resetAndWrite (s : Replica) : res request * Replica :=
  (Ret RResetAndWrite, set_cachedSettings (_defaults s) s).

Definition getAll (s : Replica) : obj := object (_cachedSettings s) s.

Definition getDefaults (s : Replica) : obj := object (_defaults s) s.

(** What the answer to 'getAllAndDefaultsSync' delivers. The answer has
    the members [cachedSettings] and [defaults]; the structured clone that
    carries it keeps sharing, so they are two objects, or one object under
    both names when the main process sent one object twice. *)
Inductive getData_t :=
| TwoObjects (cachedSettings defaults : obj)
| OneObject (both : obj).

(** [initSync], given the answer to 'getAllAndDefaultsSync'. Both members
    of the answer are objects, so the type test after the assignments
    passes. The last two statements ask the main process to register this
    renderer and add a listener for its updates. *)
Definition initSync (getData : getData_t) (s : Replica) : Replica :=
  let cached := length (objects s) in
  match getData with
  | TwoObjects c d =>
      set_handlers (S (handlers s))
        (set_hasInitialized true
           (set_defaults (S cached)
              (set_cachedSettings cached
                 (set_objects (objects s ++ [c; d]) s))))
  | OneObject o =>
      set_handlers (S (handlers s))
        (set_hasInitialized true
           (set_defaults cached
              (set_cachedSettings cached
                 (set_objects (objects s ++ [o]) s))))
  end.

(** One listener on 'updateSettings', receiving the object [settings]. *)
Definition updateSettings_listener (settings : loc) (s : Replica) : Replica :=
  let s := set_cachedSettings settings s in
  if emitEventOnUpdated s
  then set_emitted (object (_cachedSettings s) s :: emitted s) s
  else s.

(** The message 'updateSettings' arrives with a copy of the settings and
    reaches every listener registered. *)
Definition on_updateSettings (settings : obj) (s : Replica) : Replica :=
  Nat.iter (handlers s) (updateSettings_listener (length (objects s)))
           (set_objects (objects s ++ [settings]) s).

End Renderer.

(** The answer of the main process to 'getAllAndDefaultsSync',
    [{cachedSettings: this.cachedSettings, defaults: this._defaults}], as
    it arrives. *)
Definition getAllAndDefaultsSync (w : World) : Renderer.getData_t :=
  if bool_decide (cachedSettings (this w) = _defaults (this w))
  then Renderer.OneObject (cache w)
  else Renderer.TwoObjects (cache w) (defaults_table w).

(** The replica of a renderer that started after the sample store. *)
Definition sample_replica : Renderer.Replica :=
  Renderer.initSync (getAllAndDefaultsSync (sample_ready defaultOptions))
    (Renderer.constructor false).


(** * Properties *)

(** ** Reading the cache *)

Lemma hasOwnProperty_Some {A} (o : gmap string A) key x :
  o !! key = Some x → hasOwnProperty o key = true.
Proof. unfold hasOwnProperty. by intros ->. Qed.

Lemma hasOwnProperty_None {A} (o : gmap string A) key :
  o !! key = None → hasOwnProperty o key = false.
Proof. unfold hasOwnProperty. by intros ->. Qed.

Lemma prop_Some (o : obj) key v : o !! key = Some v → prop o key = v.
Proof. unfold prop. by intros ->. Qed.

Lemma get_cached (w : World) (key : string) (v : value) :
  _hasInitialized (this w) = true → key ≠ "" → cache w !! key = Some v →
  Main.get key w = (Ret v, w).
Proof.
  intros Hi Hkey Hv. unfold Main.get, bind, get_this. rewrite Hi. cbn [negb].
  rewrite bool_decide_eq_false_2 by done.
  change (deref (cachedSettings (this w)) w) with (Ret (cache w), w).
  cbv beta iota. rewrite (hasOwnProperty_Some _ _ _ Hv). cbn [negb].
  unfold ret. by rewrite (prop_Some _ _ _ Hv).
Qed.

(** C9. [get] on every world and key: before initialization it throws
    the initialization error; on an initialized store, for a key name (a
    non-empty string) the result is the cached value if the key is in the
    cache, else the default of that very key if the schema declares it,
    else [undefined]. The empty string is no key name (the specification
    lists it among the malformed keys) and is rejected with a TypeError.
    The world is left as it was. *)
Theorem get_cases (w : World) (key : string) :
  (_hasInitialized (this w) = false →
     Main.get key w = (Throw Main.INIT_ERROR, w)) ∧
  (_hasInitialized (this w) = true → key = "" →
     Main.get key w = (Throw Main.KEY_ERROR, w)) ∧
  (_hasInitialized (this w) = true → key ≠ "" →
     (∀ v, cache w !! key = Some v → Main.get key w = (Ret v, w)) ∧
     (∀ rule, cache w !! key = None → _schema (this w) !! key = Some rule →
        Main.get key w = (Ret (default VUndefined (rule_default rule)), w)) ∧
     (cache w !! key = None → _schema (this w) !! key = None →
        Main.get key w = (Ret VUndefined, w))).
Proof.
  split; [|split].
  - intros Hi. unfold Main.get, bind, get_this. by rewrite Hi.
  - intros Hi ->. unfold Main.get, bind, get_this. by rewrite Hi.
  - intros Hi Hkey. split; [intros v Hv; by apply get_cached|].
    unfold Main.get, bind, get_this. rewrite Hi. cbn [negb].
    rewrite bool_decide_eq_false_2 by done.
    change (deref (cachedSettings (this w)) w) with (Ret (cache w), w).
    split.
    + intros rule Hc Hs.
      rewrite (hasOwnProperty_None _ _ Hc), (hasOwnProperty_Some _ _ _ Hs). simpl.
      unfold Main.schema_default, bind, get_this. by rewrite Hs.
    + intros Hc Hs.
      by rewrite (hasOwnProperty_None _ _ Hc), (hasOwnProperty_None _ _ Hs).
Qed.

(** ** Setting a key *)

Lemma for_each_emits {A} (f : A → M unit) (l : list A) :
  (∀ x w, ∃ tr, f x w = (Ret tt, with_trace tr w)) →
  ∀ w, ∃ tr, for_each l f w = (Ret tt, with_trace tr w).
Proof.
  intros Hf. induction l as [|x l IH]; intros w; simpl.
  - exists (trace (node w)). by destruct w as [s []].
  - unfold bind. destruct (Hf x w) as [tr ->].
    destruct (IH (with_trace tr w)) as [tr' ->]. by exists tr'.
Qed.

Lemma _sendIPCUpdateSettings_emits (w : World) :
  ∃ tr, Main._sendIPCUpdateSettings w = (Ret tt, with_trace tr w).
Proof.
  unfold Main._sendIPCUpdateSettings, bind, get_this.
  apply for_each_emits. intros [l|] w'.
  - unfold bind, deref, get_node, bind, ret, emit, modify_node. by eexists.
  - exists (trace (node w')). by destruct w' as [s []].
Qed.

Lemma _setCachedSettingsKey_spec (key : string) (value : value) (w : World) :
  ∃ w', Main._setCachedSettingsKey key value w = (Ret tt, w')
        ∧ this w' = this w
        ∧ heap (node w') =
            (if strict_eq (prop (cache w) key) value then heap (node w)
             else alter (insert key value) (cachedSettings (this w)) (heap (node w))).
Proof.
  unfold Main._setCachedSettingsKey, bind, get_this.
  change (deref (cachedSettings (this w)) w) with (Ret (cache w), w).
  cbv beta zeta iota.
  destruct (strict_eq (prop (cache w) key) value); cbn [negb].
  - by exists w.
  - unfold update, modify_node. cbn [fst snd].
    edestruct _sendIPCUpdateSettings_emits as [tr ->]. by eexists.
Qed.

Lemma cache_after_store (w w' : World) (f : obj → obj) (o : obj) :
  this w' = this w →
  heap (node w') = alter f (cachedSettings (this w)) (heap (node w)) →
  heap (node w) !! cachedSettings (this w) = Some o →
  cache w' = f (cache w).
Proof.
  intros Ht Hh Ho. unfold cache.
  by rewrite Ht, Hh, list_lookup_alter_eq, Ho.
Qed.

Lemma cache_lookup_heap (w : World) key v :
  cache w !! key = Some v →
  ∃ o, heap (node w) !! cachedSettings (this w) = Some o.
Proof.
  unfold cache. destruct (heap (node w) !! cachedSettings (this w)); [eauto|].
  simpl. by rewrite lookup_empty.
Qed.

Lemma getDefault_of_schema_key (w : World) key rule :
  _hasInitialized (this w) = true → key ≠ "" →
  _schema (this w) !! key = Some rule →
  Main.getDefault key w = (Ret (declared_default w key), w).
Proof.
  intros Hi Hk Hs. unfold Main.getDefault, bind, get_this.
  rewrite Hi. cbn [negb]. rewrite bool_decide_eq_false_2 by done.
  change (deref (_defaults (this w)) w) with (Ret (defaults_table w), w).
  cbv beta iota. unfold hasOwnProperty, declared_default.
  destruct (defaults_table w !! key); [|done].
  unfold Main.schema_default, bind, get_this. by rewrite Hs.
Qed.

(** Storing under [key] what the defaults object holds for [key] leaves
    the defaults object as it is, also when the cache is that object. *)
Lemma _setCachedSettingsKey_default (key : string) (old : value) (w : World) :
  cache w !! key = Some old →
  ∃ w', Main._setCachedSettingsKey key (prop (defaults_table w) key) w = (Ret tt, w')
        ∧ this w' = this w
        ∧ cache w' = <[key := prop (defaults_table w) key]> (cache w)
        ∧ defaults_table w' = defaults_table w.
Proof.
  intros Hc. set (kept := prop (defaults_table w) key).
  destruct (_setCachedSettingsKey_spec key kept w) as (w' & Hw' & Hthis & Hheap).
  destruct (cache_lookup_heap _ _ _ Hc) as [o Ho].
  exists w'. split; [done|]. split; [done|].
  unfold strict_eq in Hheap. case_bool_decide as Heq.
  - split.
    + unfold cache. rewrite Hthis, Hheap. fold (cache w).
      symmetry. apply insert_id. rewrite <- Heq. unfold prop. by rewrite Hc.
    + unfold defaults_table. by rewrite Hthis, Hheap.
  - split; [by apply (cache_after_store w w' _ o)|].
    unfold defaults_table. rewrite Hthis, Hheap.
    destruct (decide (cachedSettings (this w) = _defaults (this w))) as [Hal|Hne].
    + exfalso. apply Heq. unfold kept, defaults_table, cache. by rewrite Hal.
    + by rewrite list_lookup_alter_ne.
Qed.

(** C3 (as amended). With validation enabled, on an initialized store, let
    [k] be a (non-empty) schema key present in the cache and [v] a defined
    value that the checker rejects. If default-on-failure is enabled,
    [set(k, v)] stores what the defaults object holds for [k]
    ([this._defaults[k]], so that [get(k)] returns it) and returns status
    [true] with the errors string 'Default setting was applied' and the
    default that [getDefault(k)] reports. If it is disabled, [set(k, v)]
    leaves the whole world (hence the cached value of [k]) unchanged and
    returns status [false] with the checker's messages. As long as the
    defaults object holds the schema default of [k], as the constructor
    leaves it, the value stored and the default reported are both that
    schema default. *)
Theorem set_rejected_value (w : World) (k : string) (v old : value)
    (rule : FieldRule) (errs : list CheckError) :
  _hasInitialized (this w) = true →
  validate_opt (options (this w)) = true →
  k ≠ "" → v ≠ VUndefined →
  cache w !! k = Some old →
  _schema (this w) !! k = Some rule →
  _check (this w) {[ k := v ]} = CheckErrors errs →
  let r := Main.set (Main.KeyString k) v w in
  let kept := prop (defaults_table w) k in
  let d := declared_default w k in
  (defaultOnFailValidation (options (this w)) = true →
     r.1 = Ret (Main.SetResult {| status := true; default_value := d;
                                  errors := EStr "Default setting was applied" |})
     ∧ cache r.2 = <[k := kept]> (cache w)
     ∧ Main.get k r.2 = (Ret kept, r.2))
  ∧ (defaultOnFailValidation (options (this w)) = false →
     r = (Ret (Main.SetResult {| status := false; default_value := d;
                                 errors := EList (Main.error_messages errs) |}), w))
  ∧ (defaults_table w !! k = Some (default VUndefined (rule_default rule)) →
     kept = default VUndefined (rule_default rule)
     ∧ d = default VUndefined (rule_default rule)).
Proof.
  intros Hi Hval Hk Hv Hc Hs Hchk r kept d.
  assert (Hvalidate : Main.validate k v w =
            (Ret {| status := false; default_value := d;
                    errors := EList (Main.error_messages errs) |}, w)).
  { unfold Main.validate. rewrite bool_decide_eq_false_2 by done.
    unfold bind at 1. unfold Main._fastValidateSettings_literal, bind at 1, get_this, ret.
    rewrite Hchk. unfold bind.
    by rewrite (getDefault_of_schema_key w k rule). }
  assert (Hr : r = try_catch
                 (let* setResult := Main._set k v in ret (Main.SetResult setResult))
                 (fun error => ret (Main.SetCaught error)) w).
  { subst r. unfold Main.set, bind at 1, get_this. rewrite Hi. cbn [negb].
    by rewrite !bool_decide_eq_false_2 by done. }
  assert (Hset : Main._set k v w =
            if defaultOnFailValidation (options (this w)) then
              (let* defaults := deref (_defaults (this w)) in
               Main._setCachedSettingsKey k (prop defaults k);;
               let* d' := Main.getDefault k in
               ret {| status := true; default_value := d';
                      errors := EStr "Default setting was applied" |}) w
            else (Ret {| status := false; default_value := d;
                         errors := EList (Main.error_messages errs) |}, w)).
  { unfold Main._set. unfold bind at 1, get_this. unfold bind at 1.
    change (deref (cachedSettings (this w)) w) with (Ret (cache w), w).
    cbv beta iota.
    rewrite (hasOwnProperty_Some _ _ _ Hc), Hval. cbn [negb].
    unfold bind at 1. rewrite Hvalidate. cbv beta iota. cbn [status].
    by destruct (defaultOnFailValidation (options (this w))). }
  split; [|split].
  - intros Hpol. rewrite Hpol in Hset.
    unfold bind at 1 in Hset.
    change (deref (_defaults (this w)) w) with (Ret (defaults_table w), w) in Hset.
    cbv beta iota in Hset. fold kept in Hset. unfold bind at 1 in Hset.
    destruct (_setCachedSettingsKey_default k old w Hc)
      as (w' & Hw' & Hthis & Hcache' & Htable').
    fold kept in Hw', Hcache'. rewrite Hw' in Hset.
    unfold bind in Hset.
    rewrite (getDefault_of_schema_key w' k rule) in Hset by (rewrite ?Hthis; done).
    replace (declared_default w' k) with d in Hset
      by (unfold d, declared_default; by rewrite Htable', Hthis).
    rewrite Hr. unfold try_catch, bind. rewrite Hset. cbn [fst snd ret].
    split; [done|]. split; [done|].
    apply get_cached; [by rewrite Hthis | done |].
    rewrite Hcache'. apply lookup_insert_eq.
  - intros Hpol. rewrite Hpol in Hset.
    rewrite Hr. unfold try_catch, bind. by rewrite Hset.
  - intros Ht. unfold kept, d, declared_default, prop. by rewrite Ht, Hs.
Qed.

(** ** The sample store at work *)

(** Closed statements about the sample store are settled by running the
    model, one conjunct at a time. *)
Ltac evaluate :=
  repeat (intros; match goal with
                  | |- _ ∧ _ => split
                  | |- ∃ _, _ => eexists
                  end);
  first [ vm_compute; reflexivity
        | vm_compute; let H := fresh in intros H; discriminate H ].

(** Witness for C9: the sample store before and after [initSync], and
    after [unset('size')]. *)
Lemma get_cases_witness :
  let w0 := sample_new defaultOptions in
  let w := sample_ready defaultOptions in
  let w' := run_now [Call (CUnset "size")] w in
  Main.get "size" w0 = (Throw Main.INIT_ERROR, w0)
  ∧ Main.get "" w = (Throw Main.KEY_ERROR, w)
  ∧ Main.get "size" w = (Ret (VNum 25), w)
  ∧ Main.get "size" w' = (Ret (VNum 25), w')
  ∧ Main.get "unknownKey" w = (Ret VUndefined, w).
Proof.
  intros w0 w w'.
  split; [|split; [|split; [|split]]].
  - apply (get_cases w0 "size"). vm_compute; reflexivity.
  - apply (get_cases w ""); [vm_compute|]; reflexivity.
  - apply (get_cases w "size");
      [vm_compute; reflexivity | discriminate | vm_compute; reflexivity].
  - pose proof (get_cases w' "size") as (_ & _ & H).
    destruct H as (_ & H & _); [vm_compute; reflexivity | discriminate |].
    apply (H {| rule_type := "number"; rule_default := Some (VNum 25) |});
      vm_compute; reflexivity.
  - apply (get_cases w "unknownKey");
      [vm_compute; reflexivity | discriminate | vm_compute; reflexivity
      | vm_compute; reflexivity].
Defined.

(** The malformed key: on the initialized sample store the empty string
    is in neither the cache nor the schema, and [get('')] throws. *)
Lemma get_empty_key_throws :
  let w := sample_ready defaultOptions in
  _hasInitialized (this w) = true
  ∧ cache w !! "" = None
  ∧ _schema (this w) !! "" = None
  ∧ (Main.get "" w).1 = Throw Main.KEY_ERROR
  ∧ (Main.get "" w).1 ≠ Ret VUndefined.
Proof. evaluate. Qed.

(** Witness for C3: 55 is above the maximum of [size]. The sample store
    holds a size of 30 when the call arrives, with default-on-failure on
    and off; in the third world the cache had been reset before 35 was
    set. *)
Lemma set_rejected_value_witness :
  let w := run_now [Call (CSet size_key (VNum 30))] (sample_ready defaultOptions) in
  let w' := run_now [Call (CSet size_key (VNum 30))] (sample_ready opts_no_default) in
  let w'' := run_now [Call (CSet size_key (VNum 30)); Call CReset;
                      Call (CSet size_key (VNum 35))] (sample_ready defaultOptions) in
  let r := Main.set size_key (VNum 55) w in
  let r' := Main.set size_key (VNum 55) w' in
  let r'' := Main.set size_key (VNum 55) w'' in
  (cache w !! "size" = Some (VNum 30)
   ∧ r.1 = Ret (Main.SetResult {| status := true; default_value := VNum 25;
                                  errors := EStr "Default setting was applied" |})
   ∧ cache r.2 = <["size" := VNum 25]> (cache w)
   ∧ Main.get "size" r.2 = (Ret (VNum 25), r.2))
  ∧ (cache w' !! "size" = Some (VNum 30)
     ∧ r' = (Ret (Main.SetResult
                 {| status := false; default_value := VNum 25;
                    errors := EList ["The 'size' field must be less than or equal to 40."] |}),
             w'))
  ∧ (cache w'' !! "size" = Some (VNum 35)
     ∧ r''.1 = Ret (Main.SetResult {| status := true; default_value := VNum 25;
                                      errors := EStr "Default setting was applied" |})
     ∧ cache r''.2 = <["size" := VNum 35]> (cache w'')
     ∧ Main.get "size" r''.2 = (Ret (VNum 35), r''.2)).
Proof.
  intros w w' w'' r r' r''.
  pose (rule := {| rule_type := "number"; rule_default := Some (VNum 25) |}).
  pose (errs := [{| field := "size";
                    message := Some "The 'size' field must be less than or equal to 40." |}]).
  split; [|split].
  - split; [vm_compute; reflexivity|].
    apply (set_rejected_value w "size" (VNum 55) (VNum 30) rule errs);
      first [ discriminate | vm_compute; reflexivity ].
  - split; [vm_compute; reflexivity|].
    apply (set_rejected_value w' "size" (VNum 55) (VNum 30) rule errs);
      first [ discriminate | vm_compute; reflexivity ].
  - split; [vm_compute; reflexivity|].
    apply (set_rejected_value w'' "size" (VNum 55) (VNum 35) rule errs);
      first [ discriminate | vm_compute; reflexivity ].
Defined.

(** C3, counterexample. With validation and default-on-failure enabled,
    [set('size', 55)] on the sample store fails validation, applies the
    default, and reports status [true], not [false]. *)
Lemma set_rejected_value_status_true :
  let w := sample_ready defaultOptions in
  validate_opt (options (this w)) = true
  ∧ defaultOnFailValidation (options (this w)) = true
  ∧ cache w !! "size" = Some (VNum 25)
  ∧ _check (this w) {[ "size" := VNum 55 ]} ≠ CheckTrue
  ∧ ∃ r, (Main.set size_key (VNum 55) w).1 = Ret (Main.SetResult r)
         ∧ status r = true.
Proof. evaluate. Qed.

(** C4, at the failing input. [30] is a valid [size]. After [unset('size')]
    on the initialized sample store, [set('size', 30)] reports status
    [true] with no errors, yet it stored the default: [get('size')] returns
    25, not 30. With the key still cached the same call stores 30. *)
Theorem set_absent_key_stores_default :
  let w := run_now [Call CInitSync; Call (CUnset "size")] (sample_new defaultOptions) in
  let r := Main.set size_key (VNum 30) w in
  _hasInitialized (this w) = true
  ∧ _check (this w) {[ "size" := VNum 30 ]} = CheckTrue
  ∧ cache w !! "size" = None
  ∧ r.1 = Ret (Main.SetResult {| status := true; default_value := VNum 25;
                                 errors := ENone |})
  ∧ (Main.get "size" r.2).1 = Ret (VNum 25)
  ∧ let w1 := sample_ready defaultOptions in
    (Main.get "size" (exec (Main.set size_key (VNum 30)) w1)).1 = Ret (VNum 30).
Proof. evaluate. Qed.

(** C5, at the failing input. One renderer is registered. [unset('size')]
    changes the content of the cache and sends nothing; [set('size', 30)]
    changes it and sends one message; setting the value already there
    sends none. The watcher's repair is silent too: with 30 in the cache
    and an invalid 55 written to the file by another program, the
    reconciliation puts the default 25 in the cache and sends nothing. *)
Theorem changes_without_notification :
  let w := sample_ready defaultOptions in
  let w' := exec (Main.unset "size") w in
  _windowListeners (this w) = [None; Some 7%nat]
  ∧ (Main.unset "size" w).1 = Ret true
  ∧ cache w = {[ "size" := VNum 25 ]}
  ∧ cache w' = ∅
  ∧ notifications w' = notifications w
  ∧ notifications (exec (Main.set size_key (VNum 30)) w) = S (notifications w)
  ∧ notifications (exec (Main.set size_key (VNum 25)) w) = notifications w
  ∧ let v := run_now [Call (CSet size_key (VNum 30));
                      FileEdited (Some (Json true {[ "size" := VNum 55 ]}))]
               sample_watching in
    let v' := advance_to (T0 + ms 1000) (run [(T0, change "config.json")] v) in
    cache v = {[ "size" := VNum 30 ]}
    ∧ file_reads v' = S (file_reads v)
    ∧ cache v' = {[ "size" := VNum 25 ]}
    ∧ notifications v' = notifications v.
Proof. evaluate. Qed.

(** C7, at the failing input. After [set('size', 30)] and [reset()] the
    cache field names the defaults object itself, and the next
    [set('size', 35)] writes into it: [getDefaults] returns 35 for [size],
    while the schema still says 25. *)
Theorem defaults_overwritten_after_reset :
  let w0 := sample_ready defaultOptions in
  let w := run_now [Call (CSet size_key (VNum 30)); Call CReset;
                    Call (CSet size_key (VNum 35))] w0 in
  (Main.getDefaults w0).1 = Ret (Main._retreiveDefaults sample_schema)
  ∧ Main._retreiveDefaults sample_schema = {[ "size" := VNum 25 ]}
  ∧ cachedSettings (this w) = _defaults (this w)
  ∧ (Main.getDefaults w).1 = Ret {[ "size" := VNum 35 ]}
  ∧ defaults_table w !! "size" = Some (VNum 35)
  ∧ (Main.getDefaults (exec Main.reset w)).1 = Ret {[ "size" := VNum 35 ]}.
Proof. evaluate. Qed.

(** C8, at the failing input. The disk rejects the write: [writeSync()]
    returns the error string and the writing flag stays [true]. Once the
    disk is healthy again, a later [writeSync()] returns [true] but writes
    nothing: the file keeps its old text although the cache has changed.
    The asynchronous [write()] leaves the flag set in the same way. *)
Theorem writing_flag_stuck_after_failure :
  let w0 := run_now [FsHealth false] (sample_ready defaultOptions) in
  let r := Main.writeSync w0 in
  let w1 := run_now [FsHealth true; Call (CSet size_key (VNum 30))] r.2 in
  let r1 := Main.writeSync w1 in
  _isWritingFlag (this w0) = false
  ∧ r.1 = Ret (inr "Error: Error: EIO: i/o error, write")
  ∧ _isWritingFlag (this r.2) = true
  ∧ in_flight r.2 = 0%nat
  ∧ r1.1 = Ret (inl true)
  ∧ physical_writes r1.2 = physical_writes w1
  ∧ fs_file (node r1.2) = Some sample_file
  ∧ cache r1.2 = {[ "size" := VNum 30 ]}
  ∧ let w2 := run_now [Call CWrite; WriteSettled false] (sample_ready defaultOptions) in
    _isWritingFlag (this w2) = true ∧ in_flight w2 = 0%nat
    ∧ head (trace (node w2)) = Some (WriteResolved (inr "Error: EIO: i/o error, write")).
Proof. evaluate. Qed.

(** C10, at the failing input. On the sample store before any [init],
    [get], [set], [has] and [getAll] throw the initialization error, but
    [unset], [reset], [writeSync] and [write] run: [unset] returns [false],
    [reset] puts the defaults in the cache, [writeSync] replaces the
    settings file by the empty document, [write] starts writing it. *)
Theorem operations_before_init :
  let w := sample_new defaultOptions in
  _hasInitialized (this w) = false
  ∧ (Main.get "size" w).1 = Throw Main.INIT_ERROR
  ∧ (Main.set size_key (VNum 30) w).1 = Throw Main.INIT_ERROR
  ∧ (Main.has "size" w).1 = Throw Main.INIT_ERROR
  ∧ (Main.getAll w).1 = Throw Main.INIT_ERROR
  ∧ (Main.unset "size" w).1 = Ret false
  ∧ (Main.reset w).1 = Ret tt
  ∧ cache w = ∅
  ∧ cache (exec Main.reset w) = {[ "size" := VNum 25 ]}
  ∧ fs_file (node w) = Some sample_file
  ∧ (Main.writeSync w).1 = Ret (inl true)
  ∧ fs_file (node (exec Main.writeSync w)) = Some (Json true ∅)
  ∧ (Main.write w).1 = Ret tt
  ∧ pending (node (exec Main.write w))
    = [{| pw_data := cachedSettings (this w); pw_text := Json true ∅;
          pw_awaited := true |}].
Proof. evaluate. Qed.

(** C2, at the failing input. A [write()] is in flight with the cache at
    [size = 25]; [setAll({size: 30})] replaces the cache object and a second
    [write()] sets the write-again flag. When the first write settles, the
    re-issued write serializes the object the first call was given, not the
    cache: [size = 25] is written again and stays on disk, while the cache
    holds 30. A change made in place by [set] is picked up. *)
Theorem reissued_write_is_stale :
  let w0 := sample_ready defaultOptions in
  let w1 := run_now [Call CWrite; Call (CSetAll {[ "size" := VNum 30 ]}); Call CWrite] w0 in
  let w2 := run_now [WriteSettled true] w1 in
  let w3 := run_now [WriteSettled true] w2 in
  in_flight w1 = 1%nat
  ∧ _writeAgainFlag (this w1) = true
  ∧ cache w1 = {[ "size" := VNum 30 ]}
  ∧ _writeAgainFlag (this w2) = false
  ∧ cache w2 = {[ "size" := VNum 30 ]}
  ∧ pw_text <$> pending (node w2) = [Json true {[ "size" := VNum 25 ]}]
  ∧ JSON_stringify (cache w2) true = Json true {[ "size" := VNum 30 ]}
  ∧ in_flight w3 = 0%nat
  ∧ fs_file (node w3) = Some (Json true {[ "size" := VNum 25 ]})
  ∧ cache w3 = {[ "size" := VNum 30 ]}
  ∧ let v1 := run_now [Call CWrite; Call (CSet size_key (VNum 30)); Call CWrite;
                       WriteSettled true] w0 in
    pw_text <$> pending (node v1) = [Json true {[ "size" := VNum 30 ]}].
Proof. evaluate. Qed.

(** ** Frame reasoning for method bodies

    [preserves R m]: whatever world [m] starts in, the world it ends in
    (returning or throwing) is related to it by [R]. For a preorder [R]
    this goes through the monad's combinators. *)

Section Preserves.
Context (R : relation World) `{!PreOrder R}.

Lemma preserves_ret {A} (a : A) : preserves R (ret a).
Proof. intros w. reflexivity. Qed.

Lemma preserves_throw {A} (e : exn) : preserves R (throw (A := A) e).
Proof. intros w. reflexivity. Qed.

Lemma preserves_get_this : preserves R get_this.
Proof. intros w. reflexivity. Qed.

Lemma preserves_get_node : preserves R get_node.
Proof. intros w. reflexivity. Qed.

Lemma preserves_deref (l : loc) : preserves R (deref l).
Proof. intros w. reflexivity. Qed.

Lemma preserves_bind {A B} (m : M A) (k : A → M B) :
  preserves R m → (∀ a, preserves R (k a)) → preserves R (bind m k).
Proof.
  intros Hm Hk w. unfold bind. specialize (Hm w).
  destruct (m w) as [[a|e] w']; [|done].
  etrans; [exact Hm | apply Hk].
Qed.

Lemma preserves_try_catch {A} (m : M A) (h : exn → M A) :
  preserves R m → (∀ e, preserves R (h e)) → preserves R (try_catch m h).
Proof.
  intros Hm Hh w. unfold try_catch. specialize (Hm w).
  destruct (m w) as [[a|e] w']; [done|].
  destruct e; try done; (etrans; [exact Hm | apply Hh]).
Qed.

Lemma preserves_for_each {A} (l : list A) (f : A → M unit) :
  (∀ x, preserves R (f x)) → preserves R (for_each l f).
Proof.
  intros Hf. induction l as [|x l IH]; simpl.
  - apply preserves_ret.
  - apply preserves_bind; [apply Hf | intros _; exact IH].
Qed.

Lemma preserves_foldl_bind {A B} (f : A → B → M A) (l : list B) (m : M A) :
  preserves R m → (∀ a b, preserves R (f a b)) →
  preserves R (foldl (fun acc b => let* a := acc in f a b) m l).
Proof.
  intros Hm Hf. revert m Hm. induction l as [|b l IH]; intros m Hm; simpl.
  - exact Hm.
  - apply IH. apply preserves_bind; [exact Hm | intros a; apply Hf].
Qed.
End Preserves.

Lemma preserves_weaken {A} (R R' : relation World) (m : M A) :
  (∀ w w', R w w' → R' w w') → preserves R m → preserves R' m.
Proof. intros HR Hm w. apply HR, Hm. Qed.

#[global] Instance unchanged_preorder {T} (obs : World → T) : PreOrder (unchanged obs).
Proof.
  split.
  - by intros w.
  - intros w1 w2 w3 H12 H23. unfold unchanged in *. congruence.
Qed.

(** One step of a frame proof. *)
Ltac preserves_step :=
  lazymatch goal with
  | |- preserves _ (bind _ _) => apply preserves_bind; [try apply _ | | intros ?]
  | |- preserves _ (ret _) => apply preserves_ret; apply _
  | |- preserves _ (throw _) => apply preserves_throw; apply _
  | |- preserves _ get_this => apply preserves_get_this; apply _
  | |- preserves _ get_node => apply preserves_get_node; apply _
  | |- preserves _ (deref _) => apply preserves_deref; apply _
  | |- preserves _ (try_catch _ _) => apply preserves_try_catch; [try apply _ | | intros ?]
  | |- preserves _ (for_each _ _) => apply preserves_for_each; [try apply _ | intros ?]
  | |- preserves _ (if ?b then _ else _) => destruct b
  | |- preserves _ (match ?x with _ => _ end) => destruct x
  | |- preserves _ (let _ := _ in _) => cbv zeta
  end.

(** Leaves that change fields outside the observation. *)
Ltac preserves_leaf :=
  let w := fresh "w" in
  intros w; destruct w as [? []];
  unfold unchanged, obs_write, obs_clock, physical_writes, file_reads; by cbn.

Ltac preserves_tac :=
  repeat first [ solve [eauto with pres] | preserves_step ];
  try solve [preserves_leaf].

Create HintDb pres discriminated.

(** *** Methods that leave the write protocol and the watcher alone *)

Lemma emit_IpcSend_quiet l o : preserves quiet (emit (IpcSend l o)).
Proof. preserves_leaf. Qed.

Lemma alloc_quiet o : preserves quiet (alloc o).
Proof. unfold alloc. preserves_tac. Qed.

Lemma update_quiet l f : preserves quiet (update l f).
Proof. preserves_leaf. Qed.

Lemma set_cachedSettings_quiet l : preserves quiet (modify_this (set_cachedSettings l)).
Proof. preserves_leaf. Qed.

#[global] Hint Resolve emit_IpcSend_quiet alloc_quiet update_quiet
  set_cachedSettings_quiet : pres.

Lemma schema_default_quiet key : preserves quiet (Main.schema_default key).
Proof. unfold Main.schema_default. preserves_tac. Qed.
#[global] Hint Resolve schema_default_quiet : pres.

Lemma getDefault_quiet key : preserves quiet (Main.getDefault key).
Proof. unfold Main.getDefault. preserves_tac. Qed.
#[global] Hint Resolve getDefault_quiet : pres.

Lemma get_quiet key : preserves quiet (Main.get key).
Proof. unfold Main.get. preserves_tac. Qed.

Lemma _fastValidateSettings_quiet l : preserves quiet (Main._fastValidateSettings l).
Proof. unfold Main._fastValidateSettings. preserves_tac. Qed.

Lemma _fastValidateSettings_literal_quiet o :
  preserves quiet (Main._fastValidateSettings_literal o).
Proof. unfold Main._fastValidateSettings_literal. preserves_tac. Qed.
#[global] Hint Resolve _fastValidateSettings_quiet _fastValidateSettings_literal_quiet : pres.

Lemma validate_quiet key v : preserves quiet (Main.validate key v).
Proof. unfold Main.validate. preserves_tac. Qed.
#[global] Hint Resolve validate_quiet : pres.

Lemma _sendIPCUpdateSettings_quiet : preserves quiet Main._sendIPCUpdateSettings.
Proof. unfold Main._sendIPCUpdateSettings. preserves_tac. Qed.
#[global] Hint Resolve _sendIPCUpdateSettings_quiet : pres.

Lemma _setCachedSettings_quiet l : preserves quiet (Main._setCachedSettings l).
Proof. unfold Main._setCachedSettings. preserves_tac. Qed.
#[global] Hint Resolve _setCachedSettings_quiet : pres.

Lemma _setCachedSettingsKey_quiet key v : preserves quiet (Main._setCachedSettingsKey key v).
Proof. unfold Main._setCachedSettingsKey. preserves_tac. Qed.
#[global] Hint Resolve _setCachedSettingsKey_quiet : pres.

Lemma _set_quiet key v : preserves quiet (Main._set key v).
Proof. unfold Main._set. preserves_tac. Qed.
#[global] Hint Resolve _set_quiet : pres.

Lemma set_entries_quiet entries : preserves quiet (Main.set_entries entries).
Proof.
  unfold Main.set_entries.
  apply (preserves_foldl_bind quiet
           (fun g kv => let* setResultArray := Main._set kv.1 kv.2 in
                        if negb (status setResultArray)
                        then ret (false, g.2 ++ [errors setResultArray])
                        else ret g)).
  - preserves_tac.
  - intros g kv. preserves_tac.
Qed.
#[global] Hint Resolve set_entries_quiet : pres.

Lemma set_quiet key v : preserves quiet (Main.set key v).
Proof. unfold Main.set. preserves_tac. Qed.

Lemma getAll_quiet : preserves quiet Main.getAll.
Proof. unfold Main.getAll. preserves_tac. Qed.

Lemma getDefaults_quiet : preserves quiet Main.getDefaults.
Proof. unfold Main.getDefaults. preserves_tac. Qed.

Lemma throw_first_message_quiet what errs :
  preserves quiet (Main.throw_first_message what errs).
Proof. unfold Main.throw_first_message. preserves_tac. Qed.
#[global] Hint Resolve throw_first_message_quiet : pres.

Lemma setAll_quiet data : preserves quiet (Main.setAll data).
Proof. unfold Main.setAll. preserves_tac. Qed.

Lemma unset_quiet key : preserves quiet (Main.unset key).
Proof. unfold Main.unset. preserves_tac. Qed.

Lemma has_quiet key : preserves quiet (Main.has key).
Proof. unfold Main.has. preserves_tac. Qed.

Lemma reset_quiet : preserves quiet Main.reset.
Proof. unfold Main.reset. preserves_tac. Qed.
#[global] Hint Resolve reset_quiet : pres.

Lemma apply_defaults_to_errors_quiet errs :
  preserves quiet (Main.apply_defaults_to_errors errs).
Proof. unfold Main.apply_defaults_to_errors. preserves_tac. Qed.
#[global] Hint Resolve apply_defaults_to_errors_quiet : pres.

Lemma addListener_quiet l : preserves quiet (Main.addListener l).
Proof. unfold Main.addListener. preserves_tac. Qed.

(** *** The synchronous write *)

#[global] Instance guarded_preorder : PreOrder guarded.
Proof.
  split.
  - by intros w.
  - intros w1 w2 w3 [Hp12 H12] [Hp23 H23]. split; [congruence|].
    intros H1. destruct (H12 H1) as [H2 Hw2]. destruct (H23 H2) as [H3 Hw3].
    split; congruence.
Qed.

Lemma quiet_io w w' : quiet w w' → io w w'.
Proof.
  unfold quiet, io, unchanged, obs_write, obs_clock. intros H.
  injection H as H1 H2 H3 H4 H5 H6. congruence.
Qed.

Lemma quiet_guarded w w' : quiet w w' → guarded w w'.
Proof.
  unfold quiet, guarded, unchanged, obs_write, obs_clock. intros H.
  injection H as H1 H2 H3 H4 H5 H6.
  split; [done|]. intros. split; congruence.
Qed.

Lemma io_pending w w' : io w w' → pending (node w') = pending (node w).
Proof. unfold io, unchanged, obs_clock. intros H. by injection H as H1 H2 H3. Qed.

Arguments JSON_stringify : simpl never.

Lemma _writeJSONFileSync_rec_busy (n : nat) (data : loc) (w : World) :
  _isWritingFlag (this w) = true →
  Main._writeJSONFileSync_rec (S n) data w
  = (Ret tt, set_this (set_writeAgainFlag true (this w)) w).
Proof.
  intros H. cbn [Main._writeJSONFileSync_rec].
  unfold Main._writeJSONFileSync_body, try_catch, bind, get_this. by rewrite H.
Qed.

#[global] Hint Extern 5 (preserves io _) =>
  apply (preserves_weaken quiet io); [exact quiet_io|] : pres.
#[global] Hint Extern 5 (preserves guarded _) =>
  apply (preserves_weaken quiet guarded); [exact quiet_guarded|] : pres.

Ltac io_leaf :=
  let w := fresh "w" in
  intros w; destruct w as [? []];
  unfold io, unchanged, obs_clock, file_reads; by cbn.

Ltac guarded_leaf :=
  let w := fresh "w" in
  intros w; destruct w as [[] []];
  unfold guarded, physical_writes; cbn; by auto.

Lemma watcher_close_quiet h : preserves quiet (Main.watcher_close h).
Proof. preserves_leaf. Qed.

Lemma _watchFile_quiet : preserves quiet Main._watchFile.
Proof. unfold Main._watchFile. preserves_tac. Qed.

Lemma set_watcher_quiet h : preserves quiet (modify_this (set_watcher h)).
Proof. preserves_leaf. Qed.

Lemma set_lastWriteHrtime_quiet t : preserves quiet (modify_this (set_lastWriteHrtime t)).
Proof. preserves_leaf. Qed.

Lemma set_hasInitialized_quiet b : preserves quiet (modify_this (set_hasInitialized b)).
Proof. preserves_leaf. Qed.

Lemma fs_mkdirSync_quiet : preserves quiet Main.fs_mkdirSync.
Proof. unfold Main.fs_mkdirSync. preserves_tac. Qed.

#[global] Hint Resolve watcher_close_quiet _watchFile_quiet set_watcher_quiet
  set_lastWriteHrtime_quiet set_hasInitialized_quiet fs_mkdirSync_quiet : pres.

Lemma disableFileWatcher_quiet : preserves quiet Main.disableFileWatcher.
Proof. unfold Main.disableFileWatcher. preserves_tac. Qed.

Lemma set_isWritingFlag_io b : preserves io (modify_this (set_isWritingFlag b)).
Proof. io_leaf. Qed.

Lemma set_writeAgainFlag_io b : preserves io (modify_this (set_writeAgainFlag b)).
Proof. io_leaf. Qed.

Lemma fs_writeFileSync_io t : preserves io (Main.fs_writeFileSync t).
Proof. unfold Main.fs_writeFileSync. preserves_tac; io_leaf. Qed.

#[global] Hint Resolve set_isWritingFlag_io set_writeAgainFlag_io
  fs_writeFileSync_io : pres.

Lemma _writeJSONFileSync_rec_io (n : nat) (data : loc) :
  preserves io (Main._writeJSONFileSync_rec n data).
Proof.
  induction n as [|n IH]; cbn [Main._writeJSONFileSync_rec];
    unfold Main._writeJSONFileSync_body; preserves_tac.
Qed.

Lemma _writeJSONFileSync_rec_guarded (n : nat) (data : loc) :
  preserves guarded (Main._writeJSONFileSync_rec n data).
Proof.
  intros w. destruct n as [|n]; [by split|].
  destruct (_isWritingFlag (this w)) eqn:Hbusy.
  - rewrite _writeJSONFileSync_rec_busy by done. by split.
  - split; [|by rewrite Hbusy].
    apply io_pending, _writeJSONFileSync_rec_io.
Qed.

Lemma _writeJSONFileSync_guarded (data : loc) :
  preserves guarded (Main._writeJSONFileSync data).
Proof. apply _writeJSONFileSync_rec_guarded. Qed.
#[global] Hint Resolve _writeJSONFileSync_guarded : pres.

Lemma fs_readFileSync_guarded : preserves guarded Main.fs_readFileSync.
Proof. unfold Main.fs_readFileSync. preserves_tac; guarded_leaf. Qed.
#[global] Hint Resolve fs_readFileSync_guarded : pres.

Lemma writeSync_guarded : preserves guarded Main.writeSync.
Proof. unfold Main.writeSync. preserves_tac. Qed.
#[global] Hint Resolve writeSync_guarded : pres.

Lemma resetAndWriteSync_guarded : preserves guarded Main.resetAndWriteSync.
Proof. unfold Main.resetAndWriteSync. preserves_tac. Qed.

Lemma _validateSettingsSync_guarded l : preserves guarded (Main._validateSettingsSync l).
Proof. unfold Main._validateSettingsSync. preserves_tac. Qed.
#[global] Hint Resolve _validateSettingsSync_guarded : pres.

Lemma _fileChanged_guarded : preserves guarded Main._fileChanged.
Proof. unfold Main._fileChanged. preserves_tac. Qed.
#[global] Hint Resolve _fileChanged_guarded : pres.

Lemma timer_callback_guarded c : preserves guarded (Main.timer_callback c).
Proof. unfold Main.timer_callback. preserves_tac; guarded_leaf. Qed.

Lemma initSync_guarded : preserves guarded Main.initSync.
Proof. unfold Main.initSync. preserves_tac. Qed.

Lemma watch_listener_guarded c eventType filename :
  preserves guarded (Main.watch_listener c eventType filename).
Proof. unfold Main.watch_listener. preserves_tac; guarded_leaf. Qed.
#[global] Hint Resolve watch_listener_guarded : pres.

Lemma file_event_guarded eventType filename :
  preserves guarded (file_event eventType filename).
Proof. unfold file_event. preserves_tac. Qed.

Lemma bind_ext {A B} (m : M A) (k1 k2 : A → M B) (w : World) :
  (∀ a w', m w = (Ret a, w') → k1 a w' = k2 a w') →
  bind m k1 w = bind m k2 w.
Proof. intros H. unfold bind. destruct (m w) as [[a|e] w']; auto. Qed.

Lemma try_catch_ext {A} (m1 m2 : M A) (h : exn → M A) (w : World) :
  m1 w = m2 w → try_catch m1 h w = try_catch m2 h w.
Proof. intros H. unfold try_catch. by rewrite H. Qed.

(** Running a straight-line body on a world given field by field. *)
Ltac run_body := lazy -[JSON_stringify].

Lemma _writeJSONFileSync_body_idle (k1 k2 : loc → M unit) (data : loc) (w : World) :
  idle w →
  Main._writeJSONFileSync_body k1 data w = Main._writeJSONFileSync_body k2 data w
  ∧ (Main._writeJSONFileSync_body k1 data w).1 ≠ Throw OutOfFuel.
Proof.
  intros [Hw Ha]. destruct w as [[o ? ? ? wt ? ? ? ? ? ?] nd].
  destruct o as [? ? ? ? ? wf ?], nd as [? ? ? healthy ? ? ? ? ? ?].
  cbn in Hw, Ha. subst. unfold Main._writeJSONFileSync_body.
  destruct wt, wf, healthy; (split; run_body; [reflexivity | discriminate]).
Qed.

Lemma _writeJSONFileSync_body_ext (k1 k2 : loc → M unit) (data : loc) (w : World) :
  (∀ w', idle w' → k1 data w' = k2 data w') →
  Main._writeJSONFileSync_body k1 data w = Main._writeJSONFileSync_body k2 data w.
Proof.
  intros Hk. unfold Main._writeJSONFileSync_body. apply try_catch_ext.
  apply bind_ext. intros s w0 _.
  destruct (_isWritingFlag s); [done|].
  do 2 (apply bind_ext; intros ? ? _).
  apply bind_ext. intros o ? _. cbv zeta.
  apply bind_ext. intros _ w1 _.
  unfold bind, modify_this, get_node, get_this, ret, Main._watchFile, modify_node.
  cbn.
  destruct (watchFile (options (this w1)) && bool_decide (_watcher (this w1) = None));
    cbn; destruct (_writeAgainFlag (this w1)); try done; apply Hk; by split.
Qed.

Lemma _writeJSONFileSync_fuel (n : nat) (data : loc) (w : World) :
  Main._writeJSONFileSync_rec (S (S n)) data w = Main._writeJSONFileSync data w.
Proof.
  unfold Main._writeJSONFileSync. cbn [Main._writeJSONFileSync_rec].
  apply _writeJSONFileSync_body_ext. intros w' Hidle.
  by apply _writeJSONFileSync_body_idle.
Qed.

Lemma bind_safe {A B} (m : M A) (k : A → M B) (w : World) :
  safe_at m w → (∀ a w', m w = (Ret a, w') → safe_at (k a) w') →
  safe_at (bind m k) w.
Proof.
  unfold safe_at, bind. intros Hm Hk.
  destruct (m w) as [[a|e] w']; [by apply Hk|].
  cbn in *. intros [= ->]. by apply Hm.
Qed.

Lemma try_catch_safe {A} (m : M A) (h : exn → M A) (w : World) :
  safe_at m w → (∀ e w', safe_at (h e) w') → safe_at (try_catch m h) w.
Proof.
  unfold safe_at, try_catch. intros Hm Hh.
  destruct (m w) as [[a|[]] w']; cbn in *; first [done | apply Hh].
Qed.

Lemma fs_writeFileSync_safe (t : text) (w : World) :
  safe_at (Main.fs_writeFileSync t) w.
Proof.
  unfold safe_at, Main.fs_writeFileSync, bind, get_node, modify_node, emit, throw.
  cbn. by destruct (fs_healthy (node w)).
Qed.

Lemma _writeJSONFileSync_body_safe (k : loc → M unit) (data : loc) (w : World) :
  (∀ w', idle w' → safe_at (k data) w') →
  safe_at (Main._writeJSONFileSync_body k data) w.
Proof.
  intros Hk. unfold Main._writeJSONFileSync_body.
  apply try_catch_safe; [|done].
  apply bind_safe; [done|]. intros s w0 _.
  destruct (_isWritingFlag s); [done|].
  apply bind_safe; [by destruct (_watcher s)|]. intros ? ? _.
  apply bind_safe; [done|]. intros ? ? _.
  apply bind_safe; [done|]. intros o ? _. cbv zeta.
  apply bind_safe; [apply fs_writeFileSync_safe|]. intros _ w1 _.
  unfold safe_at, bind, modify_this, get_node, get_this, ret, Main._watchFile,
    modify_node.
  cbn.
  destruct (watchFile (options (this w1)) && bool_decide (_watcher (this w1) = None));
    cbn; destruct (_writeAgainFlag (this w1)); try done; apply Hk; by split.
Qed.

(** [_writeJSONFileSync] never runs out of fuel, and more fuel changes
    nothing. *)
Lemma _writeJSONFileSync_total (data : loc) (w : World) :
  safe_at (Main._writeJSONFileSync data) w
  ∧ ∀ n, Main._writeJSONFileSync_rec (S (S n)) data w = Main._writeJSONFileSync data w.
Proof.
  split; [|intros n; apply _writeJSONFileSync_fuel].
  unfold Main._writeJSONFileSync. cbn [Main._writeJSONFileSync_rec].
  apply _writeJSONFileSync_body_safe. intros w' Hidle.
  by apply (_writeJSONFileSync_body_idle _ (fun _ => ret tt)).
Qed.

(** *** The asynchronous write *)

Lemma coalesced_in_flight (w : World) : coalesced w → (in_flight w ≤ 1)%nat.
Proof.
  unfold coalesced, in_flight.
  destruct (pending (node w)) as [|? [|? ?]]; cbn; [lia | lia | done].
Qed.

Lemma guarded_coalesced (w w' : World) : guarded w w' → coalesced w → coalesced w'.
Proof.
  unfold guarded, coalesced. intros [-> Hbusy].
  destruct (pending (node w)) as [|? [|? ?]]; [done | | done].
  intros H. by apply Hbusy.
Qed.

Lemma _writeJSONFile_busy (data : loc) (awaited : bool) (w : World) :
  _isWritingFlag (this w) = true →
  Main._writeJSONFile data awaited w
  = (Ret true, set_this (set_writeAgainFlag true (this w)) w).
Proof.
  intros H. unfold Main._writeJSONFile, bind, get_this. by rewrite H.
Qed.

Ltac run_split :=
  run_body; repeat match goal with |- _ ∧ _ => split end; reflexivity.

Lemma _writeJSONFile_idle (data : loc) (awaited : bool) (w : World) :
  _isWritingFlag (this w) = false →
  let r := Main._writeJSONFile data awaited w in
  r.1 = Ret false
  ∧ pending (node r.2) = pending (node w) ++ [started data awaited w]
  ∧ _isWritingFlag (this r.2) = true
  ∧ _writeAgainFlag (this r.2) = _writeAgainFlag (this w)
  ∧ physical_writes r.2 = S (physical_writes w).
Proof.
  intros Hw. destruct w as [[o ? ? ? wt ? ? ? ? ? ?] nd]. destruct o, nd.
  cbn in Hw. subst.
  destruct wt; run_split.
Qed.

Lemma settle_write_failed (w : World) (p : PendingWrite) (rest : list PendingWrite) :
  pending (node w) = p :: rest →
  let w' := exec (settle_write false) w in
  pending (node w') = rest ∧ this w' = this w
  ∧ physical_writes w' = physical_writes w.
Proof.
  intros Hp. destruct w as [s nd]. destruct nd. cbn in Hp. subst.
  destruct p as [? ? aw]. destruct aw; run_split.
Qed.

Lemma settle_write_again (w : World) (p : PendingWrite) (rest : list PendingWrite) :
  pending (node w) = p :: rest → _writeAgainFlag (this w) = true →
  let w' := exec (settle_write true) w in
  pending (node w') = rest ++ [started (pw_data p) false w]
  ∧ _isWritingFlag (this w') = true
  ∧ _writeAgainFlag (this w') = false
  ∧ physical_writes w' = S (physical_writes w)
  ∧ fs_file (node w') = Some (pw_text p).
Proof.
  intros Hp Ha. destruct w as [[o ? ? ? wt ? ? ? ? ? ?] nd].
  destruct o as [? ? ? ? ? wf ?], nd. cbn in Hp, Ha. subst.
  destruct p as [? ? aw].
  destruct aw, wt, wf; run_split.
Qed.

Lemma settle_write_done (w : World) (p : PendingWrite) (rest : list PendingWrite) :
  pending (node w) = p :: rest → _writeAgainFlag (this w) = false →
  let w' := exec (settle_write true) w in
  pending (node w') = rest
  ∧ _isWritingFlag (this w') = false
  ∧ _writeAgainFlag (this w') = false
  ∧ physical_writes w' = physical_writes w
  ∧ fs_file (node w') = Some (pw_text p).
Proof.
  intros Hp Ha. destruct w as [[o ? ? ? wt ? ? ? ? ? ?] nd].
  destruct o as [? ? ? ? ? wf ?], nd. cbn in Hp, Ha. subst.
  destruct p as [? ? aw].
  destruct aw, wt, wf; run_split.
Qed.

(** *** Requests while a write is in flight *)

Lemma writeSync_busy (w : World) :
  _isWritingFlag (this w) = true →
  Main.writeSync w = (Ret (inl true), set_this (set_writeAgainFlag true (this w)) w).
Proof.
  intros H. unfold Main.writeSync, Main._writeJSONFileSync, bind at 1, get_this.
  unfold try_catch, bind. by rewrite _writeJSONFileSync_rec_busy.
Qed.

Lemma write_busy (w : World) :
  _isWritingFlag (this w) = true →
  exec Main.write w
  = with_trace (WriteResolved (inl true) :: trace (node w))
      (set_this (set_writeAgainFlag true (this w)) w).
Proof.
  intros H. unfold exec, Main.write, bind at 1, get_this.
  unfold bind. by rewrite _writeJSONFile_busy.
Qed.

Lemma save_while_busy (c : call) (w : World) :
  is_save c = true → _isWritingFlag (this w) = true →
  let w' := run_call c w in
  pending (node w') = pending (node w)
  ∧ _isWritingFlag (this w') = true
  ∧ _writeAgainFlag (this w') = true
  ∧ physical_writes w' = physical_writes w.
Proof.
  intros Hc Hw. destruct c; try discriminate Hc; cbn [run_call].
  - unfold exec. rewrite writeSync_busy by done. by cbn.
  - rewrite write_busy by done. by cbn.
Qed.

Lemma mutation_quiet (c : call) (w : World) :
  is_mutation c = true → quiet w (run_call c w).
Proof.
  intros Hc. destruct c; try discriminate Hc; cbn [run_call]; unfold exec.
  - apply set_quiet.
  - apply setAll_quiet.
  - apply unset_quiet.
  - apply reset_quiet.
Qed.

Lemma run_now_cons (i : input) (inputs : list input) (w : World) :
  run_now (i :: inputs) w = run_now inputs (deliver i w).
Proof. reflexivity. Qed.

Lemma run_cons (ti : Z * input) (schedule : list (Z * input)) (w : World) :
  run (ti :: schedule) w = run schedule (deliver ti.2 (advance_to ti.1 w)).
Proof. reflexivity. Qed.

Lemma burst_while_busy (cs : list call) (w : World) :
  Forall (fun c => is_save c || is_mutation c = true) cs →
  _isWritingFlag (this w) = true →
  let w' := run_now (Call <$> cs) w in
  pending (node w') = pending (node w)
  ∧ _isWritingFlag (this w') = true
  ∧ physical_writes w' = physical_writes w
  ∧ _writeAgainFlag (this w')
    = _writeAgainFlag (this w) || bool_decide (0 < saves cs)%nat.
Proof.
  intros Hcs. revert w. induction Hcs as [|c cs Hc _ IH]; intros w Hw.
  - cbn. by rewrite orb_false_r.
  - rewrite fmap_cons, run_now_cons. cbn [deliver].
    destruct (is_save c) eqn:Hsave.
    + destruct (save_while_busy c w Hsave Hw) as (Hp & Hw' & Ha & Hph).
      destruct (IH _ Hw') as (Hp2 & Hw2 & Hph2 & Ha2).
      repeat split; [congruence | done | congruence |].
      rewrite Ha2, Ha. unfold saves. cbn [List.filter]. rewrite Hsave. cbn.
      by rewrite orb_true_r.
    + cbn in Hc. pose proof (mutation_quiet c w Hc) as Hq.
      unfold quiet, unchanged, obs_write in Hq.
      injection Hq as Hp Hw' Ha Hph _.
      rewrite Hw in Hw'.
      destruct (IH _ Hw') as (Hp2 & Hw2 & Hph2 & Ha2).
      repeat split; [congruence | done | congruence |].
      rewrite Ha2, Ha. unfold saves. cbn [List.filter]. by rewrite Hsave.
Qed.

(** *** The invariant along every schedule *)

Lemma run_call_guarded (c : call) (w : World) :
  c ≠ CWrite → guarded w (run_call c w).
Proof.
  intros Hc. destruct c; try done; cbn [run_call]; unfold exec;
    first [ apply resetAndWriteSync_guarded | apply writeSync_guarded
          | apply initSync_guarded
          | apply quiet_guarded;
            first [ apply get_quiet | apply getDefault_quiet | apply validate_quiet
                  | apply set_quiet | apply getAll_quiet | apply getDefaults_quiet
                  | apply setAll_quiet | apply unset_quiet | apply has_quiet
                  | apply reset_quiet | apply disableFileWatcher_quiet ] ].
Qed.

Lemma coalesced_busy (w : World) :
  coalesced w → in_flight w = 1%nat → _isWritingFlag (this w) = true.
Proof.
  unfold coalesced, in_flight.
  by destruct (pending (node w)) as [|? [|? ?]].
Qed.

Lemma coalesced_idle (w : World) :
  coalesced w → _isWritingFlag (this w) = false → pending (node w) = [].
Proof.
  unfold coalesced. destruct (pending (node w)) as [|? [|? ?]]; [done | | done].
  congruence.
Qed.

Lemma write_coalesced (w : World) : coalesced w → coalesced (exec Main.write w).
Proof.
  intros Hc. destruct (_isWritingFlag (this w)) eqn:Hw.
  - rewrite write_busy by done. exact Hc.
  - pose proof (_writeJSONFile_idle (cachedSettings (this w)) true w Hw) as H.
    cbv zeta in H. destruct H as (Hr & Hp & Hw' & _).
    unfold exec, Main.write, bind at 1, get_this. unfold bind.
    destruct (Main._writeJSONFile (cachedSettings (this w)) true w) as [r w'].
    cbn in Hr, Hp, Hw'. subst r. cbn.
    unfold coalesced. by rewrite Hp, (coalesced_idle w Hc Hw).
Qed.

Lemma settle_write_coalesced (ok : bool) (w : World) :
  coalesced w → coalesced (exec (settle_write ok) w).
Proof.
  intros Hc. destruct (pending (node w)) as [|p rest] eqn:Hp.
  - unfold exec, settle_write, bind, get_node. by rewrite Hp.
  - assert (rest = []) as ->.
    { unfold coalesced in Hc. rewrite Hp in Hc. by destruct rest. }
    destruct ok.
    + destruct (_writeAgainFlag (this w)) eqn:Ha.
      * destruct (settle_write_again w p [] Hp Ha) as (Hp' & Hw' & _).
        unfold coalesced. by rewrite Hp'.
      * destruct (settle_write_done w p [] Hp Ha) as (Hp' & _).
        unfold coalesced. by rewrite Hp'.
    + destruct (settle_write_failed w p [] Hp) as (Hp' & _).
      unfold coalesced. by rewrite Hp'.
Qed.

Lemma deliver_coalesced (i : input) (w : World) :
  coalesced w → coalesced (deliver i w).
Proof.
  intros Hc. destruct i as [c| l | ev fn | ok | ok | t]; cbn [deliver].
  - destruct c;
      first [ by apply write_coalesced
            | apply (guarded_coalesced w);
              [apply run_call_guarded; discriminate | exact Hc] ].
  - apply (guarded_coalesced w); [|done]. apply quiet_guarded, addListener_quiet.
  - apply (guarded_coalesced w); [|done]. apply file_event_guarded.
  - by apply settle_write_coalesced.
  - exact Hc.
  - exact Hc.
Qed.

Lemma fire_guarded (w : World) (tm : Z * nat) : guarded w (fire w tm).
Proof.
  unfold fire. etrans; [|apply timer_callback_guarded].
  by split.
Qed.

Lemma foldl_fire_guarded (firing : list (Z * nat)) (w : World) :
  guarded w (foldl fire w firing).
Proof.
  revert w. induction firing as [|tm firing IH]; intros w; cbn [foldl].
  - reflexivity.
  - etrans; [apply fire_guarded | apply IH].
Qed.

Lemma advance_to_guarded (t : Z) (w : World) : guarded w (advance_to t w).
Proof.
  unfold advance_to.
  set (w0 := set_node _ w).
  assert (guarded w w0) as H0 by by split.
  pose proof (foldl_fire_guarded (List.filter (due t) (timers (node w))) w0) as H1.
  etrans; [exact H0|]. etrans; [exact H1|]. by split.
Qed.

Lemma run_coalesced (schedule : list (Z * input)) (w : World) :
  coalesced w → coalesced (run schedule w).
Proof.
  revert w. induction schedule as [|ti schedule IH]; intros w Hc; [done|].
  rewrite run_cons. apply IH, deliver_coalesced.
  apply (guarded_coalesced w); [apply advance_to_guarded | exact Hc].
Qed.

Lemma deliver_while_busy (i : input) (w : World) :
  _isWritingFlag (this w) = true → (∀ ok, i ≠ WriteSettled ok) →
  physical_writes (deliver i w) = physical_writes w.
Proof.
  intros Hw Hi. destruct i as [c| l | ev fn | ok | ok | t]; cbn [deliver].
  - destruct c;
      first [ by apply (save_while_busy CWrite w)
            | apply run_call_guarded; [discriminate | exact Hw] ].
  - by apply (quiet_guarded w _ (addListener_quiet l w)).
  - by apply (file_event_guarded ev fn w).
  - by destruct (Hi ok).
  - reflexivity.
  - reflexivity.
Qed.

Lemma new_store_coalesced (schema : gmap string FieldRule)
    (check : obj → check_result) (opts : Options) (n : Node) :
  pending n = [] → coalesced (new_store schema check opts n).
Proof.
  intros Hp. unfold new_store, Main.constructor, coalesced.
  destruct (Main._checkValidSchemaObject schema); destruct n; cbn in *; by subst.
Qed.

(** C1 (as amended). Along every schedule of inputs to a newly constructed
    store, and more generally from any world where the write protocol is at
    rest or has one write in flight, at most one write is in flight at any
    time; while one is in flight no input other than its completion starts
    a physical write, and a save request ([write] or [writeSync]) only sets
    the write-again flag. A burst of mutations and save requests arriving
    during the write, with at least one save request in it, is followed by
    exactly one more physical write when the write in flight completes
    successfully, and by none when that one completes in turn: one
    follow-up write however many saves were requested, hence fewer writes
    than requests as soon as the burst holds two. *)
Theorem write_coalescing :
  (∀ schema check opts n schedule, pending n = [] →
     (in_flight (run schedule (new_store schema check opts n)) ≤ 1)%nat)
  ∧ (∀ w schedule, coalesced w → (in_flight (run schedule w) ≤ 1)%nat)
  ∧ (∀ w i, coalesced w → in_flight w = 1%nat → (∀ ok, i ≠ WriteSettled ok) →
       physical_writes (deliver i w) = physical_writes w)
  ∧ (∀ w c, coalesced w → in_flight w = 1%nat → is_save c = true →
       let w' := run_call c w in
       physical_writes w' = physical_writes w
       ∧ in_flight w' = 1%nat
       ∧ _writeAgainFlag (this w') = true)
  ∧ (∀ w cs, coalesced w → in_flight w = 1%nat →
       Forall (fun c => is_save c || is_mutation c = true) cs →
       (0 < saves cs)%nat →
       let w1 := run_now (Call <$> cs) w in
       let w2 := deliver (WriteSettled true) w1 in
       let w3 := deliver (WriteSettled true) w2 in
       (physical_writes w1 = physical_writes w ∧ in_flight w1 = 1%nat)
       ∧ (physical_writes w2 = S (physical_writes w) ∧ in_flight w2 = 1%nat)
       ∧ (physical_writes w3 = S (physical_writes w) ∧ in_flight w3 = 0%nat)
       ∧ ((2 ≤ saves cs)%nat →
          (physical_writes w3 - physical_writes w < saves cs)%nat)).
Proof.
  split; [|split; [|split; [|split]]].
  - intros schema check opts n schedule Hp.
    by apply coalesced_in_flight, run_coalesced, new_store_coalesced.
  - intros w schedule Hc. by apply coalesced_in_flight, run_coalesced.
  - intros w i Hc Hone Hi. apply deliver_while_busy; [|done].
    by apply coalesced_busy.
  - intros w c Hc Hone Hsave w'.
    destruct (save_while_busy c w Hsave (coalesced_busy w Hc Hone))
      as (Hp & _ & Ha & Hph).
    unfold in_flight in *. fold w' in Hp, Ha, Hph. by rewrite Hp.
  - intros w cs Hc Hone Hcs Hsaves w1 w2 w3.
    pose proof (coalesced_busy w Hc Hone) as Hw.
    destruct (burst_while_busy cs w Hcs Hw) as (Hp1 & Hw1 & Hph1 & Ha1).
    fold w1 in Hp1, Hw1, Hph1, Ha1.
    rewrite bool_decide_eq_true_2, orb_true_r in Ha1 by done.
    unfold in_flight in Hone.
    destruct (pending (node w)) as [|p [|? ?]] eqn:Hp; try done.
    destruct (settle_write_again w1 p [] Hp1 Ha1) as (Hp2 & Hw2 & Ha2 & Hph2 & _).
    change (exec (settle_write true) w1) with w2 in Hp2, Hw2, Ha2, Hph2.
    cbn [app] in Hp2.
    destruct (settle_write_done w2 _ [] Hp2 Ha2) as (Hp3 & _ & _ & Hph3 & _).
    change (exec (settle_write true) w2) with w3 in Hp3, Hph3.
    unfold in_flight. rewrite Hp1, Hp2, Hp3, Hph3, Hph2, Hph1. cbn [length].
    repeat split. lia.
Qed.

(** Witness for C1: the burst on the sample store. Three saves are
    requested during the write in flight; one write follows. *)
Lemma write_coalescing_witness :
  let w := sample_writing in
  let w1 := run_now (Call <$> sample_burst) w in
  let w2 := deliver (WriteSettled true) w1 in
  let w3 := deliver (WriteSettled true) w2 in
  (in_flight (run [(3%Z, Call CInitSync); (4%Z, Call CWrite); (5%Z, Call CWrite)]
                (sample_new defaultOptions)) ≤ 1)%nat
  ∧ (in_flight (run [(5%Z, Call CWrite); (7%Z, Call CWriteSync);
                     (9%Z, WriteSettled true)] w) ≤ 1)%nat
  ∧ physical_writes (deliver (Call CWriteSync) w) = physical_writes w
  ∧ (physical_writes (run_call CWrite w) = physical_writes w
     ∧ in_flight (run_call CWrite w) = 1%nat
     ∧ _writeAgainFlag (this (run_call CWrite w)) = true)
  ∧ saves sample_burst = 3%nat
  ∧ (physical_writes w1 = physical_writes w ∧ in_flight w1 = 1%nat)
  ∧ (physical_writes w2 = S (physical_writes w) ∧ in_flight w2 = 1%nat)
  ∧ (physical_writes w3 = S (physical_writes w) ∧ in_flight w3 = 0%nat)
  ∧ (physical_writes w3 - physical_writes w < saves sample_burst)%nat.
Proof.
  intros w w1 w2 w3.
  destruct write_coalescing as (Hnew & Hmost & Hbusy & Hsave & Hburst).
  assert (Hc : coalesced w) by (vm_compute; reflexivity).
  assert (Hone : in_flight w = 1%nat) by (vm_compute; reflexivity).
  split; [by apply Hnew|].
  split; [by apply Hmost|].
  split; [apply Hbusy; [done | done | intros ok; discriminate]|].
  split; [by apply (Hsave w CWrite)|].
  split; [vm_compute; reflexivity|].
  assert (Hcs : Forall (fun c => is_save c || is_mutation c = true) sample_burst)
    by (repeat constructor).
  assert (Hpos : (0 < saves sample_burst)%nat) by (vm_compute; lia).
  destruct (Hburst w sample_burst Hc Hone Hcs Hpos) as (H1 & H2 & H3 & Hless).
  split; [exact H1|]. split; [exact H2|]. split; [exact H3|].
  apply Hless. vm_compute; lia.
Defined.

(** C1, counterexample. Three bursts reach the sample store while its
    write is in flight. One [set] with one save: the write is followed by
    one write, which is as many as were requested, not fewer. Three [set]
    without a save: no write follows. The three [set]+save pairs when the
    write in flight fails: no write follows either. *)
Lemma burst_without_fewer_writes :
  let w := sample_writing in
  let one := [CSet size_key (VNum 30); CWrite] in
  let w1 := run_now (Call <$> one) w in
  let w2 := deliver (WriteSettled true) w1 in
  let w3 := deliver (WriteSettled true) w2 in
  let mutations := [CSet size_key (VNum 30); CSet size_key (VNum 35);
                    CSet size_key (VNum 40)] in
  let m1 := run_now (Call <$> mutations) w in
  let m2 := deliver (WriteSettled true) m1 in
  let f1 := run_now (Call <$> sample_burst) w in
  let f2 := deliver (WriteSettled false) f1 in
  in_flight w = 1%nat
  ∧ (saves one = 1%nat
     ∧ in_flight w3 = 0%nat
     ∧ (physical_writes w3 - physical_writes w)%nat = saves one)
  ∧ (Forall (fun c => is_mutation c = true) mutations
     ∧ in_flight m2 = 0%nat
     ∧ physical_writes m2 = physical_writes w)
  ∧ (saves sample_burst = 3%nat
     ∧ in_flight f2 = 0%nat
     ∧ physical_writes f2 = physical_writes w).
Proof.
  intros w one w1 w2 w3 mutations m1 m2 f1 f2.
  split; [vm_compute; reflexivity|].
  split; [repeat split; vm_compute; reflexivity|].
  split; [|repeat split; vm_compute; reflexivity].
  split; [repeat constructor|].
  split; vm_compute; reflexivity.
Qed.

(** ** The watcher *)

Lemma watch_listener_arms (c : nat) (fn : string) (w : World) :
  fn ≠ "" →
  fsWait (node w) !! c = Some false →
  _isWritingFlag (this w) = false →
  Main.IGNORE_WINDOW ≤ hrtime (node w) - _lastWriteHrtime (this w) →
  Main.watch_listener c "change" (Some fn) w
  = (Ret tt,
     set_node (set_timers (timers (node w) ++ [(hrtime (node w) + Main.TIMER_DELAY, c)])
                 (set_fsWait (<[c := true]> (fsWait (node w))) (node w))) w).
Proof.
  intros Hfn Hwait Hw Hwin.
  unfold Main.watch_listener, bind, get_this, get_node.
  rewrite (bool_decide_eq_true_2 (Some fn ≠ None ∧ Some fn ≠ Some "")) by (split; congruence).
  rewrite (bool_decide_eq_true_2 ("change" = "change")) by done.
  rewrite Hwait, Hw. cbn [default orb andb id].
  rewrite (bool_decide_eq_false_2
             (hrtime (node w) - _lastWriteHrtime (this w) < Main.IGNORE_WINDOW))
    by lia.
  reflexivity.
Qed.

Lemma watch_listener_waits (c : nat) (eventType : string) (filename : option string)
    (w : World) :
  fsWait (node w) !! c = Some true →
  Main.watch_listener c eventType filename w = (Ret tt, w).
Proof.
  intros Hwait. unfold Main.watch_listener, bind, get_this, get_node.
  rewrite Hwait. cbn [default orb id]. by destruct (_ && _).
Qed.

Lemma advance_to_early (t : Z) (w : World) :
  Forall (fun tm => t < tm.1) (timers (node w)) →
  advance_to t w = set_node (set_hrtime (hrtime (node w) `max` t) (node w)) w.
Proof.
  intros Hall. unfold advance_to.
  assert (List.filter (due t) (timers (node w)) = []) as ->.
  { induction Hall as [|tm l Hlt _ IH]; [done|]. cbn.
    unfold due at 1. by rewrite bool_decide_eq_false_2 by lia. }
  assert (List.filter (fun tm => negb (due t tm)) (timers (node w)) = timers (node w)) as ->.
  { induction Hall as [|tm l Hlt _ IH]; [done|]. cbn.
    unfold due at 1. rewrite bool_decide_eq_false_2 by lia. cbn. by rewrite IH. }
  destruct w as [s []]. reflexivity.
Qed.

Lemma first_event (c : nat) (fn : string) (t : Z) (w : World) :
  armed c w → fn ≠ "" → hrtime (node w) ≤ t →
  Main.IGNORE_WINDOW ≤ t - _lastWriteHrtime (this w) →
  let w' := deliver (change fn) (advance_to t w) in
  waiting c (t + Main.TIMER_DELAY) w'
  ∧ hrtime (node w') = t
  ∧ trace (node w') = trace (node w)
  ∧ this w' = this w.
Proof.
  intros (Hws & Hwait & Htm & Hw) Hfn Ht Hwin.
  rewrite advance_to_early by (rewrite Htm; constructor).
  cbn [deliver change]. unfold exec, file_event, bind, get_node.
  cbn [node set_node fs_watchers set_hrtime]. rewrite Hws. cbn [for_each foldr].
  unfold bind. rewrite watch_listener_arms; [| done | done | done |]; cycle 1.
  { cbn. lia. }
  cbn. rewrite Htm. unfold waiting. cbn.
  rewrite Z.max_r by done. repeat split; try done.
  apply list_lookup_insert_eq. by eapply lookup_lt_Some.
Qed.

Lemma later_event (c : nat) (T : Z) (i : input) (t : Z) (w : World) :
  waiting c T w → (∀ ok, i ≠ WriteSettled ok) → hrtime (node w) ≤ t → t < T →
  (∃ ev fn, i = FileEvent ev fn) →
  let w' := deliver i (advance_to t w) in
  waiting c T w'
  ∧ hrtime (node w') = t
  ∧ trace (node w') = trace (node w)
  ∧ this w' = this w.
Proof.
  intros (Hws & Hwait & Htm) _ Ht HT (ev & fn & ->).
  rewrite advance_to_early by (rewrite Htm; repeat constructor; done).
  cbn [deliver]. unfold exec, file_event, bind, get_node.
  cbn [node set_node fs_watchers set_hrtime]. rewrite Hws. cbn [for_each foldr].
  unfold bind. rewrite watch_listener_waits by done.
  cbn. unfold waiting. cbn. rewrite Z.max_r by done. done.
Qed.

Lemma _writeJSONFileSync_io (data : loc) : preserves io (Main._writeJSONFileSync data).
Proof. apply _writeJSONFileSync_rec_io. Qed.
#[global] Hint Resolve _writeJSONFileSync_io : pres.

Lemma exec_try_catch_emit {A B} (e : effect) (k : unit → M A) (K : A → M B)
    (h : exn → M B) (w : World) :
  exec (try_catch (bind (bind (emit e) k) K) h) w
  = exec (try_catch (bind (k tt) K) h) (exec (emit e) w).
Proof. reflexivity. Qed.

Lemma _fileChanged_reads (w : World) :
  let w' := exec Main._fileChanged w in
  file_reads w' = S (file_reads w)
  ∧ timers (node w') = timers (node w)
  ∧ pending (node w') = pending (node w).
Proof.
  unfold Main._fileChanged, Main.fs_readFileSync.
  rewrite exec_try_catch_emit.
  set (w1 := exec (emit FsRead) w).
  match goal with |- context [exec ?m w1] =>
    assert (Hio : preserves io m) by preserves_tac
  end.
  specialize (Hio w1). unfold io, unchanged, obs_clock in Hio.
  injection Hio as Hp Ht Hr. unfold exec. cbv zeta.
  rewrite Hr, Ht, Hp. by destruct w as [s []].
Qed.

Lemma timer_callback_reads (c : nat) (w : World) :
  let w' := exec (Main.timer_callback c) w in
  file_reads w' = S (file_reads w)
  ∧ timers (node w') = timers (node w)
  ∧ pending (node w') = pending (node w).
Proof.
  unfold Main.timer_callback, exec, bind, modify_node. cbn [fst snd].
  set (w1 := {| this := this w; node := _ |}).
  destruct (_fileChanged_reads w1) as (Hr & Ht & Hp). unfold exec in *.
  rewrite Hr, Ht, Hp. by destruct w as [s []].
Qed.

Lemma timeout (c : nat) (T t : Z) (w : World) :
  waiting c T w → hrtime (node w) ≤ T → T ≤ t →
  let w' := advance_to t w in
  file_reads w' = S (file_reads w) ∧ timers (node w') = [].
Proof.
  intros (Hws & Hwait & Htm) HT Ht.
  unfold advance_to. rewrite Htm. cbn [List.filter].
  unfold due. cbn [fst]. rewrite bool_decide_eq_true_2 by done.
  cbn [negb foldl fire]. cbn [snd].
  set (w0 := set_node (set_hrtime _ _) (set_node (set_timers [] (node w)) w)
         : World) || idtac.
  unfold fire. cbn [snd fst].
  match goal with |- context [exec (Main.timer_callback c) ?w0] =>
    destruct (timer_callback_reads c w0) as (Hr & Ht' & _);
    set (w1 := exec (Main.timer_callback c) w0) in *
  end.
  unfold file_reads in *. cbn [set_node set_hrtime set_timers node timers trace] in *.
  by rewrite Hr, Ht'.
Qed.

(** C6 (as amended). One watcher [c] is open, its [fsWait] is clear, no
    timer is pending and no save is in flight. Three change events arrive
    at [t1 ≤ t2 ≤ t3], the first one past the ignore window after the last
    own write, all within the timer delay of the first. The first event
    sets the one timer, due at [t1 + TIMER_DELAY]; the other two are
    ignored and leave it as it is. Before that time the file is not read;
    once it is reached the file has been read exactly once, and no timer
    is left. *)
Theorem debounce_window (w : World) (c : nat) (fn : string) (t1 t2 t3 : Z) :
  armed c w → fn ≠ "" →
  hrtime (node w) ≤ t1 →
  Main.IGNORE_WINDOW ≤ t1 - _lastWriteHrtime (this w) →
  t1 ≤ t2 → t2 ≤ t3 → t3 < t1 + Main.TIMER_DELAY →
  let w3 := run [(t1, change fn); (t2, change fn); (t3, change fn)] w in
  timers (node w3) = [(t1 + Main.TIMER_DELAY, c)]
  ∧ file_reads w3 = file_reads w
  ∧ (∀ t, t3 ≤ t → t < t1 + Main.TIMER_DELAY →
       file_reads (advance_to t w3) = file_reads w)
  ∧ (∀ t, t1 + Main.TIMER_DELAY ≤ t →
       file_reads (advance_to t w3) = S (file_reads w)
       ∧ timers (node (advance_to t w3)) = []).
Proof.
  intros Harmed Hfn H0 Hwin H12 H23 H3 w3.
  destruct (first_event c fn t1 w Harmed Hfn H0 Hwin) as (Hw1 & Hh1 & Htr1 & Hth1).
  set (w1 := deliver (change fn) (advance_to t1 w)) in *.
  destruct (later_event c (t1 + Main.TIMER_DELAY) (change fn) t2 w1)
    as (Hw2 & Hh2 & Htr2 & Hth2);
    [done | intros ok; discriminate | lia | lia | by do 2 eexists |].
  set (w2 := deliver (change fn) (advance_to t2 w1)) in *.
  destruct (later_event c (t1 + Main.TIMER_DELAY) (change fn) t3 w2)
    as (Hw3 & Hh3 & Htr3 & Hth3);
    [done | intros ok; discriminate | lia | lia | by do 2 eexists |].
  change (deliver (change fn) (advance_to t3 w2)) with w3 in *.
  assert (Hreads : file_reads w3 = file_reads w).
  { unfold file_reads. by rewrite Htr3, Htr2, Htr1. }
  destruct Hw3 as (Hws & Hwait & Htm).
  split; [done|]. split; [done|]. split.
  - intros t Ht3 Ht. rewrite advance_to_early by (rewrite Htm; repeat constructor; done).
    by rewrite <- Hreads.
  - intros t Ht.
    destruct (timeout c (t1 + Main.TIMER_DELAY) t w3) as (Hr & Hno);
      [done | lia | done |].
    by rewrite <- Hreads.
Qed.

(** Witness for C6: events at 20 s, 20.3 s and 20.9 s on the sample store;
    the file is read once, at 21 s. *)
Lemma debounce_window_witness :
  let w := sample_watching in
  let w3 := run [(T0, change "config.json"); (T0 + ms 300, change "config.json");
                 (T0 + ms 900, change "config.json")] w in
  timers (node w3) = [(T0 + Main.TIMER_DELAY, 0%nat)]
  ∧ file_reads w3 = file_reads w
  ∧ file_reads (advance_to (T0 + ms 999) w3) = file_reads w
  ∧ file_reads (advance_to (T0 + ms 1000) w3) = S (file_reads w)
  ∧ timers (node (advance_to (T0 + ms 1000) w3)) = [].
Proof.
  intros w w3.
  assert (Harmed : armed 0 w) by (repeat split; vm_compute; reflexivity).
  assert (Hh : hrtime (node w) = 0) by (vm_compute; reflexivity).
  assert (Hl : _lastWriteHrtime (this w) = 0) by (vm_compute; reflexivity).
  destruct (debounce_window w 0 "config.json" T0 (T0 + ms 300) (T0 + ms 900))
    as (Htm & Hr & Hearly & Hlate);
    [ exact Harmed | discriminate
    | rewrite Hh; vm_compute; discriminate
    | rewrite Hl; vm_compute; discriminate
    | vm_compute; discriminate | vm_compute; discriminate
    | vm_compute; reflexivity | ].
  split; [exact Htm|]. split; [exact Hr|].
  split; [apply Hearly; [vm_compute; discriminate | vm_compute; reflexivity]|].
  apply Hlate. vm_compute; discriminate.
Defined.

(** C6, counterexample. On the sample store two change events arrive 900 ms
    apart, both past the ignore window and with no save in flight. The
    second one does not restart the timer: it stays due one delay after
    the first, and the file is read then, 100 ms after the second event,
    not one delay after it. *)
Lemma timer_not_restarted :
  let w := sample_watching in
  let w1 := run [(T0, change "config.json")] w in
  let w2 := run [(T0 + ms 900, change "config.json")] w1 in
  (Main.IGNORE_WINDOW <=? T0 + ms 900 - _lastWriteHrtime (this w1)) = true
  ∧ _isWritingFlag (this w1) = false
  ∧ timers (node w1) = [(T0 + Main.TIMER_DELAY, 0%nat)]
  ∧ timers (node w2) = [(T0 + Main.TIMER_DELAY, 0%nat)]
  ∧ timers (node w2) ≠ [(T0 + ms 900 + Main.TIMER_DELAY, 0%nat)]
  ∧ file_reads (advance_to (T0 + ms 1000) w2) = S (file_reads w2)
  ∧ file_reads (advance_to (T0 + ms 900 + Main.TIMER_DELAY) w2) = S (file_reads w2).
Proof. evaluate. Qed.

(** When [initSync] finds no parsable file and writes the defaults, the
    write re-opens a watcher and [initSync] opens another: two watchers
    are open, each with its own timer, and one burst of events leads to two
    reads of the file. This is why the statement for C6 asks for one open
    watcher. *)
Lemma two_watchers_after_bootstrap :
  let w := run_now [Call CInitSync]
             (new_store sample_schema sample_check opts_watch
                (fresh_node (Some Garbage))) in
  let w3 := run [(T0, change "config.json"); (T0 + ms 300, change "config.json");
                 (T0 + ms 900, change "config.json")] w in
  fs_watchers (node w) = [0%nat; 1%nat]
  ∧ file_reads (advance_to (T0 + ms 1000) w3) = S (S (file_reads w)).
Proof. evaluate. Qed.

(** * Further properties *)

(** ** Notifications and comparison of objects *)

Lemma with_trace_same w : with_trace (trace (node w)) w = w.
Proof. by destruct w as [s []]. Qed.

Lemma with_trace_twice t1 t2 w : with_trace t2 (with_trace t1 w) = with_trace t2 w.
Proof. by destruct w as [s []]. Qed.

Lemma for_each_listeners (c : loc) (ls : list (option nat)) (w : World) :
  for_each ls (fun listener =>
    match listener with
    | Some l => let* settings := deref c in emit (IpcSend l settings)
    | None => ret tt
    end) w
  = (Ret tt,
     with_trace (rev ((fun l => IpcSend l (default ∅ (heap (node w) !! c))) <$> omap id ls)
                 ++ trace (node w)) w).
Proof.
  revert w. induction ls as [|[l|] ls IH]; intros w.
  - cbn. by rewrite with_trace_same.
  - change (for_each (Some l :: ls) ?f) with (f (Some l);; for_each ls f).
    unfold bind at 1. cbn [omap id fmap list_fmap].
    change ((let* settings := deref c in emit (IpcSend l settings)) w)
      with (Ret tt, with_trace (IpcSend l (default ∅ (heap (node w) !! c)) :: trace (node w)) w).
    cbv beta iota. rewrite IH. f_equal.
    destruct w as [s n]; destruct n. cbn. unfold with_trace, set_node, set_trace. cbn.
    by rewrite <- app_assoc.
  - change (for_each (None :: ls) ?f) with (f None;; for_each ls f).
    unfold bind at 1. cbn [omap id]. apply IH.
Qed.

Lemma _sendIPCUpdateSettings_exact (w : World) :
  Main._sendIPCUpdateSettings w = (Ret tt, notify w).
Proof.
  unfold Main._sendIPCUpdateSettings, bind at 1. cbn [get_this].
  apply for_each_listeners.
Qed.

Lemma _setCachedSettingsKey_exact (key : string) (v : value) (w : World) :
  Main._setCachedSettingsKey key v w
  = (Ret tt, if strict_eq (prop (cache w) key) v then w else notify (store_key key v w)).
Proof.
  unfold Main._setCachedSettingsKey, bind at 1. cbn [get_this].
  unfold bind at 1.
  change (deref (cachedSettings (this w)) w) with (Ret (cache w), w).
  cbv beta iota. destruct (strict_eq _ _); [done|]. cbn [negb].
  unfold bind at 1.
  change (update (cachedSettings (this w)) (insert key v) w) with (Ret tt, store_key key v w).
  cbv beta iota. apply _sendIPCUpdateSettings_exact.
Qed.

Lemma _setCachedSettings_exact (l : loc) (w : World) :
  Main._setCachedSettings l w
  = (Ret tt, if deepEqual (default ∅ (heap (node w) !! l)) (cache w) then w
             else notify (point_cache l w)).
Proof.
  unfold Main._setCachedSettings, bind at 1. cbn [get_this].
  unfold bind at 1.
  change (deref l w) with (Ret (default ∅ (heap (node w) !! l)), w).
  cbv beta iota. unfold bind at 1.
  change (deref (cachedSettings (this w)) w) with (Ret (cache w), w).
  cbv beta iota. destruct (deepEqual _ _); [done|]. cbn [negb].
  unfold bind at 1.
  change (modify_this (set_cachedSettings l) w) with (Ret tt, point_cache l w).
  cbv beta iota. apply _sendIPCUpdateSettings_exact.
Qed.

Lemma keys_length (o : obj) : length (keys o) = size o.
Proof. unfold keys. by rewrite length_fmap, length_map_to_list. Qed.

Lemma elem_of_keys (o : obj) (k : string) : k ∈ keys o ↔ is_Some (o !! k).
Proof.
  unfold keys. rewrite list_elem_of_fmap. split.
  - intros [[k' v] [-> Hin]]. apply elem_of_map_to_list in Hin. by exists v.
  - intros [v Hv]. exists (k, v). split; [done|]. by apply elem_of_map_to_list.
Qed.

Lemma deepEqual_refl (x : obj) : deepEqual x x = true.
Proof.
  unfold deepEqual. rewrite bool_decide_eq_true_2 by done. cbn.
  apply forallb_forall. intros k _. unfold strict_eq. by apply bool_decide_eq_true_2.
Qed.

Lemma deepEqual_true (x y : obj) :
  deepEqual x y = true ↔
  size x = size y ∧ ∀ k, is_Some (x !! k) → prop x k = prop y k.
Proof.
  unfold deepEqual. rewrite andb_true_iff, bool_decide_eq_true, !keys_length.
  rewrite forallb_forall. split; intros [Hs H]; (split; [done|]).
  - intros k Hk. apply elem_of_keys, list_elem_of_In in Hk.
    specialize (H k Hk). unfold strict_eq in H. by apply bool_decide_eq_true in H.
  - intros k Hk. apply list_elem_of_In, elem_of_keys in Hk.
    unfold strict_eq. apply bool_decide_eq_true_2. by apply H.
Qed.

Lemma deepEqual_defined (x y : obj) :
  defined x → deepEqual x y = true ↔ x = y.
Proof.
  intros Hx. split; [|intros ->; apply deepEqual_refl].
  rewrite deepEqual_true. intros [Hs H].
  apply map_subseteq_size_eq; [|by rewrite Hs].
  apply map_subseteq_spec. intros k v Hk.
  specialize (H k (ex_intro _ v Hk)). unfold prop in H. rewrite Hk in H. cbn in H.
  destruct (y !! k) as [v'|]; cbn in H; [by subst|].
  subst v. by destruct (Hx k).
Qed.

(** X1. [deepEqual] is exact on objects that hold no [undefined]: for an
    object [x] none of whose properties has the value [undefined],
    [deepEqual x y] is [true] exactly when [y] is the same object content as
    [x]. *)
Theorem deepEqual_exact (x y : obj) :
  defined x → (deepEqual x y = true ↔ x = y).
Proof.
  intros Hx. split.
  - intros H. apply deepEqual_true in H as [Hs H].
    apply map_subseteq_size_eq; [|by rewrite Hs].
    apply map_subseteq_spec. intros k v Hk.
    specialize (H k (ex_intro _ v Hk)). rewrite (prop_Some _ _ _ Hk) in H.
    unfold prop in H. destruct (y !! k) as [v'|]; cbn in H; [by subst|].
    subst v. by destruct (Hx k).
  - intros ->. apply deepEqual_refl.
Qed.

(** *** [set] *)

Lemma getDefault_exact (w : World) (key : string) :
  _hasInitialized (this w) = true → key ≠ "" →
  Main.getDefault key w =
    (match defaults_table w !! key with
     | Some _ =>
         match _schema (this w) !! key with
         | Some rule => Ret (default VUndefined (rule_default rule))
         | None => Throw (TypeError "Cannot read property 'default' of undefined")
         end
     | None => Ret VUndefined
     end, w).
Proof.
  intros Hi Hk. unfold Main.getDefault, bind, get_this.
  rewrite Hi. cbn [negb]. rewrite bool_decide_eq_false_2 by done.
  change (deref (_defaults (this w)) w) with (Ret (defaults_table w), w).
  cbv beta iota. unfold hasOwnProperty.
  destruct (defaults_table w !! key); [|done].
  unfold Main.schema_default, bind, get_this.
  by destruct (_schema (this w) !! key).
Qed.

Lemma cache_store_key (w : World) (k : string) (v : value) :
  is_Some (heap (node w) !! cachedSettings (this w)) →
  cache (store_key k v w) = <[k := v]> (cache w).
Proof.
  intros [o Ho]. unfold cache, store_key. cbn.
  by rewrite list_lookup_alter_eq, Ho.
Qed.

Lemma cache_is_Some_heap (w : World) (k : string) :
  is_Some (cache w !! k) → is_Some (heap (node w) !! cachedSettings (this w)).
Proof. intros [v Hv]. destruct (cache_lookup_heap _ _ _ Hv). eauto. Qed.

Lemma defaults_table_store_key (w : World) (k : string) (v : value) :
  is_Some (cache w !! k) →
  is_Some (defaults_table (store_key k v w) !! k) ↔ is_Some (defaults_table w !! k).
Proof.
  intros Hc. pose proof (cache_is_Some_heap _ _ Hc) as [o Ho].
  unfold defaults_table, store_key. cbn.
  destruct (decide (cachedSettings (this w) = _defaults (this w))) as [<-|Hne].
  - rewrite list_lookup_alter_eq, Ho. cbn. rewrite lookup_insert_eq.
    unfold cache in Hc. rewrite Ho in Hc. cbn in Hc. split; eauto.
  - by rewrite list_lookup_alter_ne.
Qed.

Lemma this_stored k v w : this (stored k v w) = this w.
Proof. unfold stored. by destruct (strict_eq _ _). Qed.

Lemma cache_stored k v w :
  is_Some (cache w !! k) → cache (stored k v w) = <[k := v]> (cache w).
Proof.
  intros Hc. unfold stored, strict_eq. case_bool_decide as Heq.
  - symmetry. apply insert_id. destruct Hc as [x Hx].
    unfold prop in Heq. rewrite Hx in Heq. cbn in Heq. by subst.
  - change (cache (notify ?w)) with (cache w).
    apply cache_store_key. by eapply cache_is_Some_heap.
Qed.

Lemma defaults_table_stored k v w :
  is_Some (cache w !! k) →
  is_Some (defaults_table (stored k v w) !! k) ↔ is_Some (defaults_table w !! k).
Proof.
  intros Hc. unfold stored. destruct (strict_eq _ _); [done|].
  change (defaults_table (notify ?w)) with (defaults_table w).
  by apply defaults_table_store_key.
Qed.

Lemma trace_stored k v w old :
  cache w !! k = Some old →
  trace (node (stored k v w)) =
    (if decide (v = old) then []
     else rev ((fun l => IpcSend l (<[k := v]> (cache w))) <$> listeners w))
    ++ trace (node w).
Proof.
  intros Hc. unfold stored, strict_eq. rewrite (prop_Some _ _ _ Hc).
  case_bool_decide as Heq; destruct (decide (v = old)) as [Hd|Hd]; try congruence.
  - done.
  - cbn. rewrite cache_store_key by (eapply cache_is_Some_heap; eauto). done.
Qed.

Lemma set_string_body (w : World) (k : string) (v : value) :
  _hasInitialized (this w) = true → k ≠ "" → v ≠ VUndefined →
  Main.set (Main.KeyString k) v w =
    try_catch (let* setResult := Main._set k v in ret (Main.SetResult setResult))
              (fun error => ret (Main.SetCaught error)) w.
Proof.
  intros Hi Hk Hv. unfold Main.set, bind at 1, get_this. rewrite Hi. cbn [negb].
  by rewrite !bool_decide_eq_false_2 by done.
Qed.

Lemma getDefault_declared (w : World) (k : string) :
  _hasInitialized (this w) = true → k ≠ "" →
  (is_Some (defaults_table w !! k) → is_Some (_schema (this w) !! k)) →
  Main.getDefault k w = (Ret (declared_default w k), w).
Proof.
  intros Hi Hk Hs. rewrite getDefault_exact by done. unfold declared_default.
  destruct (defaults_table w !! k) as [d|]; [|done].
  destruct Hs as [rule ->]; [by eexists|]. done.
Qed.

Lemma _set_accepted (w : World) (k : string) (v : value) :
  _hasInitialized (this w) = true → k ≠ "" →
  is_Some (cache w !! k) →
  (is_Some (defaults_table w !! k) → is_Some (_schema (this w) !! k)) →
  (validate_opt (options (this w)) = false ∨ _check (this w) {[ k := v ]} = CheckTrue) →
  Main._set k v w =
    (Ret {| status := true; default_value := declared_default w k; errors := ENone |},
     stored k v w).
Proof.
  intros Hi Hk Hc Hs Hok.
  assert (Hd' : Main.getDefault k (stored k v w)
                = (Ret (declared_default w k), stored k v w)).
  { rewrite getDefault_declared; [| by rewrite this_stored | done |].
    - do 2 f_equal. unfold declared_default. rewrite this_stored.
      pose proof (defaults_table_stored k v w Hc) as Hiff.
      destruct (defaults_table (stored k v w) !! k) as [x|] eqn:E1;
        destruct (defaults_table w !! k) as [y|] eqn:E2; try done.
      + destruct Hiff as [Hiff _]. destruct Hiff as [? ?]; [by eexists|done].
      + destruct Hiff as [_ Hiff]. destruct Hiff as [? ?]; [by eexists|done].
    - rewrite this_stored. intros H. apply Hs. by apply (defaults_table_stored k v w Hc). }
  unfold Main._set. unfold bind at 1, get_this. unfold bind at 1.
  change (deref (cachedSettings (this w)) w) with (Ret (cache w), w).
  cbv beta iota. destruct Hc as [old Hc].
  rewrite (hasOwnProperty_Some _ _ _ Hc). cbn [negb].
  destruct (validate_opt (options (this w))) eqn:Hval; cbn [negb].
  - destruct Hok as [?|Hchk]; [done|].
    unfold bind at 1. unfold Main.validate. rewrite bool_decide_eq_false_2 by done.
    unfold bind at 1. unfold Main._fastValidateSettings_literal, bind at 1, get_this, ret.
    rewrite Hchk. unfold bind at 1.
    rewrite getDefault_declared by done. cbv beta iota. cbn [status].
    unfold bind. by rewrite _setCachedSettingsKey_exact.
  - unfold bind at 1. rewrite _setCachedSettingsKey_exact. cbv beta iota.
    fold (stored k v w). unfold bind. by rewrite Hd'.
Qed.

(** ** Setting, unsetting, resetting *)

(** X2. On an initialized store, let [k] be a non-empty key present in the
    cache (and in the schema if the defaults have it) and [v] a defined
    value that passes validation (or validation is off). Then [set(k, v)] returns status [true] with no errors, the cache
    afterwards is the old one with [k] bound to [v], [get(k)] returns [v],
    no field of the store changes, and every registered listener is sent the
    new settings exactly once, in registration order; nothing is sent when
    [v] is the value [k] already had. *)
Theorem set_accepted_value (w : World) (k : string) (v old : value) :
  _hasInitialized (this w) = true →
  k ≠ "" → v ≠ VUndefined →
  cache w !! k = Some old →
  (is_Some (defaults_table w !! k) → is_Some (_schema (this w) !! k)) →
  (validate_opt (options (this w)) = false ∨ _check (this w) {[ k := v ]} = CheckTrue) →
  let r := Main.set (Main.KeyString k) v w in
  r.1 = Ret (Main.SetResult {| status := true; default_value := declared_default w k;
                               errors := ENone |})
  ∧ this r.2 = this w
  ∧ cache r.2 = <[k := v]> (cache w)
  ∧ Main.get k r.2 = (Ret v, r.2)
  ∧ trace (node r.2) =
      (if decide (v = old) then []
       else rev ((fun l => IpcSend l (<[k := v]> (cache w))) <$> listeners w))
      ++ trace (node w).
Proof.
  intros Hi Hk Hv Hc Hs Hok r. subst r.
  rewrite set_string_body by done. unfold try_catch, bind.
  rewrite _set_accepted by eauto. cbn [fst snd ret].
  split; [done|]. split; [apply this_stored|].
  split; [apply cache_stored; eauto|].
  split; [|by apply trace_stored].
  apply get_cached; [by rewrite this_stored | done |].
  rewrite cache_stored by eauto. apply lookup_insert_eq.
Qed.

(** The sample store takes a size of 30. *)
Lemma set_accepted_value_witness :
  let w := sample_ready defaultOptions in
  let r := Main.set (Main.KeyString "size") (VNum 30) w in
  r.1 = Ret (Main.SetResult {| status := true; default_value := declared_default w "size";
                               errors := ENone |})
  ∧ this r.2 = this w
  ∧ cache r.2 = <["size" := VNum 30]> (cache w)
  ∧ Main.get "size" r.2 = (Ret (VNum 30), r.2)
  ∧ trace (node r.2) =
      (if decide (VNum 30 = VNum 25) then []
       else rev ((fun l => IpcSend l (<["size" := VNum 30]> (cache w))) <$> listeners w))
      ++ trace (node w).
Proof.
  intros w.
  apply (set_accepted_value w "size" (VNum 30) (VNum 25));
    first [ discriminate | vm_compute; reflexivity
          | intros _; vm_compute; eauto | right; vm_compute; reflexivity ].
Defined.

(** X3. On an initialized store, [set(k, v)] for a non-empty key that is
    neither in the cache nor in the defaults returns status [false] with the
    error 'Key not found in cached settings' and leaves the world as it
    was: [set] cannot introduce a key. *)
Theorem set_unknown_key (w : World) (k : string) (v : value) :
  _hasInitialized (this w) = true →
  k ≠ "" → v ≠ VUndefined →
  cache w !! k = None → defaults_table w !! k = None →
  Main.set (Main.KeyString k) v w =
    (Ret (Main.SetResult {| status := false; default_value := VUndefined;
                            errors := EStr "Key not found in cached settings" |}), w).
Proof.
  intros Hi Hk Hv Hc Hd. rewrite set_string_body by done.
  unfold try_catch, bind at 1. unfold Main._set. unfold bind at 1, get_this.
  unfold bind at 1.
  change (deref (cachedSettings (this w)) w) with (Ret (cache w), w).
  cbv beta iota. rewrite (hasOwnProperty_None _ _ Hc). cbn [negb].
  unfold bind at 1.
  change (deref (_defaults (this w)) w) with (Ret (defaults_table w), w).
  cbv beta iota. by rewrite (hasOwnProperty_None _ _ Hd).
Qed.

(** The sample store is asked to set a key it does not know. *)
Lemma set_unknown_key_witness :
  let w := sample_ready defaultOptions in
  Main.set (Main.KeyString "theme") (VStr "dark") w =
    (Ret (Main.SetResult {| status := false; default_value := VUndefined;
                            errors := EStr "Key not found in cached settings" |}), w).
Proof.
  apply (set_unknown_key (sample_ready defaultOptions) "theme" (VStr "dark"));
    first [discriminate | vm_compute; reflexivity].
Defined.

(** *** [unset] and [has] *)

Lemma has_exact (w : World) (k : string) :
  _hasInitialized (this w) = true → k ≠ "" →
  Main.has k w = (Ret (bool_decide (is_Some (cache w !! k))), w).
Proof.
  intros Hi Hk. unfold Main.has, bind, get_this. rewrite Hi. cbn [negb].
  rewrite bool_decide_eq_false_2 by done.
  change (deref (cachedSettings (this w)) w) with (Ret (cache w), w).
  cbv beta iota. unfold ret, hasOwnProperty.
  destruct (cache w !! k) eqn:E.
  - by rewrite bool_decide_eq_true_2.
  - rewrite bool_decide_eq_false_2; [done|]. by intros [? ?].
Qed.

Lemma unset_exact (w : World) (k : string) :
  k ≠ "" →
  Main.unset k w =
    (Ret (bool_decide (is_Some (cache w !! k))),
     if bool_decide (is_Some (cache w !! k))
     then set_node (set_heap (alter (delete k) (cachedSettings (this w)) (heap (node w)))
                             (node w)) w
     else w).
Proof.
  intros Hk. unfold Main.unset. rewrite bool_decide_eq_false_2 by done.
  unfold bind, get_this.
  change (deref (cachedSettings (this w)) w) with (Ret (cache w), w).
  cbv beta iota. unfold hasOwnProperty.
  destruct (cache w !! k) eqn:E; cbn [negb].
  - by rewrite bool_decide_eq_true_2.
  - rewrite bool_decide_eq_false_2; [done|]. by intros [? ?].
Qed.

(** X5. [unset(k)] for a non-empty key returns whether the key was in the
    cache; afterwards the cache is the old one without [k], the fields of
    the store, the trace (so no listener is told) and the file are as
    before, a second [unset(k)] returns [false] and changes nothing, and on
    an initialized store [has(k)] is [false] while [has] answers as before
    for every other key. *)
Theorem unset_removes_key (w : World) (k : string) :
  k ≠ "" →
  let r := Main.unset k w in
  r.1 = Ret (bool_decide (is_Some (cache w !! k)))
  ∧ cache r.2 = delete k (cache w)
  ∧ this r.2 = this w
  ∧ trace (node r.2) = trace (node w)
  ∧ fs_file (node r.2) = fs_file (node w)
  ∧ Main.unset k r.2 = (Ret false, r.2)
  ∧ (_hasInitialized (this w) = true →
     Main.has k r.2 = (Ret false, r.2)
     ∧ ∀ k', k' ≠ "" → k' ≠ k → (Main.has k' r.2).1 = (Main.has k' w).1).
Proof.
  intros Hk r. subst r. rewrite unset_exact by done. cbn [fst snd].
  set (w' := if bool_decide _ then _ else w).
  assert (Hthis : this w' = this w) by (subst w'; by case_bool_decide).
  assert (Hcache : cache w' = delete k (cache w)).
  { subst w'. case_bool_decide as Hc.
    - pose proof (cache_is_Some_heap _ _ Hc) as [o Ho].
      unfold cache. cbn. by rewrite list_lookup_alter_eq, Ho.
    - symmetry. apply delete_id. by apply eq_None_not_Some. }
  assert (Hgone : cache w' !! k = None) by (rewrite Hcache; apply lookup_delete_eq).
  split; [done|]. split; [done|]. split; [done|].
  split; [subst w'; by case_bool_decide|].
  split; [subst w'; by case_bool_decide|].
  split.
  - rewrite unset_exact by done. rewrite Hgone.
    rewrite bool_decide_eq_false_2; [done|]. by intros [? ?].
  - intros Hi. split.
    + rewrite has_exact by (done || by rewrite Hthis). rewrite Hgone.
      rewrite bool_decide_eq_false_2; [done|]. by intros [? ?].
    + intros k' Hk' Hne. rewrite !has_exact by (done || by rewrite Hthis).
      cbn [fst]. rewrite Hcache. by rewrite lookup_delete_ne.
Qed.

(** The size is removed from the sample store. *)
Lemma unset_removes_key_witness :
  let w := sample_ready defaultOptions in
  let r := Main.unset "size" w in
  r.1 = Ret true
  ∧ cache r.2 = delete "size" (cache w)
  ∧ Main.unset "size" r.2 = (Ret false, r.2)
  ∧ Main.has "size" r.2 = (Ret false, r.2).
Proof.
  intros w r.
  destruct (unset_removes_key w "size") as (H1 & H2 & _ & _ & _ & H6 & H7).
  { intros H; discriminate H. }
  destruct H7 as [H7 _]; [vm_compute; reflexivity|].
  split; [|split; [exact H2|split; [exact H6|exact H7]]].
  fold r in H1. rewrite H1. vm_compute; reflexivity.
Defined.

(** *** [reset] *)

Lemma reset_exact (w : World) :
  Main.reset w =
    (Ret tt, if deepEqual (defaults_table w) (cache w) then w
             else notify (point_cache (_defaults (this w)) w)).
Proof.
  unfold Main.reset, bind, get_this. apply _setCachedSettings_exact.
Qed.

(** X6. [reset()] is idempotent: a second [reset()] returns without
    changing anything. The first leaves the defaults object as it is; if
    the cache already compares equal to the defaults nothing changes at
    all, and otherwise the cache field comes to name the defaults object
    itself and every registered listener is sent the defaults once. *)
Theorem reset_idempotent (w : World) :
  let w1 := exec Main.reset w in
  Main.reset w1 = (Ret tt, w1)
  ∧ defaults_table w1 = defaults_table w
  ∧ (if deepEqual (defaults_table w) (cache w) then w1 = w
     else cachedSettings (this w1) = _defaults (this w1)
          ∧ cache w1 = defaults_table w
          ∧ trace (node w1) =
              rev ((fun l => IpcSend l (defaults_table w)) <$> listeners w)
              ++ trace (node w)).
Proof.
  intros w1. subst w1. unfold exec. rewrite (reset_exact w). cbn [snd].
  destruct (deepEqual (defaults_table w) (cache w)) eqn:E.
  - split; [|done]. rewrite reset_exact. by rewrite E.
  - split; [|done]. rewrite reset_exact.
    change (defaults_table (notify (point_cache ?l w))) with (defaults_table w).
    change (cache (notify (point_cache (_defaults (this w)) w))) with (defaults_table w).
    by rewrite deepEqual_refl.
Qed.

(** *** [constructor] *)

Lemma forallb_false {A} (f : A → bool) (l : list A) :
  forallb f l = false → ∃ x, x ∈ l ∧ f x = false.
Proof.
  induction l as [|x l IH]; [done|]. cbn. destruct (f x) eqn:E.
  - intros H. destruct (IH H) as (y & Hin & Hy). exists y. split; [by right|done].
  - intros _. exists x. split; [by left|done].
Qed.

Lemma _checkValidSchemaObject_cases (schema : gmap string FieldRule) :
  match Main._checkValidSchemaObject schema with
  | Ret _ => schema ≠ ∅ ∧ ∀ k rule, schema !! k = Some rule → is_Some (rule_default rule)
  | Throw e =>
      (schema = ∅ ∧ e = TypeError "The `schema` option cannot be empty.")
      ∨ (schema ≠ ∅ ∧ (∃ msg, e = Error msg)
         ∧ ∃ k rule, schema !! k = Some rule ∧ rule_default rule = None)
  end.
Proof.
  unfold Main._checkValidSchemaObject. case_bool_decide as He.
  - left. by apply map_to_list_empty_iff in He.
  - assert (Hne : schema ≠ ∅) by (by rewrite <- map_to_list_empty_iff).
    destruct (forallb _ _) eqn:Hf.
    + split; [done|]. intros k rule Hk.
      rewrite forallb_forall in Hf.
      specialize (Hf (k, rule)). cbn in Hf.
      eapply bool_decide_eq_true, Hf, list_elem_of_In. by apply elem_of_map_to_list.
    + right. split; [done|]. split; [by eexists|].
      apply forallb_false in Hf. destruct Hf as ([k rule] & Hin & Hno).
      exists k, rule. split.
      * by apply elem_of_map_to_list.
      * cbn in Hno. apply bool_decide_eq_false in Hno.
        destruct (rule_default rule); [|done]. destruct Hno. by eexists.
Qed.

(** X8. The constructor. It throws a TypeError for an empty schema and an
    Error for a schema with a field that has no default; otherwise the new
    store has, for every key, the schema's default of that key in its
    defaults (and exactly the schema's keys there), an empty cache held in
    an object of its own, is not initialized, has no write under way, no
    watcher and no listener, keeps the schema and the options it was
    given, and has done nothing to the file or the trace. *)
Theorem constructor_cases (schema : gmap string FieldRule) (check : obj → check_result)
    (opts : Options) (n : Node) :
  match Main.constructor schema check opts n with
  | Ret w =>
      schema ≠ ∅
      ∧ (∀ k, defaults_table w !! k = schema !! k ≫= rule_default)
      ∧ (∀ k, is_Some (defaults_table w !! k) ↔ is_Some (schema !! k))
      ∧ cache w = ∅
      ∧ cachedSettings (this w) ≠ _defaults (this w)
      ∧ _hasInitialized (this w) = false
      ∧ idle w
      ∧ _watcher (this w) = None
      ∧ _schema (this w) = schema ∧ options (this w) = opts
      ∧ listeners w = []
      ∧ trace (node w) = trace n ∧ fs_file (node w) = fs_file n
  | Throw e =>
      (schema = ∅ ∧ e = TypeError "The `schema` option cannot be empty.")
      ∨ (schema ≠ ∅ ∧ (∃ msg, e = Error msg)
         ∧ ∃ k rule, schema !! k = Some rule ∧ rule_default rule = None)
  end.
Proof.
  pose proof (_checkValidSchemaObject_cases schema) as H.
  unfold Main.constructor. destruct (Main._checkValidSchemaObject schema) as [[]|e]; [|done].
  destruct H as [Hne Hall].
  assert (Ht : defaults_table
                 {| this := {| options := opts; cachedSettings := S (length (heap n));
                        _isWritingFlag := false; _schema := schema; _watcher := None;
                        _lastWriteHrtime := hrtime n; _writeAgainFlag := false;
                        _hasInitialized := false; _check := check;
                        _defaults := length (heap n); _windowListeners := [None] |};
                    node := set_heap (heap n ++ [Main._retreiveDefaults schema; ∅]) n |}
               = Main._retreiveDefaults schema).
  { unfold defaults_table. cbn. rewrite lookup_app_r by lia.
    by replace (length (heap n) - length (heap n))%nat with 0%nat by lia. }
  split; [done|]. rewrite Ht.
  assert (Hl : ∀ k, Main._retreiveDefaults schema !! k = schema !! k ≫= rule_default).
  { intros k. unfold Main._retreiveDefaults. rewrite lookup_fmap.
    destruct (schema !! k) as [rule|] eqn:E; [|done]. cbn.
    by destruct (Hall k rule E) as [d ->]. }
  split; [done|]. split.
  { intros k. unfold Main._retreiveDefaults. rewrite lookup_fmap.
    by rewrite fmap_is_Some. }
  split.
  { unfold cache. cbn. rewrite lookup_app_r by lia.
    by replace (S (length (heap n)) - length (heap n))%nat with 1%nat by lia. }
  cbn. repeat split; try done; lia.
Qed.

(** ** The synchronous write, exactly *)

Lemma _writeJSONFileSync_written (data : loc) (w : World) :
  idle w → fs_healthy (node w) = true →
  Main._writeJSONFileSync data w = (Ret tt, written_sync data w).
Proof.
  intros [Hw Ha] Hh. destruct w as [[o ? ? ? wt ? ? ? ? ? ?] nd].
  destruct o as [? ? ? ? ? wf ?], nd as [? ? ? healthy ? ? ? ? ? ?].
  cbn in Hw, Ha, Hh. subst.
  destruct wt, wf; run_body; reflexivity.
Qed.


Lemma written_sync_this (data : loc) (w : World) :
  let w' := written_sync data w in
  options (this w') = options (this w)
  ∧ cachedSettings (this w') = cachedSettings (this w)
  ∧ _defaults (this w') = _defaults (this w)
  ∧ _schema (this w') = _schema (this w)
  ∧ _check (this w') = _check (this w)
  ∧ _hasInitialized (this w') = _hasInitialized (this w)
  ∧ _windowListeners (this w') = _windowListeners (this w)
  ∧ _isWritingFlag (this w') = false
  ∧ _writeAgainFlag (this w') = _writeAgainFlag (this w)
  ∧ _lastWriteHrtime (this w') = hrtime (node w)
  ∧ _watcher (this w') =
      (if watchFile (options (this w)) then Some (length (fsWait (node w))) else None).
Proof.
  unfold written_sync, rewatched, unwatched.
  destruct (_watcher (this w)) eqn:E; cbn; destruct (watchFile (options (this w))); cbn; rewrite ?E; done.
Qed.

Lemma written_sync_node (data : loc) (w : World) :
  let w' := written_sync data w in
  heap (node w') = heap (node w)
  ∧ hrtime (node w') = hrtime (node w)
  ∧ fs_dir_ok (node w') = fs_dir_ok (node w)
  ∧ fs_healthy (node w') = fs_healthy (node w)
  ∧ fs_file (node w') = Some (text_of data w)
  ∧ timers (node w') = timers (node w)
  ∧ pending (node w') = pending (node w)
  ∧ trace (node w') = FsWriteSync (text_of data w) true :: trace (node w).
Proof.
  unfold written_sync, rewatched, unwatched.
  destruct (_watcher (this w)) eqn:E; cbn; destruct (watchFile (options (this w))); cbn; rewrite ?E; done.
Qed.



Lemma writeSync_written (w : World) :
  idle w → fs_healthy (node w) = true →
  Main.writeSync w = (Ret (inl true), written_sync (cachedSettings (this w)) w).
Proof.
  intros Hi Hh. unfold Main.writeSync, bind at 1, get_this.
  unfold try_catch, bind. by rewrite _writeJSONFileSync_written.
Qed.


Lemma text_of_cache (w : World) :
  text_of (cachedSettings (this w)) w
  = JSON_stringify (cache w) (prettyPrint (options (this w))).
Proof. done. Qed.


(** ** Loading at start-up *)

Lemma fs_readFileSync_exact (w : World) :
  Main.fs_readFileSync w =
    (match fs_file (node w) with
     | Some t => Ret t
     | None => Throw (Error "ENOENT: no such file or directory, open")
     end, reading w).
Proof.
  unfold Main.fs_readFileSync, bind, emit, modify_node, get_node. cbn.
  by destruct (fs_file (node w)).
Qed.

Lemma alloc_exact (o : obj) (w : World) :
  alloc o w = (Ret (length (heap (node w))), allocated o w).
Proof. done. Qed.

Lemma _setCachedSettings_installed (l : loc) (w : World) :
  Main._setCachedSettings l w = (Ret tt, installed l w).
Proof. apply _setCachedSettings_exact. Qed.

Lemma _watchFile_exact (w : World) : Main._watchFile w = (Ret tt, watched w).
Proof. by destruct w as [s []]. Qed.



Lemma throw_first_message_exact (what : string) (errs : list CheckError) (w : World) :
  Main.throw_first_message what errs w =
    (match Main.error_messages errs with
     | m :: _ => Throw (Error (what +:+ m))
     | [] => Ret tt
     end, w).
Proof.
  unfold Main.throw_first_message, Main.error_messages.
  induction errs as [|e errs IH]; [done|].
  change (for_each (e :: errs) ?f) with (f e;; for_each errs f).
  unfold bind. unfold omap in *. cbn [list_omap]. destruct (message e) as [m|]; [done|].
  cbv beta iota delta [ret]. exact IH.
Qed.

Lemma mkdir_ok (h : exn → M unit) (w : World) :
  fs_dir_ok (node w) = true → try_catch Main.fs_mkdirSync h w = (Ret tt, w).
Proof.
  intros H. unfold try_catch, Main.fs_mkdirSync, bind, get_node. by rewrite H.
Qed.

(** What the checker writes into the object it checks. *)

Lemma fill_defaults_lookup (schema : gmap string FieldRule) (o : obj) (k : string) :
  fill_defaults schema o !! k =
    match schema !! k ≫= fills, o !! k with
    | Some d, None | Some d, Some VUndefined | Some d, Some VNull => Some d
    | _, v => v
    end.
Proof.
  unfold fill_defaults. rewrite lookup_merge.
  destruct (schema !! k) as [rule|], (o !! k) as [v|]; cbn; try done.
  by destruct (fills rule), v.
Qed.

Lemma fills_Some (rule : FieldRule) (d : value) :
  fills rule = Some d → rule_default rule = Some d ∧ d ≠ VUndefined ∧ d ≠ VNull.
Proof. unfold fills. destruct (rule_default rule) as [[]|]; naive_solver. Qed.

Lemma fill_defaults_defined (schema : gmap string FieldRule) (o : obj) :
  defined o → defined (fill_defaults schema o).
Proof.
  intros Hd k. rewrite fill_defaults_lookup. specialize (Hd k).
  destruct (schema !! k ≫= fills) as [d|] eqn:E; [|done].
  destruct (schema !! k) as [rule|]; [|done]. cbn in E.
  apply fills_Some in E as (_ & Hu & _).
  destruct (o !! k) as [[]|]; congruence.
Qed.

Lemma fill_defaults_keeps (schema : gmap string FieldRule) (o : obj) (k : string) (v : value) :
  o !! k = Some v → v ≠ VUndefined → v ≠ VNull → fill_defaults schema o !! k = Some v.
Proof.
  intros Hk Hu Hn. rewrite fill_defaults_lookup, Hk.
  by destruct (schema !! k ≫= fills), v.
Qed.

Lemma _fastValidateSettings_exact (l : loc) (w : World) :
  Main._fastValidateSettings l w
  = (Ret (_check (this w) (default ∅ (heap (node w) !! l))), checked l w).
Proof. done. Qed.

Lemma checked_allocated (o : obj) (w : World) :
  checked (length (heap (node w))) (allocated o w)
  = allocated (fill_defaults (_schema (this w)) o) w.
Proof.
  assert (H : ∀ (f : obj → obj) (h : list obj),
             alter f (length h) (h ++ [o]) = h ++ [f o]).
  { intros f h. rewrite alter_app_r_alt by lia.
    by replace (length h - length h)%nat with 0%nat by lia. }
  destruct w as [s []]. unfold checked, allocated. cbn. by rewrite H.
Qed.

Lemma cache_checked (w : World) :
  is_Some (heap (node w) !! cachedSettings (this w)) →
  cache (checked (cachedSettings (this w)) w) = fill_defaults (_schema (this w)) (cache w).
Proof.
  intros [o Ho]. unfold cache, checked. cbn.
  by rewrite list_lookup_alter_eq, Ho.
Qed.

(** The three ways [initSync] completes. *)

Lemma initSync_loaded (w : World) (t : text) (doc : obj) :
  fs_dir_ok (node w) = true → fs_file (node w) = Some t → JSON_parse t = Some doc →
  let w3 := installed (length (heap (node w))) (allocated doc (reading w)) in
  (validateFile (options (this w)) = false ∨ _check (this w) (cache w3) = CheckTrue) →
  Main.initSync w
  = (Ret tt, initialized (rewatched (if validateFile (options (this w))
                                     then checked (cachedSettings (this w3)) w3
                                     else w3))).
Proof.
  intros Hd Hf Hp w3 Hok. unfold Main.initSync.
  unfold bind at 1. rewrite mkdir_ok by done.
  unfold try_catch, bind at 1. rewrite fs_readFileSync_exact, Hf, Hp.
  unfold bind at 1. rewrite alloc_exact.
  unfold bind at 1. rewrite _setCachedSettings_installed.
  change (heap (node (reading w))) with (heap (node w)). fold w3.
  unfold bind at 1, get_this at 1.
  assert (Ho : options (this w3) = options (this w))
    by (subst w3; unfold installed; by destruct (deepEqual _ _)).
  assert (Hc : _check (this w3) = _check (this w))
    by (subst w3; unfold installed; by destruct (deepEqual _ _)).
  rewrite Ho.
  set (w4 := if validateFile (options (this w))
             then checked (cachedSettings (this w3)) w3 else w3).
  assert (Ho4 : options (this w4) = options (this w))
    by (subst w4; by destruct (validateFile _)).
  assert (Hv : (if validateFile (options (this w))
                then Main._validateSettingsSync (cachedSettings (this w3)) else ret tt) w3
               = (Ret tt, w4)).
  { subst w4. destruct (validateFile (options (this w))); [|done].
    destruct Hok as [?|Hok]; [done|].
    unfold Main._validateSettingsSync, bind at 1.
    rewrite _fastValidateSettings_exact.
    change (default ∅ (heap (node w3) !! cachedSettings (this w3))) with (cache w3).
    by rewrite Hc, Hok. }
  unfold bind at 1. rewrite Hv.
  unfold bind at 1, get_this at 1. rewrite Ho4.
  unfold bind at 1.
  replace ((if watchFile (options (this w)) then Main._watchFile else ret tt) w4)
    with (Ret tt, rewatched w4); [done|].
  unfold rewatched. rewrite Ho4. destruct (watchFile _); [|done].
  by rewrite _watchFile_exact.
Qed.



(** Projections of the worlds above. *)

Lemma filter_rev_fmap_nil {A} (f : effect → bool) (g : A → effect) (ls : list A) :
  (∀ x, f (g x) = false) → List.filter f (rev (g <$> ls)) = [].
Proof.
  intros H. induction ls as [|x ls IH]; [done|].
  cbn. rewrite List.filter_app, IH. cbn. by rewrite H.
Qed.

Lemma filter_rev_fmap_all {A} (f : effect → bool) (g : A → effect) (ls : list A) :
  (∀ x, f (g x) = true) → length (List.filter f (rev (g <$> ls))) = length ls.
Proof.
  intros H. induction ls as [|x ls IH]; [done|].
  cbn. rewrite List.filter_app, length_app, IH. cbn. rewrite H. cbn. lia.
Qed.

Lemma physical_writes_notify w : physical_writes (notify w) = physical_writes w.
Proof.
  unfold physical_writes, notify. cbn. by rewrite List.filter_app, filter_rev_fmap_nil.
Qed.

Lemma file_reads_notify w : file_reads (notify w) = file_reads w.
Proof.
  unfold file_reads, notify. cbn. by rewrite List.filter_app, filter_rev_fmap_nil.
Qed.

Lemma notifications_notify w :
  notifications (notify w) = (length (listeners w) + notifications w)%nat.
Proof.
  unfold notifications, notify. cbn.
  by rewrite List.filter_app, length_app, filter_rev_fmap_all.
Qed.

Lemma cache_installed (l : loc) (w : World) :
  defined (default ∅ (heap (node w) !! l)) →
  cache (installed l w) = default ∅ (heap (node w) !! l).
Proof.
  intros Hdef. unfold installed. destruct (deepEqual _ _) eqn:E; [|done].
  symmetry. by apply deepEqual_defined.
Qed.

Lemma heap_allocated_fresh (o : obj) (w : World) :
  heap (node (allocated o w)) !! length (heap (node w)) = Some o.
Proof.
  cbn. rewrite lookup_app_r by lia.
  by replace (length (heap (node w)) - length (heap (node w)))%nat with 0%nat by lia.
Qed.

Lemma cache_installed_fresh (o : obj) (w : World) :
  defined o → cache (installed (length (heap (node w))) (allocated o w)) = o.
Proof.
  intros Hdef. rewrite cache_installed; by rewrite heap_allocated_fresh.
Qed.

Lemma installed_frame (l : loc) (w : World) :
  let w' := installed l w in
  (fs_file (node w') = fs_file (node w)
   ∧ heap (node w') = heap (node w)
   ∧ physical_writes w' = physical_writes w
   ∧ file_reads w' = file_reads w
   ∧ pending (node w') = pending (node w)
   ∧ timers (node w') = timers (node w))
  ∧ (_hasInitialized (this w') = _hasInitialized (this w)
     ∧ _defaults (this w') = _defaults (this w)
     ∧ _windowListeners (this w') = _windowListeners (this w)
     ∧ _watcher (this w') = _watcher (this w)
     ∧ options (this w') = options (this w)).
Proof.
  unfold installed. destruct (deepEqual _ _); [done|].
  cbv zeta. rewrite physical_writes_notify, file_reads_notify. done.
Qed.

Lemma rewatched_frame (w : World) :
  let w' := rewatched w in
  (fs_file (node w') = fs_file (node w)
   ∧ heap (node w') = heap (node w)
   ∧ trace (node w') = trace (node w)
   ∧ pending (node w') = pending (node w)
   ∧ timers (node w') = timers (node w))
  ∧ set_watcher (_watcher (this w)) (this w') = this w.
Proof.
  unfold rewatched. destruct (watchFile _); destruct w as [[] []]; done.
Qed.




Lemma installed_fresh_valid (o : obj) (w : World) :
  is_Some (heap (node w) !! cachedSettings (this w)) →
  let w3 := installed (length (heap (node w))) (allocated o w) in
  is_Some (heap (node w3) !! cachedSettings (this w3)).
Proof.
  intros [c Hc]. cbv zeta. unfold installed. destruct (deepEqual _ _).
  - cbn. exists c. by apply lookup_app_l_Some.
  - cbn. exists o. rewrite lookup_app_r by lia.
    by replace (length (heap (node w)) - length (heap (node w)))%nat with 0%nat by lia.
Qed.

Lemma cache_rewatched w : cache (rewatched w) = cache w.
Proof. unfold rewatched. by destruct (watchFile _). Qed.


Lemma physical_writes_rewatched w : physical_writes (rewatched w) = physical_writes w.
Proof. unfold rewatched. by destruct (watchFile _). Qed.

Lemma file_reads_rewatched w : file_reads (rewatched w) = file_reads w.
Proof. unfold rewatched. by destruct (watchFile _). Qed.

Lemma fs_file_rewatched w : fs_file (node (rewatched w)) = fs_file (node w).
Proof. unfold rewatched. by destruct (watchFile _). Qed.


Lemma defined_filter (o : obj) : defined (filter (fun kv => kv.2 ≠ VUndefined) o).
Proof.
  intros k Hk. apply map_lookup_filter_Some in Hk as [_ Hk]. by apply Hk.
Qed.

Lemma filter_defined (o : obj) :
  defined o → filter (fun kv => kv.2 ≠ VUndefined) o = o.
Proof.
  intros Hd. apply map_filter_id. intros k v Hk. cbn. intros ->. by apply (Hd k).
Qed.

(** X11. [initSync()] on a file that parses to an object without [undefined]
    and passes validation (or with file validation off), on a store whose
    cache field names an object: it returns, the store is initialized, and
    the cache holds the content of the file, completed by the checker when
    file validation is on: a field of the schema for which the file has no
    value, or [null], holds its schema default. [getAll()] returns that
    object; the file is left as it was, nothing is written and the file was
    read once. *)
Theorem initSync_loads_file (w : World) (t : text) (doc : obj) :
  fs_dir_ok (node w) = true →
  fs_file (node w) = Some t → JSON_parse t = Some doc → defined doc →
  is_Some (heap (node w) !! cachedSettings (this w)) →
  (validateFile (options (this w)) = false ∨ _check (this w) doc = CheckTrue) →
  let loaded := if validateFile (options (this w))
                then fill_defaults (_schema (this w)) doc else doc in
  let r := Main.initSync w in
  r.1 = Ret tt
  ∧ _hasInitialized (this r.2) = true
  ∧ cache r.2 = loaded
  ∧ Main.getAll r.2 = (Ret loaded, r.2)
  ∧ fs_file (node r.2) = Some t
  ∧ physical_writes r.2 = physical_writes w
  ∧ file_reads r.2 = S (file_reads w).
Proof.
  intros Hd Hf Hp Hdef Hvalid Hok loaded r. subst r.
  pose proof (cache_installed_fresh doc (reading w) Hdef) as Hc.
  change (heap (node (reading w))) with (heap (node w)) in Hc.
  pose proof (installed_fresh_valid doc (reading w) Hvalid) as Hvalid3.
  change (heap (node (reading w))) with (heap (node w)) in Hvalid3. cbv zeta in Hvalid3.
  rewrite (initSync_loaded w t doc) by (done || by rewrite Hc).
  cbn [fst snd].
  destruct (installed_frame (length (heap (node w))) (allocated doc (reading w)))
    as ((Hfile & _ & Hpw & Hfr & _) & _).
  cbv zeta in Hfile, Hpw, Hfr.
  set (w3 := installed _ _) in *.
  assert (Hsch : _schema (this w3) = _schema (this w))
    by (subst w3; unfold installed; by destruct (deepEqual _ _)).
  set (w4 := if validateFile _ then checked _ w3 else w3).
  assert (Hcache : cache (initialized (rewatched w4)) = loaded).
  { change (cache (initialized ?x)) with (cache x). rewrite cache_rewatched.
    subst w4 loaded. destruct (validateFile _); [|done].
    rewrite cache_checked by done. by rewrite Hsch, Hc. }
  assert (H4 : fs_file (node w4) = fs_file (node w3)
               ∧ physical_writes w4 = physical_writes w3
               ∧ file_reads w4 = file_reads w3)
    by (subst w4; by destruct (validateFile _)).
  destruct H4 as (Hfile4 & Hpw4 & Hfr4).
  split; [done|]. split; [done|]. split; [done|].
  split.
  { unfold Main.getAll, bind, get_this. cbn [negb initialized this set_this set_hasInitialized _hasInitialized].
    change (deref ?l ?x) with (Ret (cache x), x). by rewrite Hcache. }
  split.
  { change (fs_file (node (initialized ?x))) with (fs_file (node x)).
    by rewrite fs_file_rewatched, Hfile4, Hfile. }
  split.
  { change (physical_writes (initialized ?x)) with (physical_writes x).
    by rewrite physical_writes_rewatched, Hpw4, Hpw. }
  change (file_reads (initialized ?x)) with (file_reads x).
  by rewrite file_reads_rewatched, Hfr4, Hfr.
Qed.

(** The sample store starts on the sample file, and on a file that holds
    the empty object: the cache then holds the default size. *)
Lemma initSync_loads_file_witness :
  let w := sample_new defaultOptions in
  let w' := new_store sample_schema sample_check defaultOptions
              (fresh_node (Some (Json true ∅))) in
  let r := Main.initSync w in
  let r' := Main.initSync w' in
  (r.1 = Ret tt
   ∧ _hasInitialized (this r.2) = true
   ∧ cache r.2 = {[ "size" := VNum 25 ]}
   ∧ Main.getAll r.2 = (Ret {[ "size" := VNum 25 ]}, r.2)
   ∧ fs_file (node r.2) = Some sample_file
   ∧ physical_writes r.2 = physical_writes w
   ∧ file_reads r.2 = S (file_reads w))
  ∧ (r'.1 = Ret tt
     ∧ _hasInitialized (this r'.2) = true
     ∧ cache r'.2 = {[ "size" := VNum 25 ]}
     ∧ Main.getAll r'.2 = (Ret {[ "size" := VNum 25 ]}, r'.2)
     ∧ fs_file (node r'.2) = Some (Json true ∅)
     ∧ physical_writes r'.2 = physical_writes w'
     ∧ file_reads r'.2 = S (file_reads w')).
Proof.
  intros w w' r r'. split.
  - destruct (initSync_loads_file w sample_file {[ "size" := VNum 25 ]})
      as (H1 & H2 & H3 & H4 & H5 & H6 & H7); try (vm_compute; reflexivity).
    + intros k. destruct (decide (k = "size")) as [->|Hne].
      * by rewrite lookup_singleton_eq.
      * by rewrite lookup_singleton_ne.
    + vm_compute; eauto.
    + right. vm_compute; reflexivity.
    + fold r in H1, H2, H3, H4, H5, H6, H7.
      split; [exact H1|]. split; [exact H2|].
      split; [rewrite H3; vm_compute; reflexivity|].
      split; [rewrite H4; vm_compute; reflexivity|].
      split; [exact H5|]. split; [exact H6|exact H7].
  - destruct (initSync_loads_file w' (Json true ∅) ∅)
      as (H1 & H2 & H3 & H4 & H5 & H6 & H7); try (vm_compute; reflexivity).
    + intros k. by rewrite lookup_empty.
    + vm_compute; eauto.
    + right. vm_compute; reflexivity.
    + fold r' in H1, H2, H3, H4, H5, H6, H7.
      split; [exact H1|]. split; [exact H2|].
      split; [rewrite H3; vm_compute; reflexivity|].
      split; [rewrite H4; vm_compute; reflexivity|].
      split; [exact H5|]. split; [exact H6|exact H7].
Defined.



(** X13. [initSync()] fails without the folder or the file. If the folder
    cannot be created it throws an Error and leaves the world as it was. If
    the folder is there but the file is not, it throws an Error as well:
    the store keeps its fields (it does not become initialized), the cache
    is unchanged, no file is created and nothing is written. *)
Theorem initSync_needs_folder_and_file (w : World) :
  (fs_dir_ok (node w) = false →
   let r := Main.initSync w in
   (∃ msg, r.1 = Throw (Error msg)) ∧ r.2 = w)
  ∧ (fs_dir_ok (node w) = true → fs_file (node w) = None →
     let r := Main.initSync w in
     (∃ msg, r.1 = Throw (Error msg))
     ∧ this r.2 = this w
     ∧ cache r.2 = cache w
     ∧ fs_file (node r.2) = None
     ∧ physical_writes r.2 = physical_writes w).
Proof.
  split.
  - intros Hd r.
    assert (Hr : r = (Throw (Error "Cannot create folder. Make sure that you have the right writing permissions."), w)).
    { subst r. unfold Main.initSync, bind, try_catch, Main.fs_mkdirSync, bind, get_node.
      by rewrite Hd. }
    rewrite Hr. split; [by eexists|done].
  - intros Hd Hf r.
    assert (Hr : r = (Throw (Error "ENOENT: no such file or directory, open"), reading w)).
    { subst r. unfold Main.initSync.
      unfold bind at 1. rewrite mkdir_ok by done.
      unfold try_catch, bind at 1. by rewrite fs_readFileSync_exact, Hf. }
    rewrite Hr. split; [by eexists|]. by repeat split.
Qed.

(** A store starts without a folder, and without a file. *)
Lemma initSync_needs_folder_and_file_witness :
  let w := new_store sample_schema sample_check defaultOptions
             (set_fs_dir_ok false (fresh_node None)) in
  let w' := new_store sample_schema sample_check defaultOptions (fresh_node None) in
  let r := Main.initSync w in
  let r' := Main.initSync w' in
  ((∃ msg, r.1 = Throw (Error msg)) ∧ r.2 = w)
  ∧ ((∃ msg, r'.1 = Throw (Error msg))
     ∧ this r'.2 = this w'
     ∧ cache r'.2 = cache w'
     ∧ fs_file (node r'.2) = None
     ∧ physical_writes r'.2 = physical_writes w').
Proof.
  intros w w'. split.
  - apply (initSync_needs_folder_and_file w). vm_compute; reflexivity.
  - apply (initSync_needs_folder_and_file w'); vm_compute; reflexivity.
Defined.


(** X15. What [writeSync()] saved is what a later [initSync()] loads, as
    the checker completes it. If a store with no write under way saves to a
    disk that accepts writes, then any store that finds that file (in a
    folder it can create, its cache field naming an object, with file
    validation off or with a checker that accepts the saved object)
    initializes with the saved cache less its [undefined] properties and,
    when file validation is on, with the schema default in each field of
    its schema for which the saved cache has no value, or [null]. Every
    value of the saved cache other than [undefined] and [null] is found
    again under its key. With file validation off the cache equals the
    saved cache if that held no [undefined]. *)
Theorem saved_settings_reload (w1 w2 : World) :
  idle w1 → fs_healthy (node w1) = true →
  fs_dir_ok (node w2) = true →
  is_Some (heap (node w2) !! cachedSettings (this w2)) →
  fs_file (node w2) = fs_file (node (exec Main.writeSync w1)) →
  let saved := filter (fun kv => kv.2 ≠ VUndefined) (cache w1) in
  (validateFile (options (this w2)) = false ∨ _check (this w2) saved = CheckTrue) →
  let r := Main.initSync w2 in
  r.1 = Ret tt
  ∧ _hasInitialized (this r.2) = true
  ∧ cache r.2 = (if validateFile (options (this w2))
                 then fill_defaults (_schema (this w2)) saved else saved)
  ∧ (∀ k v, cache w1 !! k = Some v → v ≠ VUndefined → v ≠ VNull →
       cache r.2 !! k = Some v)
  ∧ (validateFile (options (this w2)) = false → defined (cache w1) →
       cache r.2 = cache w1).
Proof.
  intros Hi Hh Hd Hvalid Hf saved Hok r.
  unfold exec in Hf. rewrite writeSync_written in Hf by done. cbn [snd] in Hf.
  destruct (written_sync_node (cachedSettings (this w1)) w1)
    as (_ & _ & _ & _ & Hfile & _).
  rewrite Hfile, text_of_cache in Hf. unfold JSON_stringify in Hf. fold saved in Hf.
  destruct (initSync_loads_file w2 (Json (prettyPrint (options (this w1))) saved) saved)
    as (H1 & H2 & H3 & _); [done|exact Hf|done|apply defined_filter|done|done|].
  fold r in H1, H2, H3.
  split; [done|]. split; [done|]. split; [done|].
  split.
  - intros k v Hk Hu Hn. rewrite H3.
    assert (Hs : saved !! k = Some v) by (by apply map_lookup_filter_Some).
    destruct (validateFile _); [|done]. by apply fill_defaults_keeps.
  - intros Hoff Hdef. rewrite H3, Hoff. subst saved. by apply filter_defined.
Qed.

(** The sample store saves a size of 30 and a new store starts on that
    file; it saves an empty cache, after [unset('size')], and the new store
    starts with the default size. *)
Lemma saved_settings_reload_witness :
  let w1 := exec (Main.set size_key (VNum 30)) (sample_ready defaultOptions) in
  let w1' := exec (Main.unset "size") (sample_ready defaultOptions) in
  let w2 := set_node (set_fs_file (fs_file (node (exec Main.writeSync w1)))
                        (node (sample_new defaultOptions))) (sample_new defaultOptions) in
  let w2' := set_node (set_fs_file (fs_file (node (exec Main.writeSync w1')))
                         (node (sample_new defaultOptions))) (sample_new defaultOptions) in
  let r := Main.initSync w2 in
  let r' := Main.initSync w2' in
  (cache w1 = {[ "size" := VNum 30 ]}
   ∧ r.1 = Ret tt
   ∧ _hasInitialized (this r.2) = true
   ∧ cache r.2 = {[ "size" := VNum 30 ]})
  ∧ (cache w1' = ∅
     ∧ r'.1 = Ret tt
     ∧ _hasInitialized (this r'.2) = true
     ∧ cache r'.2 = {[ "size" := VNum 25 ]}).
Proof.
  intros w1 w1' w2 w2' r r'. split.
  - split; [vm_compute; reflexivity|].
    destruct (saved_settings_reload w1 w2) as (H1 & H2 & H3 & _);
      try (vm_compute; reflexivity).
    + split; vm_compute; reflexivity.
    + vm_compute; eauto.
    + right. vm_compute; reflexivity.
    + split; [exact H1|]. split; [exact H2|].
      fold r in H3. rewrite H3. vm_compute; reflexivity.
  - split; [vm_compute; reflexivity|].
    destruct (saved_settings_reload w1' w2') as (H1 & H2 & H3 & _);
      try (vm_compute; reflexivity).
    + split; vm_compute; reflexivity.
    + vm_compute; eauto.
    + right. vm_compute; reflexivity.
    + split; [exact H1|]. split; [exact H2|].
      fold r' in H3. rewrite H3. vm_compute; reflexivity.
Defined.

(** ** Operations that stay in memory *)

Ltac memory_leaf :=
  let w := fresh "w" in
  intros w; destruct w as [[] []];
  unfold memory_only, unchanged, obs_outside; by cbn.

Ltac memory_tac :=
  repeat first [ solve [eauto with mem] | preserves_step ];
  try solve [memory_leaf].

Create HintDb mem discriminated.

Lemma emit_memory_only e : preserves memory_only (emit e).
Proof. memory_leaf. Qed.

Lemma alloc_memory_only o : preserves memory_only (alloc o).
Proof. memory_leaf. Qed.

Lemma update_memory_only l f : preserves memory_only (update l f).
Proof. memory_leaf. Qed.

Lemma set_cachedSettings_memory_only l :
  preserves memory_only (modify_this (set_cachedSettings l)).
Proof. memory_leaf. Qed.

#[global] Hint Resolve emit_memory_only alloc_memory_only update_memory_only
  set_cachedSettings_memory_only : mem.

Lemma schema_default_memory_only key : preserves memory_only (Main.schema_default key).
Proof. unfold Main.schema_default. memory_tac. Qed.
#[global] Hint Resolve schema_default_memory_only : mem.

Lemma getDefault_memory_only key : preserves memory_only (Main.getDefault key).
Proof. unfold Main.getDefault. memory_tac. Qed.
#[global] Hint Resolve getDefault_memory_only : mem.

Lemma _fastValidateSettings_memory_only l :
  preserves memory_only (Main._fastValidateSettings l).
Proof. unfold Main._fastValidateSettings. memory_tac. Qed.
#[global] Hint Resolve _fastValidateSettings_memory_only : mem.

Lemma validate_memory_only key v : preserves memory_only (Main.validate key v).
Proof. unfold Main.validate. memory_tac. Qed.
#[global] Hint Resolve validate_memory_only : mem.

Lemma _sendIPCUpdateSettings_memory_only : preserves memory_only Main._sendIPCUpdateSettings.
Proof. unfold Main._sendIPCUpdateSettings. memory_tac. Qed.
#[global] Hint Resolve _sendIPCUpdateSettings_memory_only : mem.

Lemma _setCachedSettings_memory_only l : preserves memory_only (Main._setCachedSettings l).
Proof. unfold Main._setCachedSettings. memory_tac. Qed.
#[global] Hint Resolve _setCachedSettings_memory_only : mem.

Lemma _setCachedSettingsKey_memory_only key v :
  preserves memory_only (Main._setCachedSettingsKey key v).
Proof. unfold Main._setCachedSettingsKey. memory_tac. Qed.
#[global] Hint Resolve _setCachedSettingsKey_memory_only : mem.

Lemma _set_memory_only key v : preserves memory_only (Main._set key v).
Proof. unfold Main._set. memory_tac. Qed.
#[global] Hint Resolve _set_memory_only : mem.

Lemma set_entries_memory_only entries : preserves memory_only (Main.set_entries entries).
Proof.
  unfold Main.set_entries.
  apply (preserves_foldl_bind memory_only
           (fun g kv => let* setResultArray := Main._set kv.1 kv.2 in
                        if negb (status setResultArray)
                        then ret (false, g.2 ++ [errors setResultArray])
                        else ret g)).
  - memory_tac.
  - intros g kv. memory_tac.
Qed.
#[global] Hint Resolve set_entries_memory_only : mem.

Lemma set_memory_only key v : preserves memory_only (Main.set key v).
Proof. unfold Main.set. memory_tac. Qed.

Lemma throw_first_message_memory_only what errs :
  preserves memory_only (Main.throw_first_message what errs).
Proof. unfold Main.throw_first_message. memory_tac. Qed.
#[global] Hint Resolve throw_first_message_memory_only : mem.

Lemma run_call_memory_only (c : call) (w : World) :
  is_in_memory c = true → memory_only w (run_call c w).
Proof.
  destruct c; try discriminate; intros _; unfold run_call, exec;
    match goal with |- memory_only _ (?m _).2 => assert (H : preserves memory_only m) end;
    try apply H.
  - unfold Main.get. memory_tac.
  - memory_tac.
  - memory_tac.
  - apply set_memory_only.
  - unfold Main.getAll. memory_tac.
  - unfold Main.getDefaults. memory_tac.
  - unfold Main.setAll. memory_tac.
  - unfold Main.unset. memory_tac.
  - unfold Main.has. memory_tac.
  - unfold Main.reset. memory_tac.
Qed.

Lemma run_now_in_memory (cs : list call) (w : World) :
  Forall (fun c => is_in_memory c = true) cs →
  memory_only w (run_now (Call <$> cs) w) ∧ quiet w (run_now (Call <$> cs) w).
Proof.
  intros Hall. revert w. induction Hall as [|c cs Hc _ IH]; intros w.
  - split; reflexivity.
  - rewrite fmap_cons, run_now_cons. destruct (IH (deliver (Call c) w)) as [H1 H2].
    split; (etrans; [|eassumption]).
    + by apply run_call_memory_only.
    + destruct c; try discriminate; cbn [deliver run_call]; unfold exec;
        first [ apply get_quiet | apply getDefault_quiet | apply validate_quiet
              | apply set_quiet | apply getAll_quiet | apply getDefaults_quiet
              | apply setAll_quiet | apply unset_quiet | apply has_quiet
              | apply reset_quiet ].
Qed.

(** X7. The calls that work on the cache ([get], [getDefault], [validate],
    [set], [getAll], [getDefaults], [setAll], [unset], [has], [reset]),
    in any number and order, never touch the file, start or settle a
    write, read the file, set a timer, or change the options, the
    initialization flag, the reference to the defaults or the list of
    listeners. *)
Theorem in_memory_calls_leave_disk_alone (cs : list call) (w : World) :
  Forall (fun c => is_in_memory c = true) cs →
  let w' := run_now (Call <$> cs) w in
  fs_file (node w') = fs_file (node w)
  ∧ physical_writes w' = physical_writes w
  ∧ file_reads w' = file_reads w
  ∧ in_flight w' = in_flight w
  ∧ timers (node w') = timers (node w)
  ∧ options (this w') = options (this w)
  ∧ _hasInitialized (this w') = _hasInitialized (this w)
  ∧ _defaults (this w') = _defaults (this w)
  ∧ _windowListeners (this w') = _windowListeners (this w).
Proof.
  intros Hall. cbv zeta.
  destruct (run_now_in_memory cs w Hall) as [Hm Hq].
  unfold memory_only, unchanged, obs_outside in Hm.
  unfold quiet, unchanged, obs_write, obs_clock in Hq.
  injection Hm as ? ? ? ? ? ? ? ? ? ? ? ? ? ? ?.
  injection Hq as ? ? ? ? ? ?.
  unfold in_flight. repeat split; congruence.
Qed.

(** ** Setting and saving in one call *)


(** X17. When [set] does not return a true status (it returns a failure or
    the error it caught, or it throws), [setAndWriteSync] hands back what
    [set] returned or threw and stops there: the world is the one [set]
    left, the file is untouched and no write was made. *)
Theorem setAndWriteSync_failed_set (w : World) (key : Main.key_arg) (v : value) :
  (∀ res, (Main.set key v w).1 = Ret res → Main.result_status res = false) →
  let s := Main.set key v w in
  let r := Main.setAndWriteSync key v w in
  r.1 = match s.1 with
        | Ret res => Ret (Main.Untouched res)
        | Throw e => Throw e
        end
  ∧ r.2 = s.2
  ∧ fs_file (node r.2) = fs_file (node w)
  ∧ physical_writes r.2 = physical_writes w.
Proof.
  intros Hfail s r.
  pose proof (set_memory_only key v w) as Hm.
  pose proof (set_quiet key v w) as Hq.
  assert (Hr : r.1 = match s.1 with
                     | Ret res => Ret (Main.Untouched res)
                     | Throw e => Throw e
                     end ∧ r.2 = s.2).
  { subst r s. unfold Main.setAndWriteSync, bind.
    destruct (Main.set key v w) as [[res|e] w'] eqn:E; [|done].
    cbn [fst snd] in *. by rewrite (Hfail res eq_refl). }
  destruct Hr as [Hr1 Hr2]. split; [done|]. split; [done|]. rewrite Hr2. subst s.
  unfold memory_only, unchanged, obs_outside in Hm.
  unfold quiet, unchanged, obs_write, obs_clock in Hq.
  injection Hm as ? ? ? ? ? ? ? ? ? ? ? ? ? ? ?.
  injection Hq as ? ? ? ? ? ?. done.
Qed.

(** The sample store, default-on-failure off, is asked to set and save a size of 55. *)
Lemma setAndWriteSync_failed_set_witness :
  let w := sample_ready opts_no_default in
  let s := Main.set size_key (VNum 55) w in
  let r := Main.setAndWriteSync size_key (VNum 55) w in
  r.1 = match s.1 with
        | Ret res => Ret (Main.Untouched res)
        | Throw e => Throw e
        end
  ∧ r.2 = s.2
  ∧ fs_file (node r.2) = fs_file (node w)
  ∧ physical_writes r.2 = physical_writes w.
Proof.
  intros w.
  apply (setAndWriteSync_failed_set w size_key (VNum 55)).
  intros res. vm_compute. intros [= <-]. reflexivity.
Defined.

(** ** Switching the watcher off *)

Lemma disableFileWatcher_exact (w : World) :
  Main.disableFileWatcher w =
    match _watcher (this w) with
    | Some h =>
        if watchFile (options (this w)) then
          (Ret true,
           {| this := set_options (set_watchFile false (options (this w)))
                        (set_watcher None (this w));
              node := set_fs_watchers
                        (List.filter (fun c => negb (c =? h)%nat) (fs_watchers (node w)))
                        (node w) |})
        else (Ret false, w)
    | None => (Ret false, w)
    end.
Proof.
  unfold Main.disableFileWatcher, bind, get_this.
  destruct (_watcher (this w)); [|done]. by destruct (watchFile _).
Qed.

Lemma elem_of_filter_ne (h c : nat) (l : list nat) :
  c ∈ List.filter (fun c => negb (c =? h)%nat) l ↔ c ∈ l ∧ c ≠ h.
Proof.
  rewrite !list_elem_of_In, List.filter_In, negb_true_iff, Nat.eqb_neq. done.
Qed.

(** X18. [disableFileWatcher()] returns [true] exactly when a watcher is
    open and the watch option is on. In that case the watcher field is
    cleared, the option is turned off, the handle that was in the watcher
    field (and no other) is closed, and the cache is unchanged; otherwise
    the world is unchanged. A second call always returns [false] and changes
    nothing. *)
Theorem disableFileWatcher_cases (w : World) :
  let r := Main.disableFileWatcher w in
  let on := match _watcher (this w) with
            | Some _ => watchFile (options (this w))
            | None => false
            end in
  r.1 = Ret on
  ∧ (if on
     then _watcher (this r.2) = None
          ∧ watchFile (options (this r.2)) = false
          ∧ (∀ c, c ∈ fs_watchers (node r.2) ↔
                  c ∈ fs_watchers (node w) ∧ Some c ≠ _watcher (this w))
          ∧ cache r.2 = cache w
     else r.2 = w)
  ∧ Main.disableFileWatcher r.2 = (Ret false, r.2).
Proof.
  cbv zeta. rewrite (disableFileWatcher_exact w).
  destruct (_watcher (this w)) as [h|] eqn:Hw.
  - destruct (watchFile (options (this w))) eqn:Ho; cbn [fst snd].
    + split; [done|]. split.
      * split; [done|]. split; [done|]. split; [|done].
        intros c. cbn. rewrite elem_of_filter_ne. split.
        -- intros [? ?]. split; [done|]. congruence.
        -- intros [? ?]. split; [done|]. congruence.
      * by rewrite disableFileWatcher_exact.
    + split; [done|]. split; [done|]. by rewrite disableFileWatcher_exact, Hw, Ho.
  - cbn [fst snd]. split; [done|]. split; [done|].
    by rewrite disableFileWatcher_exact, Hw.
Qed.

(** X19. A watcher that was disabled stays off across writes: on a store
    that watches its file (no write under way, the disk accepting writes),
    after [disableFileWatcher()] a successful [writeSync()] opens no
    watcher, and the closed handle stays closed. *)
Theorem disabled_watcher_stays_off (w : World) (h : nat) :
  _watcher (this w) = Some h → watchFile (options (this w)) = true →
  idle w → fs_healthy (node w) = true →
  let w1 := exec Main.disableFileWatcher w in
  let w2 := exec Main.writeSync w1 in
  _watcher (this w2) = None
  ∧ fs_watchers (node w2) = fs_watchers (node w1)
  ∧ h ∉ fs_watchers (node w2).
Proof.
  intros Hw Ho Hi Hh w1 w2. subst w2 w1. unfold exec.
  rewrite (disableFileWatcher_exact w), Hw, Ho. cbn [snd].
  set (w1 := {| this := _; node := _ |}).
  rewrite writeSync_written by done. cbn [snd].
  unfold written_sync, rewatched, unwatched. cbn.
  split; [done|]. split; [done|].
  rewrite elem_of_filter_ne. by intros [_ ?].
Qed.





(** ** Events the watcher drops *)

Lemma watch_listener_exact (c : nat) (eventType : string) (filename : option string)
    (w : World) :
  Main.watch_listener c eventType filename w =
    (Ret tt,
     if bool_decide (filename ≠ None ∧ filename ≠ Some "") && bool_decide (eventType = "change")
        && negb (default false (fsWait (node w) !! c) || _isWritingFlag (this w))
        && negb (bool_decide (hrtime (node w) - _lastWriteHrtime (this w) < Main.IGNORE_WINDOW))
     then set_node (set_timers (timers (node w) ++ [(hrtime (node w) + Main.TIMER_DELAY, c)])
                     (set_fsWait (<[c := true]> (fsWait (node w))) (node w))) w
     else w).
Proof.
  unfold Main.watch_listener, bind, get_this, get_node.
  destruct (bool_decide (filename ≠ None ∧ filename ≠ Some "")); [|done].
  destruct (bool_decide (eventType = "change")); [|done]. cbn [andb].
  destruct (default false (fsWait (node w) !! c) || _isWritingFlag (this w)); [done|].
  cbn [andb negb].
  by destruct (bool_decide (hrtime (node w) - _lastWriteHrtime (this w) < Main.IGNORE_WINDOW)).
Qed.

(** X21. Which events the watcher's listener drops. It leaves the world
    as it is if the event is not a 'change', comes without a file name,
    arrives while its timer is pending or while a write is under way, or
    arrives less than 1e10 ns after the store's last write. In every other
    case it sets a timer due one second later and marks itself waiting,
    without reading the file or touching the store. *)
Theorem watch_listener_drops (c : nat) (eventType : string) (filename : option string)
    (w : World) :
  (dropped c eventType filename w →
     Main.watch_listener c eventType filename w = (Ret tt, w))
  ∧ (¬ dropped c eventType filename w →
     let r := Main.watch_listener c eventType filename w in
     r.1 = Ret tt
     ∧ timers (node r.2) = timers (node w) ++ [(hrtime (node w) + Main.TIMER_DELAY, c)]
     ∧ fsWait (node r.2) = <[c := true]> (fsWait (node w))
     ∧ this r.2 = this w
     ∧ file_reads r.2 = file_reads w).
Proof.
  rewrite watch_listener_exact. unfold dropped. split.
  - intros H.
    destruct (bool_decide (filename ≠ None ∧ filename ≠ Some "")) eqn:E1; [|done].
    destruct (bool_decide (eventType = "change")) eqn:E2; [|done].
    destruct (default false (fsWait (node w) !! c) || _isWritingFlag (this w)) eqn:E3; [done|].
    destruct (bool_decide (hrtime (node w) - _lastWriteHrtime (this w) < Main.IGNORE_WINDOW))
      eqn:E4; [done|].
    exfalso. apply bool_decide_eq_true in E1 as [? ?], E2.
    apply orb_false_iff in E3 as [E3 E3']. apply bool_decide_eq_false in E4.
    destruct H as [?|[?|[?|[H|[?|?]]]]]; try done; try congruence.
    by rewrite H in E3.
  - intros H.
    rewrite (bool_decide_eq_true_2 (filename ≠ None ∧ filename ≠ Some "")).
    2:{ split; intros ?; apply H; auto. }
    rewrite (bool_decide_eq_true_2 (eventType = "change")).
    2:{ destruct (decide (eventType = "change")); [done|]. destruct H; auto. }
    replace (default false (fsWait (node w) !! c)) with false.
    2:{ destruct (fsWait (node w) !! c) as [[]|] eqn:E; try done.
        destruct H; auto. }
    replace (_isWritingFlag (this w)) with false.
    2:{ destruct (_isWritingFlag (this w)) eqn:E; [|done]. destruct H; auto 10. }
    rewrite (bool_decide_eq_false_2
      (hrtime (node w) - _lastWriteHrtime (this w) < Main.IGNORE_WINDOW)).
    2:{ intros ?. apply H. auto 10. }
    cbn. done.
Qed.

Lemma for_each_unchanged {A} (l : list A) (f : A → M unit) (w : World) :
  (∀ x, f x w = (Ret tt, w)) → for_each l f w = (Ret tt, w).
Proof.
  intros H. induction l as [|x l IH]; [done|].
  change (for_each (x :: l) f) with (f x;; for_each l f).
  unfold bind. by rewrite H.
Qed.

(** X22. The quiescence window. After a successful [writeSync()] (no write
    under way before it, no timer pending), a file event of any kind that arrives less than 1e10 ns after
    the write is dropped by every open watcher: the world stays as it is,
    so a change made by another program in that window is not picked
    up by this event. *)
Theorem events_after_own_write_dropped (w : World) (T : Z) (eventType : string)
    (filename : option string) :
  idle w → fs_healthy (node w) = true → timers (node w) = [] →
  T < hrtime (node w) + Main.IGNORE_WINDOW →
  let w1 := advance_to T (exec Main.writeSync w) in
  deliver (FileEvent eventType filename) w1 = w1.
Proof.
  intros Hi Hh Htm HT w1.
  subst w1. unfold exec. rewrite writeSync_written by done. cbn [snd].
  destruct (written_sync_this (cachedSettings (this w)) w)
    as (_ & _ & _ & _ & _ & _ & _ & _ & _ & Hl & _).
  destruct (written_sync_node (cachedSettings (this w)) w)
    as (_ & Hhr & _ & _ & _ & Htm1 & _).
  set (w1 := written_sync _ w) in *.
  assert (Hearly : Forall (fun tm : Z * nat => T < tm.1) (timers (node w1)))
    by (rewrite Htm1, Htm; constructor).
  rewrite (advance_to_early T w1 Hearly).
  set (w2 := set_node _ w1).
  unfold deliver, exec, file_event, bind, get_node.
  rewrite for_each_unchanged; [done|].
  intros c. rewrite watch_listener_exact.
  change (hrtime (node w2)) with (hrtime (node w1) `max` T).
  change (_lastWriteHrtime (this w2)) with (_lastWriteHrtime (this w1)).
  rewrite Hl, Hhr.
  rewrite (bool_decide_eq_true_2
             (hrtime (node w) `max` T - hrtime (node w) < Main.IGNORE_WINDOW)).
  - by rewrite andb_false_r.
  - assert (0 < Main.IGNORE_WINDOW) by done. lia.
Qed.

(** ** Reloading after a change of the file *)

Lemma cache_allocated (o : obj) (w : World) :
  is_Some (heap (node w) !! cachedSettings (this w)) →
  cache (allocated o w) = cache w.
Proof.
  intros [c Hc]. unfold cache. cbn. by rewrite (lookup_app_l_Some _ _ _ _ Hc), Hc.
Qed.

Lemma defaults_table_allocated (o : obj) (w : World) :
  is_Some (heap (node w) !! _defaults (this w)) →
  defaults_table (allocated o w) = defaults_table w.
Proof.
  intros [c Hc]. unfold defaults_table. cbn. by rewrite (lookup_app_l_Some _ _ _ _ Hc), Hc.
Qed.

Lemma notifications_installed (l : loc) (w : World) :
  notifications (installed l w) =
    ((if deepEqual (default ∅ (heap (node w) !! l)) (cache w) then 0
      else length (listeners w)) + notifications w)%nat.
Proof.
  unfold installed. destruct (deepEqual _ _); [done|].
  by rewrite notifications_notify.
Qed.

(** The ways [_fileChanged] goes. *)

Lemma _fileChanged_unreadable (w : World) :
  fs_file (node w) = None ∨ (∃ t, fs_file (node w) = Some t ∧ JSON_parse t = None) →
  Main._fileChanged w = (Ret tt, reading w).
Proof.
  intros H. unfold Main._fileChanged, try_catch, bind at 1.
  rewrite fs_readFileSync_exact.
  destruct H as [->|(t & -> & Hp)]; [done|]. by rewrite Hp.
Qed.

Lemma _fileChanged_accepted (w : World) (t : text) (doc : obj) :
  fs_file (node w) = Some t → JSON_parse t = Some doc →
  (validateFile (options (this w)) = false ∨ _check (this w) doc = CheckTrue) →
  let loaded := if validateFile (options (this w))
                then fill_defaults (_schema (this w)) doc else doc in
  Main._fileChanged w
  = (Ret tt, installed (length (heap (node w))) (allocated loaded (reading w))).
Proof.
  intros Hf Hp Hok loaded. unfold Main._fileChanged, try_catch, bind at 1.
  rewrite fs_readFileSync_exact, Hf, Hp.
  unfold bind at 1. rewrite alloc_exact.
  unfold bind at 1, get_this at 1.
  change (options (this (allocated doc (reading w)))) with (options (this w)).
  change (heap (node (reading w))) with (heap (node w)).
  subst loaded. destruct (validateFile (options (this w))); cbn [negb].
  - destruct Hok as [?|Hok]; [done|].
    unfold bind at 1. rewrite _fastValidateSettings_exact.
    change (heap (node w)) with (heap (node (reading w))).
    rewrite heap_allocated_fresh, checked_allocated. cbn [default id].
    change (_check (this (allocated doc (reading w)))) with (_check (this w)).
    rewrite Hok. by rewrite _setCachedSettings_installed.
  - by rewrite _setCachedSettings_installed.
Qed.

Lemma _fileChanged_rejected (w : World) (t : text) (doc : obj) (errs : list CheckError) :
  fs_file (node w) = Some t → JSON_parse t = Some doc →
  validateFile (options (this w)) = true →
  _check (this w) doc = CheckErrors errs →
  defaultOnFailValidation (options (this w)) = false →
  Main._fileChanged w
  = (Ret tt, allocated (fill_defaults (_schema (this w)) doc) (reading w)).
Proof.
  intros Hf Hp Hv Hchk Hpol. unfold Main._fileChanged, try_catch, bind at 1.
  rewrite fs_readFileSync_exact, Hf, Hp.
  unfold bind at 1. rewrite alloc_exact.
  unfold bind at 1, get_this at 1.
  change (options (this (allocated doc (reading w)))) with (options (this w)).
  rewrite Hv. cbn [negb].
  unfold bind at 1. rewrite _fastValidateSettings_exact.
  rewrite heap_allocated_fresh, checked_allocated. cbn [default id].
  change (_check (this (allocated doc (reading w)))) with (_check (this w)).
  by rewrite Hchk, Hpol.
Qed.


(** X23. A change of the file that is taken over. When [_fileChanged], on a
    store whose cache field names an object, finds a file that parses to an
    object without [undefined] and passes validation (or file validation is
    off), the cache afterwards holds the content of the file, completed by
    the checker when file validation is on: a field of the schema for which
    the file has no value, or [null], holds its schema default. Every
    registered listener is sent one message if that object differs from the
    old cache and none otherwise, nothing is written and the file is left
    as it was. *)
Theorem file_change_reloads (w : World) (t : text) (doc : obj) :
  fs_file (node w) = Some t → JSON_parse t = Some doc → defined doc →
  is_Some (heap (node w) !! cachedSettings (this w)) →
  (validateFile (options (this w)) = false ∨ _check (this w) doc = CheckTrue) →
  let loaded := if validateFile (options (this w))
                then fill_defaults (_schema (this w)) doc else doc in
  let r := Main._fileChanged w in
  r.1 = Ret tt
  ∧ cache r.2 = loaded
  ∧ notifications r.2 =
      ((if decide (loaded = cache w) then 0 else length (listeners w)) + notifications w)%nat
  ∧ physical_writes r.2 = physical_writes w
  ∧ fs_file (node r.2) = Some t.
Proof.
  intros Hf Hp Hdef Hvalid Hok loaded r. subst r.
  rewrite (_fileChanged_accepted w t doc) by done. cbn [fst snd]. fold loaded.
  assert (Hdl : defined loaded).
  { subst loaded. destruct (validateFile _); [|done]. by apply fill_defaults_defined. }
  destruct (installed_frame (length (heap (node w))) (allocated loaded (reading w)))
    as ((Hfile & _ & Hpw & _) & _).
  cbv zeta in Hfile, Hpw.
  split; [done|].
  split. { apply (cache_installed_fresh loaded (reading w) Hdl). }
  split.
  { rewrite notifications_installed.
    change (heap (node (allocated loaded (reading w))) !! length (heap (node w)))
      with (heap (node (allocated loaded (reading w))) !! length (heap (node (reading w)))).
    rewrite heap_allocated_fresh. cbn [default id].
    rewrite (cache_allocated loaded (reading w)) by done.
    change (cache (reading w)) with (cache w).
    destruct (decide (loaded = cache w)) as [->|Hne].
    - by rewrite deepEqual_refl.
    - destruct (deepEqual loaded (cache w)) eqn:E; [|done].
      by apply deepEqual_defined in E. }
  split; [by rewrite Hpw|]. by rewrite Hfile.
Qed.

(** X24. A change of the file that is not taken over. When [_fileChanged],
    on a store whose cache field names an object, finds no file, a file that does not parse, or (file validation on,
    default-on-failure off) a file that fails validation, it returns
    without throwing; the cache and the fields of the store are unchanged,
    the only effect is the read of the file, and the file is left as it
    was. *)
Theorem file_change_ignored (w : World) :
  is_Some (heap (node w) !! cachedSettings (this w)) →
  fs_file (node w) = None
  ∨ (∃ t, fs_file (node w) = Some t ∧ JSON_parse t = None)
  ∨ (∃ t doc errs, fs_file (node w) = Some t ∧ JSON_parse t = Some doc
       ∧ validateFile (options (this w)) = true
       ∧ _check (this w) doc = CheckErrors errs
       ∧ defaultOnFailValidation (options (this w)) = false) →
  let r := Main._fileChanged w in
  r.1 = Ret tt
  ∧ cache r.2 = cache w
  ∧ this r.2 = this w
  ∧ trace (node r.2) = FsRead :: trace (node w)
  ∧ fs_file (node r.2) = fs_file (node w).
Proof.
  intros Hvalid H r. subst r.
  destruct H as [H|[H|(t & doc & errs & Hf & Hp & Hv & Hchk & Hpol)]].
  - rewrite _fileChanged_unreadable by auto. by repeat split.
  - rewrite _fileChanged_unreadable by auto. by repeat split.
  - rewrite (_fileChanged_rejected w t doc errs) by done. cbn [fst snd].
    split; [done|]. split; [|done].
    by rewrite (cache_allocated _ (reading w)).
Qed.


(** ** Replacing all settings; listeners *)

(** *** [setAll] *)

Lemma setAll_exact (data : obj) (w : World) :
  _hasInitialized (this w) = true →
  let w1 := allocated (fill_defaults (_schema (this w)) data) w in
  Main.setAll data w =
    if negb (validate_opt (options (this w)))
    then (Ret tt, installed (length (heap (node w))) (allocated data w))
    else match _check (this w) data with
         | CheckTrue => (Ret tt, installed (length (heap (node w))) w1)
         | CheckErrors errs =>
             if defaultOnFailValidation (options (this w))
             then (Ret tt, installed (_defaults (this w)) w1)
             else (match Main.error_messages errs with
                   | m :: _ => Throw (Error ("Set All validation fail: " +:+ m))
                   | [] => Ret tt
                   end, w1)
         end.
Proof.
  intros Hi w1. unfold Main.setAll, bind at 1, get_this at 1. rewrite Hi. cbn [negb].
  unfold bind at 1. rewrite alloc_exact.
  destruct (validate_opt (options (this w))); cbn [negb].
  - unfold bind at 1. rewrite _fastValidateSettings_exact.
    rewrite heap_allocated_fresh, checked_allocated. cbn [default id]. fold w1.
    change (_check (this (allocated data w))) with (_check (this w)).
    destruct (_check (this w) data) as [|errs].
    + apply _setCachedSettings_installed.
    + destruct (defaultOnFailValidation (options (this w))).
      * apply _setCachedSettings_installed.
      * apply throw_first_message_exact.
  - apply _setCachedSettings_installed.
Qed.

(** X26. [setAll(data)] with data that holds no [undefined] and passes
    validation (or validation off), on an initialized store whose cache
    field names an object: it returns, and the cache holds [data],
    completed by the checker when validation is on: a field of the schema
    for which [data] has no value, or [null], holds its schema default.
    [getAll()] returns that object, and every registered listener is sent
    one message if it differs from the old cache and none otherwise. *)
Theorem setAll_accepted (w : World) (data : obj) :
  _hasInitialized (this w) = true →
  is_Some (heap (node w) !! cachedSettings (this w)) →
  defined data →
  (validate_opt (options (this w)) = false ∨ _check (this w) data = CheckTrue) →
  let taken := if validate_opt (options (this w))
               then fill_defaults (_schema (this w)) data else data in
  let r := Main.setAll data w in
  r.1 = Ret tt
  ∧ cache r.2 = taken
  ∧ Main.getAll r.2 = (Ret taken, r.2)
  ∧ notifications r.2 =
      ((if decide (taken = cache w) then 0 else length (listeners w)) + notifications w)%nat.
Proof.
  intros Hi Hvalid Hdef Hok taken r.
  assert (Hr : r = (Ret tt, installed (length (heap (node w))) (allocated taken w))).
  { subst r taken. rewrite setAll_exact by done. cbv zeta.
    destruct (validate_opt (options (this w))); cbn [negb]; [|done].
    destruct Hok as [?|Hok]; [done|]. by rewrite Hok. }
  rewrite Hr. cbn [fst snd].
  assert (Hdt : defined taken).
  { subst taken. destruct (validate_opt _); [|done]. by apply fill_defaults_defined. }
  assert (Hc : cache (installed (length (heap (node w))) (allocated taken w)) = taken)
    by (by apply cache_installed_fresh).
  split; [done|]. split; [done|].
  split.
  { unfold Main.getAll, bind, get_this.
    replace (_hasInitialized (this (installed (length (heap (node w))) (allocated taken w))))
      with true.
    2:{ unfold installed. by destruct (deepEqual _ _). }
    cbn [negb]. change (deref ?l ?x) with (Ret (cache x), x). by rewrite Hc. }
  rewrite notifications_installed, heap_allocated_fresh. cbn [default id].
  rewrite cache_allocated by done.
  destruct (decide (taken = cache w)) as [->|Hne].
  - by rewrite deepEqual_refl.
  - destruct (deepEqual taken (cache w)) eqn:E; [|done].
    by apply deepEqual_defined in E.
Qed.

(** X27. [setAll(data)] with data that fails validation, on an initialized
    store with validation on whose cache and defaults fields name objects
    (the defaults holding no [undefined]). With default-on-failure on, the whole cache
    is reset: it holds the defaults afterwards and, unless it already did,
    the cache field names the defaults object itself. With it off, the
    cache is unchanged and no listener is told; the call throws an Error if
    the report has a message and returns normally if it has none. *)
Theorem setAll_rejected (w : World) (data : obj) (errs : list CheckError) :
  _hasInitialized (this w) = true →
  is_Some (heap (node w) !! cachedSettings (this w)) →
  is_Some (heap (node w) !! _defaults (this w)) →
  validate_opt (options (this w)) = true →
  _check (this w) data = CheckErrors errs →
  let r := Main.setAll data w in
  (defaultOnFailValidation (options (this w)) = true →
     defined (defaults_table w) →
     r.1 = Ret tt
     ∧ cache r.2 = defaults_table w
     ∧ (cache w ≠ defaults_table w → cachedSettings (this r.2) = _defaults (this r.2)))
  ∧ (defaultOnFailValidation (options (this w)) = false →
     cache r.2 = cache w
     ∧ notifications r.2 = notifications w
     ∧ (Main.error_messages errs ≠ [] → ∃ msg, r.1 = Throw (Error msg))
     ∧ (Main.error_messages errs = [] → r.1 = Ret tt)).
Proof.
  intros Hi Hvc Hvd Hval Hchk r.
  pose proof (setAll_exact data w Hi) as Hr. cbv zeta in Hr.
  rewrite Hval, Hchk in Hr. cbn [negb] in Hr. fold r in Hr.
  split; intros Hpol; rewrite Hpol in Hr.
  - intros Hdef. rewrite Hr. cbn [fst snd].
    assert (Ht : default ∅ (heap (node (allocated (fill_defaults (_schema (this w)) data) w))
                              !! _defaults (this w))
                 = defaults_table w) by (by apply defaults_table_allocated).
    split; [done|]. split.
    + rewrite cache_installed; rewrite Ht; done.
    + intros Hne. unfold installed. rewrite Ht, cache_allocated by done.
      destruct (deepEqual _ _) eqn:E; [|done].
      apply deepEqual_defined in E; [|done]. by destruct Hne.
  - rewrite Hr. destruct (Main.error_messages errs) as [|m ms]; cbn [fst snd].
    + split; [by apply cache_allocated|]. split; [done|]. split; done.
    + split; [by apply cache_allocated|]. split; [done|]. split; [by eexists|done].
Qed.

(** *** [addListener] *)

Lemma elem_of_listeners (l : nat) (w : World) :
  l ∈ listeners w ↔ Some l ∈ _windowListeners (this w).
Proof.
  unfold listeners. rewrite list_elem_of_omap. split.
  - intros ([x|] & Hin & Hx); cbn in Hx; [|done]. by injection Hx as ->.
  - intros Hin. by exists (Some l).
Qed.

(** X28. The handler of 'addListener' registers a renderer once. After it
    ran the renderer is among the listeners; it is appended if it was not
    there and the list is unchanged if it was, so running the handler again
    changes nothing and a list without duplicates stays without
    duplicates. The cache and the trace are untouched. *)
Theorem addListener_registers_once (l : nat) (w : World) :
  let w1 := exec (Main.addListener l) w in
  l ∈ listeners w1
  ∧ exec (Main.addListener l) w1 = w1
  ∧ listeners w1 = (if bool_decide (l ∈ listeners w) then listeners w
                    else listeners w ++ [l])
  ∧ (NoDup (listeners w) → NoDup (listeners w1))
  ∧ cache w1 = cache w ∧ trace (node w1) = trace (node w).
Proof.
  cbv zeta. unfold exec, Main.addListener, bind, get_this.
  destruct (bool_decide (Some l ∈ _windowListeners (this w))) eqn:E; cbn [snd].
  - apply bool_decide_eq_true in E. pose proof (proj2 (elem_of_listeners l w) E) as Hin.
    rewrite (bool_decide_eq_true_2 _ E), (bool_decide_eq_true_2 _ Hin). by repeat split.
  - apply bool_decide_eq_false in E.
    assert (Hout : l ∉ listeners w) by (by rewrite elem_of_listeners).
    rewrite (bool_decide_eq_false_2 _ Hout).
    unfold modify_this. cbn [snd].
    set (w1 := {| this := _; node := node w |}).
    assert (Hl : listeners w1 = listeners w ++ [l]).
    { unfold listeners. cbn. by rewrite omap_app. }
    assert (Hin' : Some l ∈ _windowListeners (this w1)).
    { cbn. apply elem_of_app. right. by left. }
    rewrite (bool_decide_eq_true_2 _ Hin'). cbn [snd].
    rewrite Hl. split; [apply elem_of_app; right; by left|].
    split; [done|]. split; [done|]. split; [|done].
    intros Hnd. apply NoDup_app. split; [done|]. split.
    + intros x Hx [->|?%elem_of_nil]%elem_of_cons; done.
    + apply NoDup_singleton.
Qed.

(** ** The asynchronous write *)



(** ** The object form of [set] *)

Lemma defaults_table_stored_dom (k : string) (v : value) (w : World) (k' : string) :
  is_Some (cache w !! k) →
  is_Some (defaults_table (stored k v w) !! k') ↔ is_Some (defaults_table w !! k').
Proof.
  intros Hc. destruct (decide (k' = k)) as [->|Hne]; [by apply defaults_table_stored|].
  unfold stored. destruct (strict_eq _ _); [done|].
  change (defaults_table (notify ?x)) with (defaults_table x).
  pose proof (cache_is_Some_heap _ _ Hc) as [o Ho].
  unfold defaults_table, store_key. cbn.
  destruct (decide (cachedSettings (this w) = _defaults (this w))) as [<-|Hl].
  - rewrite list_lookup_alter_eq, Ho. cbn. by rewrite lookup_insert_ne.
  - by rewrite list_lookup_alter_ne.
Qed.

Lemma accepts_stored (k : string) (v : value) (w : World) (kv : string * value) :
  is_Some (cache w !! k) → accepts w kv → accepts (stored k v w) kv.
Proof.
  intros Hc (H1 & H2 & H3 & H4). unfold accepts. rewrite this_stored.
  split; [done|]. split.
  { rewrite cache_stored by done. destruct (decide (kv.1 = k)) as [->|Hne].
    - rewrite lookup_insert_eq. by eexists.
    - by rewrite lookup_insert_ne. }
  split; [|done]. intros H. apply H3. by apply (defaults_table_stored_dom k v w).
Qed.

Lemma set_entries_step (m : M (bool * list errors_t)) (kv : string * value)
    (w0 W : World) :
  _hasInitialized (this W) = true → accepts W kv →
  m w0 = (Ret (true, []), W) →
  (let* g := m in
   let* setResultArray := Main._set kv.1 kv.2 in
   if negb (status setResultArray)
   then ret (false, g.2 ++ [errors setResultArray])
   else ret g) w0
  = (Ret (true, []), stored kv.1 kv.2 W).
Proof.
  intros Hi (H1 & H2 & H3 & H4) Hm. unfold bind at 1. rewrite Hm.
  unfold bind. by rewrite _set_accepted.
Qed.

Lemma set_entries_accepted (entries : list (string * value)) (w : World) :
  _hasInitialized (this w) = true → Forall (accepts w) entries →
  Main.set_entries entries w
  = (Ret (true, []), foldl (fun w kv => stored kv.1 kv.2 w) w entries).
Proof.
  intros Hi Hall. unfold Main.set_entries.
  assert (Hgen : ∀ (m : M (bool * list errors_t)) w0 W,
            _hasInitialized (this W) = true → Forall (accepts W) entries →
            m w0 = (Ret (true, []), W) →
            foldl (fun acc kv =>
                     let* g := acc in
                     let* setResultArray := Main._set kv.1 kv.2 in
                     if negb (status setResultArray)
                     then ret (false, g.2 ++ [errors setResultArray])
                     else ret g) m entries w0
            = (Ret (true, []), foldl (fun w kv => stored kv.1 kv.2 w) W entries)).
  { clear. induction entries as [|kv entries IH]; intros m w0 W Hi Hall Hm; [done|].
    apply Forall_cons in Hall as [Hkv Hall]. cbn [foldl].
    apply IH.
    - by rewrite this_stored.
    - eapply Forall_impl; [exact Hall|]. intros kv'. apply accepts_stored. apply Hkv.
    - by apply set_entries_step. }
  by apply Hgen.
Qed.

Lemma this_foldl_stored (entries : list (string * value)) (w : World) :
  this (foldl (fun w kv => stored kv.1 kv.2 w) w entries) = this w.
Proof.
  revert w. induction entries as [|kv entries IH]; intros w; [done|].
  cbn [foldl]. by rewrite IH, this_stored.
Qed.

Lemma cache_foldl_stored (entries : list (string * value)) (w : World) :
  Forall (fun kv => is_Some (cache w !! kv.1)) entries → NoDup entries.*1 →
  cache (foldl (fun w kv => stored kv.1 kv.2 w) w entries)
  = (list_to_map entries : obj) ∪ cache w.
Proof.
  revert w. induction entries as [|[k v] entries IH]; intros w Hall Hnd.
  - cbn. by rewrite (left_id ∅ (∪)).
  - apply Forall_cons in Hall as [Hk Hall]. cbn in Hk.
    rewrite fmap_cons in Hnd. apply NoDup_cons in Hnd as [Hnotin Hnd].
    cbn [foldl fst snd]. rewrite IH; [|..|done].
    + rewrite cache_stored by done. cbn [list_to_map foldr].
      change (foldr _ ∅ entries) with (list_to_map entries : obj).
      apply map_eq. intros k'.
      destruct (decide (k' = k)) as [->|Hne].
      * rewrite lookup_union_r by (by apply not_elem_of_list_to_map_1).
        rewrite lookup_insert_eq. symmetry.
        apply lookup_union_Some_l. apply lookup_insert_eq.
      * destruct ((list_to_map entries : obj) !! k') as [x|] eqn:E.
        -- rewrite (lookup_union_Some_l _ _ _ _ E). symmetry.
           apply lookup_union_Some_l. by rewrite lookup_insert_ne.
        -- rewrite lookup_union_r by done. rewrite lookup_insert_ne by done.
           symmetry. rewrite lookup_union_r; [done|]. by rewrite lookup_insert_ne.
    + eapply Forall_impl; [exact Hall|]. intros [k' v'] Hk'. cbn in *.
      rewrite cache_stored by done. destruct (decide (k' = k)) as [->|Hne].
      * rewrite lookup_insert_eq. by eexists.
      * by rewrite lookup_insert_ne.
Qed.

(** X4. The object form of [set]. On an initialized store, if every entry
    of the object has a non-empty key that is in the cache (and in the
    schema if the defaults have it) and a value that passes validation (or
    validation is off), [set(object)] returns the
    group status [true] with no errors, the cache afterwards is the object
    laid over the old cache, and neither the fields of the store nor the
    file change. *)
Theorem set_object_accepted (w : World) (o : obj) (v0 : value) :
  _hasInitialized (this w) = true →
  (∀ k v, o !! k = Some v → accepts w (k, v)) →
  let r := Main.set (Main.KeyObject o) v0 w in
  r.1 = Ret (Main.SetGroup true [])
  ∧ cache r.2 = o ∪ cache w
  ∧ this r.2 = this w
  ∧ fs_file (node r.2) = fs_file (node w).
Proof.
  intros Hi Hacc r.
  assert (Hall : Forall (accepts w) (map_to_list o)).
  { apply Forall_forall. intros [k v] Hin. apply Hacc. by apply elem_of_map_to_list. }
  assert (Hr : r = (Ret (Main.SetGroup true []),
                    foldl (fun w kv => stored kv.1 kv.2 w) w (map_to_list o))).
  { subst r. unfold Main.set, bind at 1, get_this at 1. rewrite Hi. cbn [negb].
    unfold try_catch, bind. by rewrite set_entries_accepted. }
  pose proof (set_memory_only (Main.KeyObject o) v0 w) as Hm. fold r in Hm.
  unfold memory_only, unchanged, obs_outside in Hm.
  injection Hm as Hf _ _ _ _ _ _ _ _ _ _ _ _ _ _.
  split; [by rewrite Hr|]. split; [|split; [|done]].
  - rewrite Hr. cbn [snd]. rewrite cache_foldl_stored.
    + by rewrite list_to_map_to_list.
    + eapply Forall_impl; [exact Hall|]. by intros kv (_ & ? & _).
    + apply NoDup_fst_map_to_list.
  - rewrite Hr. apply this_foldl_stored.
Qed.

(** ** The renderer's replica *)

Lemma initSync_objects (w : World) (s : Renderer.Replica) :
  let s' := Renderer.initSync (getAllAndDefaultsSync w) s in
  Renderer.object (Renderer._cachedSettings s') s' = cache w
  ∧ Renderer.object (Renderer._defaults s') s' = defaults_table w
  ∧ Renderer._hasInitialized s' = true.
Proof.
  cbv zeta. unfold getAllAndDefaultsSync. case_bool_decide as Hal.
  - unfold Renderer.object, Renderer.initSync. cbn.
    rewrite !lookup_app_r by lia.
    replace (length (Renderer.objects s) - length (Renderer.objects s))%nat
      with 0%nat by lia.
    cbn. unfold cache, defaults_table. by rewrite Hal.
  - unfold Renderer.object, Renderer.initSync. cbn.
    rewrite !lookup_app_r by lia.
    replace (length (Renderer.objects s) - length (Renderer.objects s))%nat
      with 0%nat by lia.
    replace (S (length (Renderer.objects s)) - length (Renderer.objects s))%nat
      with 1%nat by lia.
    done.
Qed.

(** X29. A renderer's replica right after [initSync] answers like the main
    store. If the main store is initialized and its defaults are the
    schema's, then the replica built from the answer to
    'getAllAndDefaultsSync' returns the main cache from [getAll], the main
    defaults from [getDefaults], and for every key the same result (value
    or thrown error) from [get], [getDefault] and [has] as the main
    store. *)
Theorem replica_agrees_after_init (w : World) (s : Renderer.Replica) (k : string) :
  _hasInitialized (this w) = true →
  defaults_table w = Main._retreiveDefaults (_schema (this w)) →
  let s' := Renderer.initSync (getAllAndDefaultsSync w) s in
  Renderer.getAll s' = cache w
  ∧ Renderer.getDefaults s' = defaults_table w
  ∧ (Renderer.get k s').1 = (Main.get k w).1
  ∧ (Renderer.getDefault k s').1 = (Main.getDefault k w).1
  ∧ (Renderer.has k s').1 = (Main.has k w).1.
Proof.
  intros Hi Ht s'.
  destruct (initSync_objects w s) as (Hc & Hd & Hi').
  fold s' in Hc, Hd, Hi'.
  split; [done|]. split; [done|].
  unfold Renderer.get, Renderer.getDefault, Renderer.has.
  rewrite Hi', Hc, Hd. cbn [negb].
  unfold Main.get, Main.getDefault, Main.has, bind, get_this. rewrite Hi. cbn [negb].
  case_bool_decide as Hk; [done|].
  change (deref (cachedSettings (this w)) w) with (Ret (cache w), w).
  change (deref (_defaults (this w)) w) with (Ret (defaults_table w), w).
  cbv beta iota.
  assert (Hdef : (if hasOwnProperty (defaults_table w) k
                  then (Main.schema_default k w).1 else (Ret VUndefined))
                 = if hasOwnProperty (defaults_table w) k
                   then Ret (prop (defaults_table w) k) else Ret VUndefined).
  { unfold hasOwnProperty, prop, Main.schema_default, bind, get_this.
    rewrite Ht. unfold Main._retreiveDefaults. rewrite lookup_fmap.
    by destruct (_schema (this w) !! k). }
  assert (Hsch : hasOwnProperty (_schema (this w)) k = hasOwnProperty (defaults_table w) k).
  { unfold hasOwnProperty. rewrite Ht. unfold Main._retreiveDefaults. rewrite lookup_fmap.
    by destruct (_schema (this w) !! k). }
  split; [|split].
  - destruct (hasOwnProperty (cache w) k); cbn [negb fst]; [done|].
    rewrite Hsch. destruct (hasOwnProperty (defaults_table w) k); [|done].
    cbn [fst]. by rewrite <- Hdef.
  - destruct (hasOwnProperty (defaults_table w) k); [|done]. cbn [fst]. by rewrite <- Hdef.
  - done.
Qed.

(** X30. In a renderer, [reset()] makes the replica's cache and defaults
    one object, so a later [unset(k)] removes [k] from the defaults too. On
    an initialized replica whose defaults have [k] (non-empty) with value
    [d]: [getDefault(k)] returns [d]; after [reset()], [unset(k)] sends the
    request to the main process, and from then on the replica's defaults
    lack [k] and both [getDefault(k)] and [get(k)] return [undefined]. *)
Theorem replica_reset_then_unset (s : Renderer.Replica) (k : string) (d : value) :
  Renderer._hasInitialized s = true → k ≠ "" →
  Renderer.getDefaults s !! k = Some d →
  let s1 := (Renderer.reset s).2 in
  let r := Renderer.unset k s1 in
  Renderer.getDefault k s = (Ret d, s)
  ∧ r.1 = Ret (inr (Renderer.RUnset k))
  ∧ Renderer.getDefaults r.2 = delete k (Renderer.getDefaults s)
  ∧ Renderer.getDefault k r.2 = (Ret VUndefined, r.2)
  ∧ Renderer.get k r.2 = (Ret VUndefined, r.2).
Proof.
  intros Hi Hk Hd s1 r.
  unfold Renderer.getDefaults, Renderer.object in Hd.
  destruct (Renderer.objects s !! Renderer._defaults s) as [o|] eqn:Ho;
    [|cbn in Hd; by rewrite lookup_empty in Hd].
  cbn in Hd.
  set (s2 := Renderer.set_objects
                (alter (delete k) (Renderer._defaults s) (Renderer.objects s))
                (Renderer.set_cachedSettings (Renderer._defaults s) s)).
  assert (Hr : r = (Ret (inr (Renderer.RUnset k)), s2)).
  { subst r s1 s2. unfold Renderer.unset, Renderer.reset, Renderer.object. cbn.
    rewrite Hi, Ho. cbn. rewrite bool_decide_eq_false_2 by done.
    by rewrite (hasOwnProperty_Some _ _ _ Hd). }
  assert (Hd2 : Renderer.object (Renderer._defaults s2) s2 = delete k o).
  { unfold Renderer.object. subst s2. cbn. by rewrite list_lookup_alter_eq, Ho. }
  assert (Hc2 : Renderer.object (Renderer._cachedSettings s2) s2 = delete k o).
  { unfold Renderer.object. subst s2. cbn. by rewrite list_lookup_alter_eq, Ho. }
  assert (Hi2 : Renderer._hasInitialized s2 = true) by done.
  split.
  { unfold Renderer.getDefault, Renderer.object. rewrite Hi, Ho. cbn.
    rewrite bool_decide_eq_false_2 by done.
    by rewrite (hasOwnProperty_Some _ _ _ Hd), (prop_Some _ _ _ Hd). }
  rewrite Hr. cbn [fst snd]. split; [done|].
  split.
  { unfold Renderer.getDefaults. rewrite Hd2. unfold Renderer.object. by rewrite Ho. }
  split.
  - unfold Renderer.getDefault. rewrite Hi2, Hd2. cbn [negb].
    rewrite bool_decide_eq_false_2 by done.
    by rewrite (hasOwnProperty_None _ _ (lookup_delete_eq o k)).
  - unfold Renderer.get. rewrite Hi2, Hc2, Hd2. cbn [negb].
    rewrite bool_decide_eq_false_2 by done.
    by rewrite (hasOwnProperty_None _ _ (lookup_delete_eq o k)).
Qed.

(** ** The properties on the sample store *)

Lemma defined_check (o : obj) :
  forallb (fun kv => negb (strict_eq kv.2 VUndefined)) (map_to_list o) = true → defined o.
Proof.
  intros H k Hk. rewrite forallb_forall in H.
  apply elem_of_map_to_list, list_elem_of_In in Hk. specialize (H _ Hk).
  cbn in H. unfold strict_eq in H. by rewrite bool_decide_eq_true_2 in H.
Qed.

(** Side conditions on a concrete world. *)
Ltac settle :=
  first [ match goal with
          | |- _ ≠ _ => let H := fresh in intros H; discriminate H
          end
        | vm_compute; reflexivity
        | vm_compute; let H := fresh in intros H; discriminate H
        | split; vm_compute; reflexivity
        | apply defined_check; vm_compute; reflexivity
        | solve [vm_compute; eauto]
        | solve [repeat constructor; vm_compute; eauto] ].

(** Two copies of the sample settings. *)
Lemma deepEqual_exact_witness :
  deepEqual {[ "size" := VNum 25 ]} {[ "size" := VNum 25 ]} = true
  ↔ ({[ "size" := VNum 25 ]} : obj) = {[ "size" := VNum 25 ]}.
Proof.
  apply (deepEqual_exact {[ "size" := VNum 25 ]} {[ "size" := VNum 25 ]}). settle.
Defined.




(** The watching sample store disables its watcher and saves. *)
Lemma disabled_watcher_stays_off_witness :
  let w := sample_watching in
  let w1 := exec Main.disableFileWatcher w in
  let w2 := exec Main.writeSync w1 in
  _watcher (this w2) = None
  ∧ fs_watchers (node w2) = fs_watchers (node w1)
  ∧ 0%nat ∉ fs_watchers (node w2).
Proof.
  intros w. apply (disabled_watcher_stays_off w 0%nat); settle.
Defined.


(** Twenty seconds in, the watching sample store gets a rename and a change. *)
Lemma watch_listener_drops_witness :
  let w := advance_to T0 sample_watching in
  Main.watch_listener 0 "rename" (Some "config.json") w = (Ret tt, w)
  ∧ (let r := Main.watch_listener 0 "change" (Some "config.json") w in
     r.1 = Ret tt
     ∧ timers (node r.2) = timers (node w) ++ [(hrtime (node w) + Main.TIMER_DELAY, 0%nat)]
     ∧ fsWait (node r.2) = <[0%nat := true]> (fsWait (node w))
     ∧ this r.2 = this w
     ∧ file_reads r.2 = file_reads w).
Proof.
  intros w. split.
  - apply (watch_listener_drops 0 "rename" (Some "config.json") w). left. discriminate.
  - apply (watch_listener_drops 0 "change" (Some "config.json") w).
    intros [H|[H|[H|[H|[H|H]]]]]; revert H; vm_compute; congruence.
Defined.

(** A change nine seconds after the sample store saved. *)
Lemma events_after_own_write_dropped_witness :
  let w := sample_watching in
  let w1 := advance_to (ms 9000) (exec Main.writeSync w) in
  deliver (FileEvent "change" (Some "config.json")) w1 = w1.
Proof.
  intros w. apply (events_after_own_write_dropped w (ms 9000)); settle.
Defined.

(** Another program leaves the empty object in the file of the sample
    store: the cache keeps the default size and no renderer is told.
    Another program sets the size to 30 in the file of the store on the
    wider schema: the name is completed and the renderer is told. *)
Lemma file_change_reloads_witness :
  let w := deliver (FileEdited (Some (Json true ∅))) (sample_ready defaultOptions) in
  let w' := deliver (FileEdited (Some edited_file)) (wide_ready defaultOptions) in
  let r := Main._fileChanged w in
  let r' := Main._fileChanged w' in
  (r.1 = Ret tt
   ∧ cache r.2 = {[ "size" := VNum 25 ]}
   ∧ notifications r.2 = notifications w
   ∧ physical_writes r.2 = physical_writes w
   ∧ fs_file (node r.2) = Some (Json true ∅))
  ∧ (r'.1 = Ret tt
     ∧ cache r'.2 = {[ "size" := VNum 30; "name" := VStr "World" ]}
     ∧ notifications r'.2 = S (notifications w')
     ∧ physical_writes r'.2 = physical_writes w'
     ∧ fs_file (node r'.2) = Some edited_file).
Proof.
  intros w w' r r'. split.
  - destruct (file_change_reloads w (Json true ∅) ∅) as (H1 & H2 & H3 & H4 & H5);
      [settle..|].
    fold r in H1, H2, H3, H4, H5.
    split; [exact H1|]. split; [rewrite H2; vm_compute; reflexivity|].
    split; [rewrite H3; vm_compute; reflexivity|].
    split; [exact H4|exact H5].
  - destruct (file_change_reloads w' edited_file {[ "size" := VNum 30 ]})
      as (H1 & H2 & H3 & H4 & H5); [settle..|].
    fold r' in H1, H2, H3, H4, H5.
    split; [exact H1|]. split; [rewrite H2; vm_compute; reflexivity|].
    split; [rewrite H3; vm_compute; reflexivity|].
    split; [exact H4|exact H5].
Defined.

(** Another program leaves a file that does not parse. *)
Lemma file_change_ignored_witness :
  let w := deliver (FileEdited (Some Garbage)) (sample_ready defaultOptions) in
  let r := Main._fileChanged w in
  r.1 = Ret tt
  ∧ cache r.2 = cache w
  ∧ this r.2 = this w
  ∧ trace (node r.2) = FsRead :: trace (node w)
  ∧ fs_file (node r.2) = fs_file (node w).
Proof.
  intros w. apply (file_change_ignored w); [settle|].
  right. left. exists Garbage. split; vm_compute; reflexivity.
Defined.


(** The sample store is given the empty object: the cache keeps the
    default size and no renderer is told. The store on the wider schema is
    given a size of 30: the name is completed and the renderer is told. *)
Lemma setAll_accepted_witness :
  let w := sample_ready defaultOptions in
  let w' := wide_ready defaultOptions in
  let r := Main.setAll ∅ w in
  let r' := Main.setAll {[ "size" := VNum 30 ]} w' in
  (r.1 = Ret tt
   ∧ cache r.2 = {[ "size" := VNum 25 ]}
   ∧ Main.getAll r.2 = (Ret {[ "size" := VNum 25 ]}, r.2)
   ∧ notifications r.2 = notifications w)
  ∧ (r'.1 = Ret tt
     ∧ cache r'.2 = {[ "size" := VNum 30; "name" := VStr "World" ]}
     ∧ Main.getAll r'.2 = (Ret {[ "size" := VNum 30; "name" := VStr "World" ]}, r'.2)
     ∧ notifications r'.2 = S (notifications w')).
Proof.
  intros w w' r r'. split.
  - destruct (setAll_accepted w ∅) as (H1 & H2 & H3 & H4); [settle..|].
    fold r in H1, H2, H3, H4.
    split; [exact H1|]. split; [rewrite H2; vm_compute; reflexivity|].
    split; [rewrite H3; vm_compute; reflexivity|].
    rewrite H4; vm_compute; reflexivity.
  - destruct (setAll_accepted w' {[ "size" := VNum 30 ]}) as (H1 & H2 & H3 & H4);
      [settle..|].
    fold r' in H1, H2, H3, H4.
    split; [exact H1|]. split; [rewrite H2; vm_compute; reflexivity|].
    split; [rewrite H3; vm_compute; reflexivity|].
    rewrite H4; vm_compute; reflexivity.
Defined.

(** The sample store is given settings with a size of 55, under both policies. *)
Lemma setAll_rejected_witness :
  let w := sample_ready defaultOptions in
  let w' := sample_ready opts_no_default in
  let r := Main.setAll {[ "size" := VNum 55 ]} (exec (Main.set size_key (VNum 30)) w) in
  let r' := Main.setAll {[ "size" := VNum 55 ]} w' in
  (r.1 = Ret tt ∧ cache r.2 = {[ "size" := VNum 25 ]}
   ∧ cachedSettings (this r.2) = _defaults (this r.2))
  ∧ (cache r'.2 = cache w' ∧ notifications r'.2 = notifications w'
     ∧ ∃ msg, r'.1 = Throw (Error msg)).
Proof.
  intros w w' r r'. split.
  - destruct (setAll_rejected (exec (Main.set size_key (VNum 30)) w)
                {[ "size" := VNum 55 ]} [size_error]) as [H _]; [settle..|].
    destruct H as (H1 & H2 & H3); [settle | settle |].
    split; [exact H1|]. split.
    + fold r in H2. rewrite H2. vm_compute; reflexivity.
    + apply H3. intros H. apply (f_equal (fun m : obj => m !! "size")) in H.
      vm_compute in H. discriminate H.
  - destruct (setAll_rejected w' {[ "size" := VNum 55 ]} [size_error]) as [_ H]; [settle..|].
    destruct H as (H1 & H2 & H3 & _); [settle|].
    split; [exact H1|]. split; [exact H2|]. apply H3. settle.
Defined.

(** A second renderer registers with the sample store. *)
Lemma addListener_registers_once_witness :
  let w := sample_ready defaultOptions in
  let w1 := exec (Main.addListener 8) w in
  listeners w1 = [7%nat; 8%nat] ∧ exec (Main.addListener 8) w1 = w1 ∧ NoDup (listeners w1).
Proof.
  intros w w1.
  destruct (addListener_registers_once 8 w) as (_ & H2 & H3 & H4 & _).
  fold w1 in H2, H3, H4.
  split; [|split; [exact H2|]].
  - rewrite H3. vm_compute; reflexivity.
  - apply H4. change (listeners w) with [7%nat]. apply NoDup_singleton.
Defined.


(** The sample store takes a size of 30 in object form. *)
Lemma set_object_accepted_witness :
  let w := sample_ready defaultOptions in
  let r := Main.set (Main.KeyObject {[ "size" := VNum 30 ]}) VUndefined w in
  r.1 = Ret (Main.SetGroup true [])
  ∧ cache r.2 = {[ "size" := VNum 30 ]} ∪ cache w
  ∧ this r.2 = this w
  ∧ fs_file (node r.2) = fs_file (node w).
Proof.
  intros w. apply (set_object_accepted w {[ "size" := VNum 30 ]} VUndefined); [settle|].
  intros k v [<- <-]%lookup_singleton_Some.
  split; [settle|]. split; [settle|]. split; [intros _; settle|]. right. settle.
Defined.

(** Four calls on the sample store. *)
Lemma in_memory_calls_leave_disk_alone_witness :
  let w := sample_ready defaultOptions in
  let cs := [CSet size_key (VNum 30); CReset; CUnset "size"; CSetAll ∅] in
  let w' := run_now (Call <$> cs) w in
  fs_file (node w') = fs_file (node w)
  ∧ physical_writes w' = physical_writes w
  ∧ file_reads w' = file_reads w
  ∧ in_flight w' = in_flight w
  ∧ timers (node w') = timers (node w)
  ∧ options (this w') = options (this w)
  ∧ _hasInitialized (this w') = _hasInitialized (this w)
  ∧ _defaults (this w') = _defaults (this w)
  ∧ _windowListeners (this w') = _windowListeners (this w).
Proof.
  intros w cs. apply (in_memory_calls_leave_disk_alone cs w). repeat constructor.
Defined.

(** The replica of a renderer that starts after the sample store. *)
Lemma replica_agrees_after_init_witness :
  let w := sample_ready defaultOptions in
  let s' := Renderer.initSync (getAllAndDefaultsSync w) (Renderer.constructor false) in
  Renderer.getAll s' = cache w
  ∧ Renderer.getDefaults s' = defaults_table w
  ∧ (Renderer.get "size" s').1 = (Main.get "size" w).1
  ∧ (Renderer.getDefault "size" s').1 = (Main.getDefault "size" w).1
  ∧ (Renderer.has "size" s').1 = (Main.has "size" w).1.
Proof.
  intros w.
  apply (replica_agrees_after_init w (Renderer.constructor false) "size");
    vm_compute; reflexivity.
Defined.

(** The sample replica resets and then removes the size. *)
Lemma replica_reset_then_unset_witness :
  let s := sample_replica in
  let s1 := (Renderer.reset s).2 in
  let r := Renderer.unset "size" s1 in
  Renderer.getDefault "size" s = (Ret (VNum 25), s)
  ∧ r.1 = Ret (inr (Renderer.RUnset "size"))
  ∧ Renderer.getDefaults r.2 = delete "size" (Renderer.getDefaults s)
  ∧ Renderer.getDefault "size" r.2 = (Ret VUndefined, r.2)
  ∧ Renderer.get "size" r.2 = (Ret VUndefined, r.2).
Proof.
  intros s.
  apply (replica_reset_then_unset s "size" (VNum 25));
    first [ vm_compute; reflexivity | (let H := fresh in intros H; discriminate H) ].
Defined.

